(** * findmybizname-platform: storage repository and community chat

    A shallow embedding of [storage.ts] (the [IStorage] interface with
    its two backends, [MemStorage] and [DatabaseStorage]) and of the
    WebSocket community chat of [routes.ts], followed by the
    properties of the wallet ledger, the referral bookkeeping, the usage
    counters and the chat registry.

    Conventions of the embedding.
    - A JS [number] that holds an identifier or a counter is a [Z].
    - A string that holds an amount is a [Decimal]: a decimal numeral with
      any number of decimals, ["NaN"], an infinity, or a text that is no
      number.  [parseFloat] reads it as an IEEE double ([JsNumber]: the
      rational value of the double, rounded to nearest-even at 53 bits),
      the arithmetic of the code is that of doubles, and [toFixed2] writes
      a double back with two decimals.  A [decimal(p, 2)] column rounds the
      numeral it is given half away from zero and refuses what does not
      fit; a [varchar(n)] column refuses a longer string.
    - [new Date()] and [Date.now()] are inputs of the operation that reads
      the clock.
    - A JS [Map] is an insertion-ordered association list ([JsMap]); a
      database table is the list of its rows in insertion order together
      with the next value of its [serial] sequence.
    - An [async] method of a backend is a function from the store to a
      result and the store it leaves behind; a rejected promise is [Err]. *)

From Stdlib Require Import ZArith List String Ascii Bool Lia.
From Stdlib Require Import QArith Qround Qabs Qpower Lqa.
From Stdlib Require Import Permutation Sorted.
Import ListNotations.
Open Scope string_scope.
Open Scope list_scope.
Open Scope Z_scope.

(** ** JavaScript strings and numbers *)

Module Js.

(** The digit [d] (0..35) as [Number.prototype.toString] writes it. *)
Definition digitChar (d : Z) : ascii :=
  if d <? 10 then ascii_of_nat (Z.to_nat (48 + d))
  else ascii_of_nat (Z.to_nat (87 + d)).

Fixpoint digitsOf (fuel : nat) (radix n : Z) (acc : string) : string :=
  match fuel with
  | O => acc
  | S fuel' =>
      let acc' := String (digitChar (n mod radix)) acc in
      if n / radix =? 0 then acc' else digitsOf fuel' radix (n / radix) acc'
  end.

(** [n.toString(radix)] for an integer [n]. *)
Definition toStringRadix (radix n : Z) : string :=
  if n <? 0
  then ("-" ++ digitsOf (S (Z.to_nat (Z.log2 (- n)))) radix (- n) "")%string
  else digitsOf (S (Z.to_nat (Z.log2 n))) radix n "".

(** [n.toString()] and the [${n}] of a template literal. *)
Definition toString (n : Z) : string := toStringRadix 10 n.

Definition upperChar (c : ascii) : ascii :=
  let n := nat_of_ascii c in
  if (Nat.leb 97 n && Nat.leb n 122)%bool then ascii_of_nat (n - 32) else c.

(** [s.toUpperCase()] on the ASCII range. *)
Fixpoint toUpperCase (s : string) : string :=
  match s with
  | EmptyString => EmptyString
  | String c r => String (upperChar c) (toUpperCase r)
  end.

(** Truthiness of a string: [""] is falsy. *)
Definition truthy (s : string) : bool := negb (String.eqb s "").

(** [s || d] for an optional string. *)
Definition orElse (s : option string) (d : string) : string :=
  match s with
  | Some v => if truthy v then v else d
  | None => d
  end.

End Js.

(** A [Date]: what the code reads from it. [getTime] is the epoch value in
    milliseconds, the other three are the local calendar fields. *)
Record Date := mkDate {
  getFullYear : Z;
  getMonth : Z;
  getDate : Z;
  getTime : Z
}.

(** ** Amounts: decimal strings and doubles *)

(** A string used as an amount.
    - [Num u k] is the decimal numeral of [u / 10^k] written with [k]
      decimals: ["100"] is [Num 100 0], ["2.50"] is [Num 250 2], ["1.005"]
      is [Num 1005 3].  A JSON number stands for the numeral its
      [toString()] prints.
    - [NaNString] is ["NaN"], [InfinityString] is ["Infinity"] or
      ["-Infinity"].
    - [EmptyText] is the empty string, the one string that is falsy.
    - [NotNumeric p] is any other text; [p] is the numeral it starts with,
      if it starts with one (["12abc"] starts with ["12"]). *)
Inductive Decimal :=
| Num (unscaled : Z) (scale : nat)
| NaNString
| InfinityString (negative : bool)
| EmptyText
| NotNumeric (prefix : option (Z * nat)).

(** [s || d] for a string that may be absent. *)
Definition textOr (s : option Decimal) (d : Decimal) : Decimal :=
  match s with
  | Some EmptyText => d
  | Some v => v
  | None => d
  end.

(** The two-decimal numeral of a number of hundredths: what a
    [decimal(p, 2)] column hands back. *)
Definition dec (hundredths : Z) : Decimal := Num hundredths 2.

(** The value of a numeral. *)
Definition numeralValue (unscaled : Z) (scale : nat) : Q :=
  (inject_Z unscaled / inject_Z (10 ^ Z.of_nat scale))%Q.

(** The amount a numeral stands for, in hundredths, when it has no digit
    other than 0 beyond the second decimal. *)
Definition hundredthsOf (s : Decimal) : option Z :=
  match s with
  | Num u k =>
      if (u * 100) mod 10 ^ Z.of_nat k =? 0
      then Some (u * 100 / 10 ^ Z.of_nat k)
      else None
  | _ => None
  end.

(** A JS [number]: an IEEE 754 double, held by its exact value. The sign of
    zero is left out: no operation below tells [-0] from [0]. *)
Module JsNumber.

Inductive t :=
| NaN
| Infinity (negative : bool)
| Finite (value : Q).

(** The exponent of a positive rational: [2^e <= x < 2^(e+1)]. *)
Definition floorLog2 (x : Q) : Z :=
  let c := Z.log2 (Qnum x) - Z.log2 (Zpos (Qden x)) in
  if Qle_bool (2 ^ c) x then c else c - 1.

(** The nearest integer, a tie going to the even one. *)
Definition roundHalfEven (x : Q) : Z :=
  let f := Qfloor x in
  match (x - inject_Z f ?= 1 # 2)%Q with
  | Lt => f
  | Gt => f + 1
  | Eq => if Z.even f then f else f + 1
  end.

(** The double nearest to a rational: 53 bits of mantissa, exponents from
    -1022 (below which the spacing stays that of the subnormals) to 1023
    (above which the result is an infinity). *)
Definition round (x : Q) : t :=
  let x := Qred x in
  if Qeq_bool x 0 then Finite 0
  else
    let e := Z.max (floorLog2 (Qabs x)) (-1022) in
    let ulp := (2 ^ (e - 52))%Q in
    let r := Qred (inject_Z (roundHalfEven (x / ulp)) * ulp) in
    if Qle_bool (2 ^ 1024) (Qabs r) then Infinity (negb (Qle_bool 0 x))
    else Finite r.

Definition opp (x : t) : t :=
  match x with
  | NaN => NaN
  | Infinity n => Infinity (negb n)
  | Finite a => Finite (Qred (- a))
  end.

(** [x + y]. *)
Definition add (x y : t) : t :=
  match x, y with
  | NaN, _ => NaN
  | _, NaN => NaN
  | Infinity a, Infinity b => if Bool.eqb a b then Infinity a else NaN
  | Infinity a, Finite _ => Infinity a
  | Finite _, Infinity b => Infinity b
  | Finite a, Finite b => round (a + b)
  end.

(** [x - y]. *)
Definition sub (x y : t) : t := add x (opp y).

(** [x < y]: false when either side is [NaN]. *)
Definition ltb (x y : t) : bool :=
  match x, y with
  | NaN, _ => false
  | _, NaN => false
  | Infinity a, Infinity b => a && negb b
  | Infinity a, Finite _ => a
  | Finite _, Infinity b => negb b
  | Finite a, Finite b => negb (Qle_bool b a)
  end.

(** [Math.max(0, x)]. *)
Definition max0 (x : t) : t :=
  match x with
  | NaN => NaN
  | Infinity n => if n then Finite 0 else Infinity false
  | Finite a => if Qle_bool 0 a then Finite a else Finite 0
  end.

End JsNumber.

(** [parseFloat(s)]: the double nearest to the numeral the string starts
    with, [NaN] when it starts with none. *)
Definition parseFloat (s : Decimal) : JsNumber.t :=
  match s with
  | Num u k => JsNumber.round (numeralValue u k)
  | NaNString => JsNumber.NaN
  | InfinityString n => JsNumber.Infinity n
  | EmptyText => JsNumber.NaN
  | NotNumeric (Some (u, k)) => JsNumber.round (numeralValue u k)
  | NotNumeric None => JsNumber.NaN
  end.

(** [x.toFixed(2)]: the integer [n] with [n / 100] nearest to [x], the
    larger one on a tie, written with two decimals. From 10^21 on the result
    is that of [x.toString()], an integer numeral in exponent form, of which
    the model keeps the value of [x]. ["-0.00"] is written [Num 0 2]. *)
Definition toFixed2 (x : JsNumber.t) : Decimal :=
  match x with
  | JsNumber.NaN => NaNString
  | JsNumber.Infinity n => InfinityString n
  | JsNumber.Finite q =>
      if Qle_bool (inject_Z (10 ^ 21)) (Qabs q) then Num (Qfloor q) 0
      else
        let n := Qfloor (Qabs q * 100 + (1 # 2)) in
        Num (if Qle_bool 0 q then n else - n) 2
  end.

(** Truthiness of a number given by the numeral [toString()] prints for
    it: [0] and [NaN] are falsy. *)
Definition numberTruthy (s : Decimal) : bool :=
  match s with
  | Num u _ => negb (u =? 0)
  | NaNString => false
  | InfinityString _ => true
  | EmptyText => false
  | NotNumeric _ => false
  end.

(** The last [k] digits of [n]. *)
Fixpoint lastDigits (k : nat) (n : Z) : string :=
  match k with
  | O => ""
  | S k' => (lastDigits k' (n / 10) ++ String (Js.digitChar (n mod 10)) "")%string
  end.

(** The characters of a decimal string, e.g. ["97.50"]. *)
Definition showDecimal (d : Decimal) : option string :=
  match d with
  | Num u k =>
      let a := Z.abs u in
      let p := 10 ^ Z.of_nat k in
      let sign := if u <? 0 then "-" else "" in
      Some (match k with
            | O => sign ++ Js.toString a
            | _ => sign ++ Js.toString (a / p) ++ "." ++ lastDigits k (a mod p)
            end)%string
  | NaNString => Some "NaN"
  | InfinityString n => Some (if n then "-Infinity" else "Infinity")
  | EmptyText => Some ""
  | NotNumeric _ => None
  end.

(** ** JavaScript [Map]: insertion-ordered, one entry per key *)

Module JsMap.
Section WithKey.
Context {K V : Type} (eqb : K -> K -> bool).

Definition t := list (K * V).

Fixpoint get (k : K) (m : t) : option V :=
  match m with
  | [] => None
  | (k', v) :: r => if eqb k' k then Some v else get k r
  end.

Definition has (k : K) (m : t) : bool :=
  match get k m with Some _ => true | None => false end.

(** [m.set(k, v)]: an existing key keeps its place. *)
Fixpoint set (k : K) (v : V) (m : t) : t :=
  match m with
  | [] => [(k, v)]
  | (k', v') :: r => if eqb k' k then (k, v) :: r else (k', v') :: set k v r
  end.

Fixpoint delete (k : K) (m : t) : t :=
  match m with
  | [] => []
  | (k', v') :: r => if eqb k' k then r else (k', v') :: delete k r
  end.

Definition entries (m : t) : list (K * V) := m.
Definition values (m : t) : list V := map snd m.
Definition keys (m : t) : list K := map fst m.

End WithKey.
End JsMap.

(** [o =<< f]: read a field through an optional object. *)
Definition optBind {A B} (o : option A) (f : A -> option B) : option B :=
  match o with Some a => f a | None => None end.
Notation "f =<< o" := (optBind o f) (at level 50, left associativity).

(** ** Results of the asynchronous methods *)

Inductive Error :=
| ForeignKeyViolation (table column : string)
| UniqueViolation (table column : string)
| NotAFunction (method : string)
| ErrorMessage (message : string).

Inductive Result (A : Type) :=
| Ok (a : A)
| Err (e : Error).
Arguments Ok {A} a.
Arguments Err {A} e.

Definition isOk {A} (r : Result A) : bool :=
  match r with Ok _ => true | Err _ => false end.

(** A method over a store [S]: the result and the store left behind. The
    store is returned on failure as well, since nothing wraps the
    statements of a method in a transaction. *)
Definition M (S A : Type) := S -> Result A * S.

Definition ret {S A} (a : A) : M S A := fun s => (Ok a, s).
Definition throw {S A} (e : Error) : M S A := fun s => (Err e, s).
Definition bind {S A B} (c : M S A) (k : A -> M S B) : M S B :=
  fun s =>
    match c s with
    | (Ok a, s') => k a s'
    | (Err e, s') => (Err e, s')
    end.
Definition gets {S A} (f : S -> A) : M S A := fun s => (Ok (f s), s).
Definition modify {S} (f : S -> S) : M S unit := fun s => (Ok tt, f s).

Notation "x <- c ;; k" := (bind c (fun x => k))
  (at level 61, c at next level, right associativity).
Notation "c ;;; k" := (bind c (fun _ => k))
  (at level 61, right associativity).

(** ** Entity schema ([shared/schema.ts])

    One record per table, with the fields of drizzle's [$inferSelect] type:
    a nullable column is an [option]. A [jsonb] column is kept as its text. *)

Module User.
Record t := mk {
  id : Z;
  username : string;
  email : string;
  plan : string;
  dailyUsage : Z;
  lastUsageReset : Date;
  brandAnalysisUsage : Z;
  nameImprovementUsage : Z;
  stripeCustomerId : option string;
  stripeSubscriptionId : option string;
  createdAt : Date
}.
Definition set_dailyUsage (v : Z) (u : t) : t :=
  mk (id u) (username u) (email u) (plan u) v (lastUsageReset u)
     (brandAnalysisUsage u) (nameImprovementUsage u) (stripeCustomerId u)
     (stripeSubscriptionId u) (createdAt u).
Definition set_lastUsageReset (v : Date) (u : t) : t :=
  mk (id u) (username u) (email u) (plan u) (dailyUsage u) v
     (brandAnalysisUsage u) (nameImprovementUsage u) (stripeCustomerId u)
     (stripeSubscriptionId u) (createdAt u).
End User.

Module Purchase.
Record t := mk {
  id : Z;
  userId : option Z;
  productId : Z;
  purchasePrice : Z;
  paymentMethod : string;
  paymentId : option string;
  downloadCount : Z;
  lastDownloadAt : option Date;
  createdAt : Date
}.
Definition set_downloadCount (v : Z) (p : t) : t :=
  mk (id p) (userId p) (productId p) (purchasePrice p) (paymentMethod p)
     (paymentId p) v (lastDownloadAt p) (createdAt p).
Definition set_lastDownloadAt (v : option Date) (p : t) : t :=
  mk (id p) (userId p) (productId p) (purchasePrice p) (paymentMethod p)
     (paymentId p) (downloadCount p) v (createdAt p).
End Purchase.

Module ReferralCode.
Record t := mk {
  id : Z;
  userId : Z;
  code : string;
  isActive : option bool;
  createdAt : option Date
}.
End ReferralCode.

Module Referral.
Record t := mk {
  id : Z;
  referrerId : Z;
  refereeId : Z;
  referralCode : string;
  status : option string;
  conversionDate : option Date;
  commissionAmount : option Decimal;
  currency : option string;
  createdAt : option Date
}.
Definition set_status (v : option string) (r : t) : t :=
  mk (id r) (referrerId r) (refereeId r) (referralCode r) v
     (conversionDate r) (commissionAmount r) (currency r) (createdAt r).
Definition set_conversionDate (v : option Date) (r : t) : t :=
  mk (id r) (referrerId r) (refereeId r) (referralCode r) (status r)
     v (commissionAmount r) (currency r) (createdAt r).
Definition set_commissionAmount (v : option Decimal) (r : t) : t :=
  mk (id r) (referrerId r) (refereeId r) (referralCode r) (status r)
     (conversionDate r) v (currency r) (createdAt r).
End Referral.

Module Wallet.
Record t := mk {
  id : Z;
  userId : Z;
  walletAddress : string;
  walletType : string;
  balance : option Decimal;
  currency : option string;
  isActive : option bool;
  lastTransactionAt : option Date;
  createdAt : option Date;
  updatedAt : option Date
}.
(** The [set({balance, lastTransactionAt, updatedAt})] of both balance writers. *)
Definition touch (b : Decimal) (now : Date) (w : t) : t :=
  mk (id w) (userId w) (walletAddress w) (walletType w) (Some b)
     (currency w) (isActive w) (Some now) (createdAt w) (Some now).
End Wallet.

Module WalletTx.
Record t := mk {
  id : Z;
  walletId : Z;
  transactionType : string;
  amount : Decimal;
  currency : option string;
  description : option string;
  referenceId : option string;
  sourceType : option string;
  sourceId : option Z;
  status : option string;
  balanceAfter : Decimal;
  metadata : option string;
  createdAt : option Date
}.
(** [Omit<InsertWalletTransaction, 'walletId' | 'balanceAfter'>]: an
    absent optional field is [None] and takes the column default. *)
Record insert := mkInsert {
  i_transactionType : string;
  i_amount : Decimal;
  i_currency : option string;
  i_description : option string;
  i_referenceId : option string;
  i_sourceType : option string;
  i_sourceId : option Z;
  i_status : option string;
  i_metadata : option string
}.
End WalletTx.

Module Withdrawal.
Record t := mk {
  id : Z;
  walletId : Z;
  amount : Decimal;
  currency : option string;
  withdrawalMethod : string;
  withdrawalDetails : option string;
  status : option string;
  processedAt : option Date;
  transactionFee : option Decimal;
  netAmount : Decimal;
  externalTransactionId : option string;
  notes : option string;
  createdAt : option Date;
  updatedAt : option Date
}.
(** [Omit<InsertWalletWithdrawal, 'walletId' | 'netAmount'>]. The route
    hands over the [withdrawalMethod] of the request body, which may be
    absent. *)
Record insert := mkInsert {
  i_amount : Decimal;
  i_currency : option string;
  i_withdrawalMethod : option string;
  i_withdrawalDetails : option string;
  i_status : option string;
  i_transactionFee : option Decimal;
  i_externalTransactionId : option string;
  i_notes : option string
}.
End Withdrawal.

(** [a ?? d]: the value of an optional insert field, or the column default. *)
Definition orDefault {A} (a : option A) (d : A) : option A :=
  match a with Some v => Some v | None => Some d end.

Definition sameDay (a b : Date) : bool :=
  (getDate a =? getDate b) && (getMonth a =? getMonth b)
  && (getFullYear a =? getFullYear b).

(** ** The relational store *)

Module Sql.

(** A table: its rows in insertion order and the next [serial] value. *)
Record Table (R : Type) := mkTable { rows : list R; nextId : Z }.
Arguments mkTable {R} rows nextId.
Arguments rows {R} t.
Arguments nextId {R} t.

Definition empty {R} : Table R := mkTable [] 1.

(** [select().from(t).where(c)]. *)
Definition selectWhere {R} (c : R -> bool) (t : Table R) : list R :=
  filter c (rows t).

(** [const [x] = ...]: the first row of a result, if any. A query without
    [orderBy] returns its rows in the order of the table here; the database
    promises no order, so where several rows match, which one comes first is
    a choice of the model. *)
Definition first {R} (l : list R) : option R := hd_error l.

(** [update(t).set(f).where(c)]. *)
Definition updateWhere {R} (c : R -> bool) (f : R -> R) (t : Table R) : Table R :=
  mkTable (map (fun r => if c r then f r else r) (rows t)) (nextId t).

(** [insert(t).values(..)]: the row is built from the next serial value. *)
Definition insertRow {R} (mkRow : Z -> R) (t : Table R) : R * Table R :=
  let r := mkRow (nextId t) in
  (r, mkTable (rows t ++ [r]) (nextId t + 1)).

(** A rejected insert that had drawn its [serial] value: the value is
    spent. *)
Definition skipId {R} (t : Table R) : Table R := mkTable (rows t) (nextId t + 1).

(** Sort key of [orderBy(desc(createdAt))]: a null comes first. *)
Definition newerThan (a b : option Date) : bool :=
  match a, b with
  | None, None => false
  | None, Some _ => true
  | Some _, None => false
  | Some x, Some y => getTime y <? getTime x
  end.

(** The first row of [orderBy(desc(key))]: the earliest-inserted row among
    those with the greatest key. *)
Fixpoint latestBy {R} (key : R -> option Date) (l : list R) : option R :=
  match l with
  | [] => None
  | r :: rest =>
      match latestBy key rest with
      | Some r' => if newerThan (key r') (key r) then Some r' else Some r
      | None => Some r
      end
  end.

End Sql.

(** ** Column types

    What a column makes of the value a statement gives it. These checks are
    made on the values of the statement before it runs: a refused value
    leaves the table and its [serial] as they were, whereas an insert
    refused by a constraint (foreign key, unique, not null) has drawn its
    [serial] value. Strings are ASCII. *)

Module Column.

Definition lift {S A} (r : Result A) : M S A := fun s => (r, s).

(** The nearest integer, a tie going away from zero. *)
Definition roundHalfAway (x : Q) : Z :=
  if Qle_bool 0 x then Qfloor (x + (1 # 2)) else - Qfloor (- x + (1 # 2)).

(** [decimal(precision, 2)]: the numeral rounded to two decimals;
    ["NaN"] is a value of the type. *)
Definition numeric (precision : Z) (s : Decimal) : Result Decimal :=
  match s with
  | Num u k =>
      let n := roundHalfAway (numeralValue u k * 100) in
      if 10 ^ precision <=? Z.abs n
      then Err (ErrorMessage "numeric field overflow")
      else Ok (dec n)
  | NaNString => Ok NaNString
  | InfinityString _ => Err (ErrorMessage "numeric field overflow")
  | EmptyText => Err (ErrorMessage "invalid input syntax for type numeric")
  | NotNumeric _ => Err (ErrorMessage "invalid input syntax for type numeric")
  end.

Definition optNumeric (precision : Z) (s : option Decimal) : Result (option Decimal) :=
  match s with
  | Some v =>
      match numeric precision v with
      | Ok d => Ok (Some d)
      | Err e => Err e
      end
  | None => Ok None
  end.

Fixpoint onlySpaces (s : string) : bool :=
  match s with
  | EmptyString => true
  | String c r => Ascii.eqb c " " && onlySpaces r
  end.

(** [varchar(n)]: a longer string is refused, unless what exceeds is
    spaces, which are cut. *)
Definition varchar (n : nat) (s : string) : Result string :=
  if (String.length s <=? n)%nat then Ok s
  else if onlySpaces (substring n (String.length s - n) s)
  then Ok (substring 0 n s)
  else Err (ErrorMessage "value too long for type character varying").

Definition optVarchar (n : nat) (s : option string) : Result (option string) :=
  match s with
  | Some v =>
      match varchar n v with
      | Ok d => Ok (Some d)
      | Err e => Err e
      end
  | None => Ok None
  end.

(** A string that fits a [varchar(n)] column as it is. *)
Definition fits (n : nat) (s : string) : bool := (String.length s <=? n)%nat.

Definition optFits (n : nat) (s : option string) : bool :=
  match s with Some v => fits n v | None => true end.

End Column.

Record Db := mkDb {
  users : Sql.Table User.t;
  digitalProductPurchases : Sql.Table Purchase.t;
  referralCodes : Sql.Table ReferralCode.t;
  referrals : Sql.Table Referral.t;
  digitalWallets : Sql.Table Wallet.t;
  walletTransactions : Sql.Table WalletTx.t;
  walletWithdrawals : Sql.Table Withdrawal.t
}.

Definition emptyDb : Db :=
  mkDb Sql.empty Sql.empty Sql.empty Sql.empty Sql.empty Sql.empty Sql.empty.

Definition with_users f (d : Db) : Db :=
  mkDb (f (users d)) (digitalProductPurchases d) (referralCodes d) (referrals d)
       (digitalWallets d) (walletTransactions d) (walletWithdrawals d).
Definition with_purchases f (d : Db) : Db :=
  mkDb (users d) (f (digitalProductPurchases d)) (referralCodes d) (referrals d)
       (digitalWallets d) (walletTransactions d) (walletWithdrawals d).
Definition with_referralCodes f (d : Db) : Db :=
  mkDb (users d) (digitalProductPurchases d) (f (referralCodes d)) (referrals d)
       (digitalWallets d) (walletTransactions d) (walletWithdrawals d).
Definition with_referrals f (d : Db) : Db :=
  mkDb (users d) (digitalProductPurchases d) (referralCodes d) (f (referrals d))
       (digitalWallets d) (walletTransactions d) (walletWithdrawals d).
Definition with_wallets f (d : Db) : Db :=
  mkDb (users d) (digitalProductPurchases d) (referralCodes d) (referrals d)
       (f (digitalWallets d)) (walletTransactions d) (walletWithdrawals d).
Definition with_walletTransactions f (d : Db) : Db :=
  mkDb (users d) (digitalProductPurchases d) (referralCodes d) (referrals d)
       (digitalWallets d) (f (walletTransactions d)) (walletWithdrawals d).
Definition with_walletWithdrawals f (d : Db) : Db :=
  mkDb (users d) (digitalProductPurchases d) (referralCodes d) (referrals d)
       (digitalWallets d) (walletTransactions d) (f (walletWithdrawals d)).

(** The [transactionType: 'credit' | 'debit'] parameter of [updateWalletBalance]. *)
Inductive TransactionType := credit | debit.

(** ** [DatabaseStorage] *)

Module DatabaseStorage.
Import Sql.

(** *** Inserts, with the constraints the schema declares *)

Definition userExists (userId : Z) (db : Db) : bool :=
  existsb (fun u => User.id u =? userId) (rows (users db)).

Definition walletExists (walletId : Z) (db : Db) : bool :=
  existsb (fun w => Wallet.id w =? walletId) (rows (digitalWallets db)).

Definition insertReferralCode (userId : Z) (code : string) (isActive : bool)
    (now : Date) : M Db ReferralCode.t :=
  code <- Column.lift (Column.varchar 50 code) ;;
  fun db =>
    if existsb (fun c => String.eqb (ReferralCode.code c) code)
               (rows (referralCodes db))
    then (Err (UniqueViolation "referral_codes" "code"),
          with_referralCodes skipId db)
    else if negb (userExists userId db)
    then (Err (ForeignKeyViolation "referral_codes" "user_id"),
          with_referralCodes skipId db)
    else
      let '(r, t) := insertRow
        (fun id => ReferralCode.mk id userId code (Some isActive) (Some now))
        (referralCodes db) in
      (Ok r, with_referralCodes (fun _ => t) db).

Definition insertWallet (userId : Z) (walletAddress walletType : string)
    (balance : Decimal) (currency : string) (isActive : bool) (now : Date)
    : M Db Wallet.t :=
  walletAddress <- Column.lift (Column.varchar 100 walletAddress) ;;
  walletType <- Column.lift (Column.varchar 50 walletType) ;;
  balance <- Column.lift (Column.numeric 15 balance) ;;
  currency <- Column.lift (Column.varchar 3 currency) ;;
  fun db =>
    if existsb (fun w => String.eqb (Wallet.walletAddress w) walletAddress)
               (rows (digitalWallets db))
    then (Err (UniqueViolation "digital_wallets" "wallet_address"),
          with_wallets skipId db)
    else if negb (userExists userId db)
    then (Err (ForeignKeyViolation "digital_wallets" "user_id"),
          with_wallets skipId db)
    else
      let '(r, t) := insertRow
        (fun id => Wallet.mk id userId walletAddress walletType (Some balance)
                     (Some currency) (Some isActive) None (Some now) (Some now))
        (digitalWallets db) in
      (Ok r, with_wallets (fun _ => t) db).

Definition insertWalletTransaction (walletId : Z) (tx : WalletTx.insert)
    (balanceAfter : Decimal) (now : Date) : M Db WalletTx.t :=
  transactionType <- Column.lift (Column.varchar 20 (WalletTx.i_transactionType tx)) ;;
  amount <- Column.lift (Column.numeric 15 (WalletTx.i_amount tx)) ;;
  currency <- Column.lift (Column.optVarchar 3 (WalletTx.i_currency tx)) ;;
  referenceId <- Column.lift (Column.optVarchar 100 (WalletTx.i_referenceId tx)) ;;
  sourceType <- Column.lift (Column.optVarchar 50 (WalletTx.i_sourceType tx)) ;;
  status <- Column.lift (Column.optVarchar 20 (WalletTx.i_status tx)) ;;
  balanceAfter <- Column.lift (Column.numeric 15 balanceAfter) ;;
  fun db =>
    if negb (walletExists walletId db)
    then (Err (ForeignKeyViolation "wallet_transactions" "wallet_id"),
          with_walletTransactions skipId db)
    else
      let '(r, t) := insertRow
        (fun id => WalletTx.mk id walletId transactionType amount
                     (orDefault currency "USD")
                     (WalletTx.i_description tx) referenceId
                     sourceType (WalletTx.i_sourceId tx)
                     (orDefault status "completed")
                     balanceAfter (WalletTx.i_metadata tx) (Some now))
        (walletTransactions db) in
      (Ok r, with_walletTransactions (fun _ => t) db).

Definition insertWithdrawal (walletId : Z) (w : Withdrawal.insert)
    (netAmount : Decimal) (now : Date) : M Db Withdrawal.t :=
  amount <- Column.lift (Column.numeric 15 (Withdrawal.i_amount w)) ;;
  currency <- Column.lift (Column.optVarchar 3 (Withdrawal.i_currency w)) ;;
  withdrawalMethod <-
    Column.lift (Column.optVarchar 50 (Withdrawal.i_withdrawalMethod w)) ;;
  status <- Column.lift (Column.optVarchar 20 (Withdrawal.i_status w)) ;;
  transactionFee <-
    Column.lift (Column.optNumeric 10 (Withdrawal.i_transactionFee w)) ;;
  netAmount <- Column.lift (Column.numeric 15 netAmount) ;;
  externalTransactionId <-
    Column.lift (Column.optVarchar 100 (Withdrawal.i_externalTransactionId w)) ;;
  fun db =>
    match withdrawalMethod with
    | None =>
        (Err (ErrorMessage "null value in column withdrawal_method"),
         with_walletWithdrawals skipId db)
    | Some withdrawalMethod =>
        if negb (walletExists walletId db)
        then (Err (ForeignKeyViolation "wallet_withdrawals" "wallet_id"),
              with_walletWithdrawals skipId db)
        else
          let '(r, t) := insertRow
            (fun id => Withdrawal.mk id walletId amount
                         (orDefault currency "USD")
                         withdrawalMethod
                         (Withdrawal.i_withdrawalDetails w)
                         (orDefault status "pending") None
                         (orDefault transactionFee (dec 0))
                         netAmount externalTransactionId
                         (Withdrawal.i_notes w) (Some now) (Some now))
            (walletWithdrawals db) in
          (Ok r, with_walletWithdrawals (fun _ => t) db)
    end.

(** *** Users *)

Definition getUser (id : Z) (db : Db) : option User.t :=
  first (selectWhere (fun u => User.id u =? id) (users db)).

Definition updateUserUsage (userId usage : Z) : M Db unit :=
  modify (with_users
    (updateWhere (fun u => User.id u =? userId) (User.set_dailyUsage usage))).

Definition resetDailyUsage (userId : Z) (now : Date) : M Db unit :=
  modify (with_users
    (updateWhere (fun u => User.id u =? userId)
       (fun u => User.set_lastUsageReset now (User.set_dailyUsage 0 u)))).

(** *** Purchases *)

Definition getPurchase (userId productId : Z) (db : Db) : option Purchase.t :=
  first (selectWhere
    (fun p => match Purchase.userId p with
              | Some u => (u =? userId) && (Purchase.productId p =? productId)
              | None => false
              end)
    (digitalProductPurchases db)).

Definition incrementDownloadCount (purchaseId : Z) : M Db unit :=
  modify (with_purchases
    (updateWhere (fun p => Purchase.id p =? purchaseId)
       (fun p => Purchase.set_downloadCount (Purchase.downloadCount p + 1) p))).

(** *** Referrals *)

Definition createReferralCode (userId : Z) (now : Date) : M Db ReferralCode.t :=
  existing <- gets (fun db =>
    first (selectWhere (fun c => ReferralCode.userId c =? userId)
                       (referralCodes db))) ;;
  match existing with
  | Some c => ret c
  | None =>
      let code := ("REF" ++ Js.toString userId
                   ++ Js.toUpperCase (Js.toStringRadix 36 (getTime now)))%string in
      insertReferralCode userId code true now
  end.

Definition getReferralCode (userId : Z) (db : Db) : option ReferralCode.t :=
  first (selectWhere (fun c => ReferralCode.userId c =? userId)
                     (referralCodes db)).

(** The [updates] object built by [updateReferralStatus], as the change it
    makes to a row. *)
Definition referralUpdates (status : string) (conversionDate : option Date)
    (commissionAmount : option Decimal) (r : Referral.t) : Referral.t :=
  let r1 := Referral.set_status (Some status) r in
  let r2 := match conversionDate with
            | Some d => Referral.set_conversionDate (Some d) r1
            | None => r1
            end in
  match commissionAmount with
  | Some c => Referral.set_commissionAmount (Some c) r2
  | None => r2
  end.

(** [commissionAmount] is the number given, as the numeral its
    [toString()] prints. *)
Definition updateReferralStatus (referralId : Z) (status : string)
    (conversionDate : option Date) (commissionAmount : option Decimal) : M Db unit :=
  let updates_commissionAmount :=
    match commissionAmount with
    | Some c => if numberTruthy c then Some c else None
    | None => None
    end in
  status <- Column.lift (Column.varchar 20 status) ;;
  commissionAmount <- Column.lift (Column.optNumeric 10 updates_commissionAmount) ;;
  modify (with_referrals
    (updateWhere (fun r => Referral.id r =? referralId)
       (referralUpdates status conversionDate commissionAmount))).

(** *** Wallets *)

Definition createWallet (userId : Z) (walletType : string) (now : Date)
    : M Db Wallet.t :=
  let walletAddress :=
    ("FMBN" ++ Js.toString userId ++ Js.toUpperCase walletType
     ++ Js.toUpperCase (Js.toStringRadix 36 (getTime now)))%string in
  insertWallet userId walletAddress walletType (dec 0) "USD" true now.

Definition getUserWallet (userId : Z) (walletType : option string) (db : Db)
    : option Wallet.t :=
  let conditions w :=
    (Wallet.userId w =? userId)
    && match walletType with
       | Some ty => if Js.truthy ty then String.eqb (Wallet.walletType w) ty else true
       | None => true
       end in
  latestBy Wallet.createdAt (selectWhere conditions (digitalWallets db)).

Definition getWalletBalance (walletId : Z) (db : Db) : Decimal :=
  match first (selectWhere (fun w => Wallet.id w =? walletId) (digitalWallets db)) with
  | Some w => textOr (Wallet.balance w) (dec 0)
  | None => dec 0
  end.

(** [update(digitalWallets).set({balance, lastTransactionAt, updatedAt})]. *)
Definition setWalletBalance (walletId : Z) (balance : Decimal) (now : Date)
    : M Db unit :=
  balance <- Column.lift (Column.numeric 15 balance) ;;
  modify (with_wallets
    (updateWhere (fun w => Wallet.id w =? walletId) (Wallet.touch balance now))).

Definition addWalletTransaction (walletId : Z) (transaction : WalletTx.insert)
    (now : Date) : M Db WalletTx.t :=
  currentBalance <- gets (getWalletBalance walletId) ;;
  let currentBalanceNum := parseFloat currentBalance in
  let transactionAmount := parseFloat (WalletTx.i_amount transaction) in
  let newBalance :=
    if String.eqb (WalletTx.i_transactionType transaction) "credit"
    then JsNumber.add currentBalanceNum transactionAmount
    else JsNumber.sub currentBalanceNum transactionAmount in
  walletTransaction <-
    insertWalletTransaction walletId transaction (toFixed2 newBalance) now ;;
  setWalletBalance walletId (toFixed2 newBalance) now ;;;
  ret walletTransaction.

Definition createWithdrawal (walletId : Z) (withdrawal : Withdrawal.insert)
    (now : Date) : M Db Withdrawal.t :=
  let transactionFee :=
    parseFloat (textOr (Withdrawal.i_transactionFee withdrawal) (Num 0 0)) in
  let amount := parseFloat (Withdrawal.i_amount withdrawal) in
  let netAmount := toFixed2 (JsNumber.sub amount transactionFee) in
  walletWithdrawal <- insertWithdrawal walletId withdrawal netAmount now ;;
  addWalletTransaction walletId
    (WalletTx.mkInsert "debit" (Withdrawal.i_amount withdrawal)
       (Some (Js.orElse (Withdrawal.i_currency withdrawal) "USD"))
       (Some ("Withdrawal via "
              ++ match Withdrawal.i_withdrawalMethod withdrawal with
                 | Some m => m
                 | None => "undefined"
                 end)%string)
       None (Some "withdrawal") (Some (Withdrawal.id walletWithdrawal))
       (Some "pending") None)
    now ;;;
  ret walletWithdrawal.

Definition updateWalletBalance (walletId : Z) (amount : Decimal)
    (transactionType : TransactionType) (now : Date) : M Db (option Wallet.t) :=
  currentBalance <- gets (getWalletBalance walletId) ;;
  let currentBalanceNum := parseFloat currentBalance in
  let amountNum := parseFloat amount in
  let newBalance :=
    match transactionType with
    | credit => JsNumber.add currentBalanceNum amountNum
    | debit => JsNumber.max0 (JsNumber.sub currentBalanceNum amountNum)
    end in
  setWalletBalance walletId (toFixed2 newBalance) now ;;;
  gets (fun db =>
    first (selectWhere (fun w => Wallet.id w =? walletId) (digitalWallets db))).

End DatabaseStorage.

(** ** [MemStorage] *)

Module MemStorage.

(** The maps and counters of the class that the methods below use. *)
Record t := mk {
  users : JsMap.t (K := Z) (V := User.t);
  digitalProductPurchases : JsMap.t (K := Z) (V := Purchase.t);
  referralCodes : JsMap.t (K := Z) (V := ReferralCode.t);
  referrals : JsMap.t (K := Z) (V := Referral.t);
  currentPurchaseId : Z;
  currentReferralCodeId : Z;
  currentReferralId : Z
}.

Definition with_users f (m : t) : t :=
  mk (f (users m)) (digitalProductPurchases m) (referralCodes m) (referrals m)
     (currentPurchaseId m) (currentReferralCodeId m) (currentReferralId m).
Definition with_purchases f (m : t) : t :=
  mk (users m) (f (digitalProductPurchases m)) (referralCodes m) (referrals m)
     (currentPurchaseId m) (currentReferralCodeId m) (currentReferralId m).
Definition with_referralCodes f (m : t) : t :=
  mk (users m) (digitalProductPurchases m) (f (referralCodes m)) (referrals m)
     (currentPurchaseId m) (currentReferralCodeId m) (currentReferralId m).
Definition with_referrals f (m : t) : t :=
  mk (users m) (digitalProductPurchases m) (referralCodes m) (f (referrals m))
     (currentPurchaseId m) (currentReferralCodeId m) (currentReferralId m).
Definition with_currentReferralCodeId (v : Z) (m : t) : t :=
  mk (users m) (digitalProductPurchases m) (referralCodes m) (referrals m)
     (currentPurchaseId m) v (currentReferralId m).

(** *** Users *)

Definition getUser (id : Z) (m : t) : option User.t :=
  JsMap.get Z.eqb id (users m).

Definition updateUserUsage (userId usage : Z) (now : Date) : M t unit :=
  fun m =>
    match JsMap.get Z.eqb userId (users m) with
    | Some user =>
        let lastReset := User.lastUsageReset user in
        (* Reset daily usage if it's a new day *)
        let user1 :=
          if negb (getDate now =? getDate lastReset)
             || negb (getMonth now =? getMonth lastReset)
             || negb (getFullYear now =? getFullYear lastReset)
          then User.set_lastUsageReset now (User.set_dailyUsage 0 user)
          else user in
        let user2 := User.set_dailyUsage usage user1 in
        (Ok tt, with_users (JsMap.set Z.eqb userId user2) m)
    | None => (Ok tt, m)
    end.

Definition resetDailyUsage (userId : Z) (now : Date) : M t unit :=
  fun m =>
    match JsMap.get Z.eqb userId (users m) with
    | Some user =>
        let user' := User.set_lastUsageReset now (User.set_dailyUsage 0 user) in
        (Ok tt, with_users (JsMap.set Z.eqb userId user') m)
    | None => (Ok tt, m)
    end.

(** *** Purchases *)

Definition getPurchase (userId productId : Z) (m : t) : option Purchase.t :=
  find (fun p => match Purchase.userId p with
                 | Some u => (u =? userId) && (Purchase.productId p =? productId)
                 | None => false
                 end)
       (JsMap.values (digitalProductPurchases m)).

Definition incrementDownloadCount (purchaseId : Z) (now : Date) : M t unit :=
  fun m =>
    match JsMap.get Z.eqb purchaseId (digitalProductPurchases m) with
    | Some purchase =>
        let purchase' :=
          Purchase.set_lastDownloadAt (Some now)
            (Purchase.set_downloadCount (Purchase.downloadCount purchase + 1)
               purchase) in
        (Ok tt, with_purchases (JsMap.set Z.eqb purchaseId purchase') m)
    | None => (Ok tt, m)
    end.

(** *** Referrals *)

Definition createReferralCode (userId : Z) (now : Date) : M t ReferralCode.t :=
  fun m =>
    let code := ("REF" ++ Js.toString userId
                 ++ Js.toUpperCase (Js.toStringRadix 36 (getTime now)))%string in
    let referralCode :=
      ReferralCode.mk (currentReferralCodeId m) userId code (Some true) (Some now) in
    let m1 := with_currentReferralCodeId (currentReferralCodeId m + 1) m in
    (Ok referralCode,
     with_referralCodes
       (JsMap.set Z.eqb (ReferralCode.id referralCode) referralCode) m1).

Definition getReferralCode (userId : Z) (m : t) : option ReferralCode.t :=
  find (fun rc => (ReferralCode.userId rc =? userId)
                  && match ReferralCode.isActive rc with
                     | Some b => b
                     | None => false
                     end)
       (JsMap.values (referralCodes m)).

Definition updateReferralStatus (referralId : Z) (status : string)
    (conversionDate : option Date) (commissionAmount : option Decimal) : M t unit :=
  fun m =>
    match JsMap.get Z.eqb referralId (referrals m) with
    | Some referral =>
        let r1 := Referral.set_status (Some status) referral in
        let r2 := match conversionDate with
                  | Some d => Referral.set_conversionDate (Some d) r1
                  | None => r1
                  end in
        let r3 := match commissionAmount with
                  | Some c =>
                      if numberTruthy c
                      then Referral.set_commissionAmount (Some c) r2
                      else r2
                  | None => r2
                  end in
        (Ok tt, with_referrals (JsMap.set Z.eqb referralId r3) m)
    | None => (Ok tt, m)
    end.

End MemStorage.

(** ** The storage interface

    The part of [IStorage] the two classes are compared on. A method a
    class does not define is a call of [undefined]: it throws. *)

Class IStorage (S : Type) := {
  getUser : Z -> M S (option User.t);
  updateUserUsage : Z -> Z -> Date -> M S unit;
  resetDailyUsage : Z -> Date -> M S unit;
  getPurchase : Z -> Z -> M S (option Purchase.t);
  incrementDownloadCount : Z -> Date -> M S unit;
  createReferralCode : Z -> Date -> M S ReferralCode.t;
  getReferralCode : Z -> M S (option ReferralCode.t);
  updateReferralStatus : Z -> string -> option Date -> option Decimal -> M S unit;
  createWallet : Z -> string -> Date -> M S Wallet.t;
  getUserWallet : Z -> option string -> M S (option Wallet.t);
  getWalletBalance : Z -> M S Decimal;
  addWalletTransaction : Z -> WalletTx.insert -> Date -> M S WalletTx.t;
  createWithdrawal : Z -> Withdrawal.insert -> Date -> M S Withdrawal.t;
  updateWalletBalance : Z -> Decimal -> TransactionType -> Date -> M S (option Wallet.t)
}.

#[export] Instance DatabaseStorage_IStorage : IStorage Db := {
  getUser id := gets (DatabaseStorage.getUser id);
  updateUserUsage userId usage _ := DatabaseStorage.updateUserUsage userId usage;
  resetDailyUsage := DatabaseStorage.resetDailyUsage;
  getPurchase userId productId := gets (DatabaseStorage.getPurchase userId productId);
  incrementDownloadCount purchaseId _ :=
    DatabaseStorage.incrementDownloadCount purchaseId;
  createReferralCode := DatabaseStorage.createReferralCode;
  getReferralCode userId := gets (DatabaseStorage.getReferralCode userId);
  updateReferralStatus := DatabaseStorage.updateReferralStatus;
  createWallet := DatabaseStorage.createWallet;
  getUserWallet userId walletType :=
    gets (DatabaseStorage.getUserWallet userId walletType);
  getWalletBalance walletId := gets (DatabaseStorage.getWalletBalance walletId);
  addWalletTransaction := DatabaseStorage.addWalletTransaction;
  createWithdrawal := DatabaseStorage.createWithdrawal;
  updateWalletBalance := DatabaseStorage.updateWalletBalance
}.

#[export] Instance MemStorage_IStorage : IStorage MemStorage.t := {
  getUser id := gets (MemStorage.getUser id);
  updateUserUsage := MemStorage.updateUserUsage;
  resetDailyUsage := MemStorage.resetDailyUsage;
  getPurchase userId productId := gets (MemStorage.getPurchase userId productId);
  incrementDownloadCount := MemStorage.incrementDownloadCount;
  createReferralCode := MemStorage.createReferralCode;
  getReferralCode userId := gets (MemStorage.getReferralCode userId);
  updateReferralStatus := MemStorage.updateReferralStatus;
  createWallet _ _ _ := throw (NotAFunction "createWallet");
  getUserWallet _ _ := throw (NotAFunction "getUserWallet");
  getWalletBalance _ := throw (NotAFunction "getWalletBalance");
  addWalletTransaction _ _ _ := throw (NotAFunction "addWalletTransaction");
  createWithdrawal _ _ _ := throw (NotAFunction "createWithdrawal");
  updateWalletBalance _ _ _ _ := throw (NotAFunction "updateWalletBalance")
}.

(** ** Community chat ([wss.on('connection', ...)] of [routes.ts])

    Sockets are numbered. For each one the server holds the [userId]
    variable of its connection closure; its [readyState] is the library's.
    An event of the loop is a new connection, a frame, a close, a transport
    error or a timer that fires. [Date.now()] and the draw of
    [Math.random()] come with the event. A step returns the new state and
    what it did to the sockets, in order. *)

Module Chat.

Inductive ReadyState := CONNECTING | OPEN | CLOSING | CLOSED.

Definition isOpen (r : ReadyState) : bool :=
  match r with OPEN => true | _ => false end.

Record ConnectedUser := mkUser {
  id : string;
  username : string;
  userType : string;
  location : option string;
  ws : Z
}.

(** The [{id, username, userType, location}] projection sent to clients. *)
Record UserInfo := mkInfo {
  info_id : string;
  info_username : string;
  info_userType : string;
  info_location : option string
}.

Definition infoOf (u : ConnectedUser) : UserInfo :=
  mkInfo (id u) (username u) (userType u) (location u).

(** Frames the server sends. [timestamp] is the instant whose ISO string
    is sent. *)
Inductive ServerMessage :=
| community_message (id username message : string) (timestamp : Z) (userType : string)
| user_joined (user : UserInfo)
| users_update (users : list UserInfo)
| user_left (userId username : string).

(** A received frame after [JSON.parse]. [Unparsable] is a frame on which
    the handler throws before the [switch]; [OtherType] is any other
    [type]. Usernames are strings; an absent one is [None]. *)
Inductive Frame :=
| Unparsable
| join_community (username userType location : option string)
| community_message_in (message : string)
| OtherType.

Inductive Timer :=
| SecondWelcome (ws : Z)
| ForgetWelcome (username : string).

Record Connection := mkConn {
  userId : option string;
  readyState : ReadyState
}.

Record State := mkState {
  connectedUsers : JsMap.t (K := string) (V := ConnectedUser);
  welcomeMessagesSent : list string;
  connections : JsMap.t (K := Z) (V := Connection);
  timers : list Timer
}.

Definition init : State := mkState [] [] [] [].

Inductive Effect :=
| Send (ws : Z) (m : ServerMessage)
| CloseSocket (ws : Z).

Inductive Event :=
| Connect (ws : Z)
| Message (ws : Z) (frame : Frame) (now random : Z)
| Close (ws : Z)
| Error (ws : Z)
| Timeout (n : nat) (now : Z).

Definition readyStateOf (conns : JsMap.t (K := Z) (V := Connection)) (s : Z)
    : ReadyState :=
  match JsMap.get Z.eqb s conns with
  | Some c => readyState c
  | None => CLOSED
  end.

(** [ws.send(m)]: delivered when the socket is open. *)
Definition send conns (s : Z) (m : ServerMessage) : list Effect :=
  if isOpen (readyStateOf conns s) then [Send s m] else [].

(** [ws.close()]: an open socket starts closing. *)
Definition closeSocket (s : Z) conns : JsMap.t (K := Z) (V := Connection) :=
  match JsMap.get Z.eqb s conns with
  | Some c =>
      if isOpen (readyState c)
      then JsMap.set Z.eqb s (mkConn (userId c) CLOSING) conns
      else conns
  | None => conns
  end.

Definition setUserId (s : Z) (u : option string) conns
    : JsMap.t (K := Z) (V := Connection) :=
  match JsMap.get Z.eqb s conns with
  | Some c => JsMap.set Z.eqb s (mkConn u (readyState c)) conns
  | None => conns
  end.

Definition setReadyState (s : Z) (r : ReadyState) conns
    : JsMap.t (K := Z) (V := Connection) :=
  match JsMap.get Z.eqb s conns with
  | Some c => JsMap.set Z.eqb s (mkConn (userId c) r) conns
  | None => conns
  end.

(** [broadcast(message, excludeUserId)]. *)
Definition broadcast conns (users : JsMap.t (K := string) (V := ConnectedUser))
    (m : ServerMessage) (excludeUserId : option string) : list Effect :=
  flat_map
    (fun e : string * ConnectedUser =>
       let '(k, user) := e in
       let excluded := match excludeUserId with
                       | Some x => String.eqb k x
                       | None => false
                       end in
       if negb excluded && isOpen (readyStateOf conns (ws user))
       then [Send (ws user) m] else [])
    (JsMap.entries users).

(** The first entry whose [username] is [name]: what the eviction loop
    stops at. *)
Definition findByUsername (name : string)
    (users : JsMap.t (K := string) (V := ConnectedUser))
    : option (string * ConnectedUser) :=
  find (fun e : string * ConnectedUser => String.eqb (username (snd e)) name)
       (JsMap.entries users).

Definition setAdd (x : string) (l : list string) : list string :=
  if existsb (String.eqb x) l then l else (l ++ [x])%list.

Definition setDelete (x : string) (l : list string) : list string :=
  filter (fun y => negb (String.eqb y x)) l.

Definition handleJoin (s : Z) (musername muserType mlocation : option string)
    (now random : Z) (st : State) : State * list Effect :=
  let username :=
    Js.orElse musername ("User" ++ Js.toString random)%string in
  let conns1 := setUserId s (Some username) (connections st) in
  (* Remove any existing connection for this username *)
  let '(users1, conns2, eff1) :=
    match findByUsername username (connectedUsers st) with
    | Some (existingId, existingUser) =>
        (JsMap.delete String.eqb existingId (connectedUsers st),
         closeSocket (ws existingUser) conns1,
         [CloseSocket (ws existingUser)])
    | None => (connectedUsers st, conns1, [])
    end in
  let user :=
    mkUser username username (Js.orElse muserType "entrepreneur") mlocation s in
  let users2 := JsMap.set String.eqb username user users1 in
  (* Send welcome messages only once *)
  let '(welcomed, timers1, eff2) :=
    if existsb (String.eqb username) (welcomeMessagesSent st)
    then (welcomeMessagesSent st, timers st, [])
    else (setAdd username (welcomeMessagesSent st),
          (timers st ++ [SecondWelcome s])%list,
          send conns2 s
            (community_message (Js.toString now) "System"
               "Hello. Welcome to FindMyBizName." now "supporter")) in
  let eff3 := broadcast conns2 users2 (user_joined (infoOf user)) (Some username) in
  let eff4 := send conns2 s (users_update (map infoOf (JsMap.values users2))) in
  (mkState users2 welcomed conns2 timers1, (eff1 ++ eff2 ++ eff3 ++ eff4)%list).

Definition handleChat (s : Z) (message : string) (now : Z) (st : State)
    : State * list Effect :=
  match userId =<< JsMap.get Z.eqb s (connections st) with
  | Some uid =>
      if Js.truthy uid && JsMap.has String.eqb uid (connectedUsers st)
      then
        match JsMap.get String.eqb uid (connectedUsers st) with
        | Some sender =>
            let chatMessage :=
              community_message (Js.toString now) (username sender) message
                now (userType sender) in
            (* Broadcast message to all connected users *)
            (st, broadcast (connections st) (connectedUsers st) chatMessage None)
        | None => (st, [])
        end
      else (st, [])
  | None => (st, [])
  end.

(** [ws.on('message', ...)]: an exception of the handler is caught and
    logged. *)
Definition onMessage (s : Z) (frame : Frame) (now random : Z) (st : State)
    : State * list Effect :=
  match frame with
  | Unparsable => (st, [])
  | join_community u ty loc => handleJoin s u ty loc now random st
  | community_message_in message => handleChat s message now st
  | OtherType => (st, [])
  end.

(** [ws.on('close', ...)]. *)
Definition onClose (s : Z) (st : State) : State * list Effect :=
  let conns := setReadyState s CLOSED (connections st) in
  match userId =<< JsMap.get Z.eqb s (connections st) with
  | Some uid =>
      if Js.truthy uid && JsMap.has String.eqb uid (connectedUsers st)
      then
        match JsMap.get String.eqb uid (connectedUsers st) with
        | Some user =>
            let users1 := JsMap.delete String.eqb uid (connectedUsers st) in
            (mkState users1 (welcomeMessagesSent st) conns
               (timers st ++ [ForgetWelcome (username user)]),
             broadcast conns users1 (user_left uid (username user)) None)
        | None => (mkState (connectedUsers st) (welcomeMessagesSent st) conns (timers st), [])
        end
      else (mkState (connectedUsers st) (welcomeMessagesSent st) conns (timers st), [])
  | None => (mkState (connectedUsers st) (welcomeMessagesSent st) conns (timers st), [])
  end.

(** [ws.on('error', ...)]: the library has put the socket in [CLOSING]. *)
Definition onError (s : Z) (st : State) : State * list Effect :=
  let conns := setReadyState s CLOSING (connections st) in
  match userId =<< JsMap.get Z.eqb s (connections st) with
  | Some uid =>
      if Js.truthy uid
      then (mkState (JsMap.delete String.eqb uid (connectedUsers st))
              (welcomeMessagesSent st) conns (timers st), [])
      else (mkState (connectedUsers st) (welcomeMessagesSent st) conns (timers st), [])
  | None => (mkState (connectedUsers st) (welcomeMessagesSent st) conns (timers st), [])
  end.

Fixpoint removeNth {A} (n : nat) (l : list A) : list A :=
  match n, l with
  | _, [] => []
  | O, _ :: r => r
  | S n', x :: r => x :: removeNth n' r
  end.

(** A pending [setTimeout] callback runs. *)
Definition onTimeout (n : nat) (now : Z) (st : State) : State * list Effect :=
  match nth_error (timers st) n with
  | Some (SecondWelcome s) =>
      (mkState (connectedUsers st) (welcomeMessagesSent st) (connections st)
         (removeNth n (timers st)),
       send (connections st) s
         (community_message (Js.toString (now + 1)) "System"
            "Be sure to give us some feedback about your experience before leaving."
            now "supporter"))
  | Some (ForgetWelcome name) =>
      (mkState (connectedUsers st) (setDelete name (welcomeMessagesSent st))
         (connections st) (removeNth n (timers st)), [])
  | None => (st, [])
  end.

(** A socket delivers frames until it is closed; events of a socket the
    server does not hold are not events of the loop. *)
Definition live (s : Z) (st : State) : bool :=
  match JsMap.get Z.eqb s (connections st) with
  | Some c => match readyState c with CLOSED => false | _ => true end
  | None => false
  end.

Definition step (st : State) (ev : Event) : State * list Effect :=
  match ev with
  | Connect s =>
      if JsMap.has Z.eqb s (connections st) then (st, [])
      else (mkState (connectedUsers st) (welcomeMessagesSent st)
              (JsMap.set Z.eqb s (mkConn None OPEN) (connections st))
              (timers st), [])
  | Message s frame now random =>
      if live s st then onMessage s frame now random st else (st, [])
  | Close s => if live s st then onClose s st else (st, [])
  | Error s => if live s st then onError s st else (st, [])
  | Timeout n now => onTimeout n now st
  end.

(** The state after a sequence of events, and everything done on the way. *)
Fixpoint run (st : State) (evs : list Event) : State * list Effect :=
  match evs with
  | [] => (st, [])
  | ev :: rest =>
      let '(st1, eff1) := step st ev in
      let '(st2, eff2) := run st1 rest in
      (st2, (eff1 ++ eff2)%list)
  end.

(** Entries of the registry whose [username] is [name]. *)
Definition entriesNamed (name : string)
    (users : JsMap.t (K := string) (V := ConnectedUser)) : list ConnectedUser :=
  filter (fun u => String.eqb (username u) name) (JsMap.values users).

End Chat.

(** ** Vocabulary of the properties *)

(** The range of a [decimal(15, 2)] column, in hundredths. *)
Definition inRange15 (n : Z) : Prop := - 10 ^ 15 < n < 10 ^ 15.

(** The amount of a stored numeral in hundredths, read off the numeral
    itself; 0 for ["NaN"]. *)
Definition storedHundredths (d : Decimal) : Z :=
  match hundredthsOf d with Some n => n | None => 0 end.

(** The signed amount of a ledger row: a credit counts positively, a debit
    (any other type, for [addWalletTransaction]) negatively. *)
Definition signedAmount (t : WalletTx.t) : Z :=
  if String.eqb (WalletTx.transactionType t) "credit"
  then storedHundredths (WalletTx.amount t)
  else - storedHundredths (WalletTx.amount t).

(** The ledger of a wallet: its rows of [wallet_transactions], oldest first. *)
Definition ledgerOf (walletId : Z) (db : Db) : list WalletTx.t :=
  filter (fun t => WalletTx.walletId t =? walletId) (Sql.rows (walletTransactions db)).

Definition sumSigned (l : list WalletTx.t) : Z :=
  fold_left (fun acc t => acc + signedAmount t) l 0.

(** Each row's [balanceAfter] is the running sum, starting from [acc]. *)
Fixpoint runningFrom (acc : Z) (l : list WalletTx.t) : Prop :=
  match l with
  | [] => True
  | t :: rest =>
      WalletTx.balanceAfter t = dec (acc + signedAmount t)
      /\ runningFrom (acc + signedAmount t) rest
  end.

(** The rows of [digital_wallets] with a given id. *)
Definition walletRows (walletId : Z) (db : Db) : list Wallet.t :=
  filter (fun w => Wallet.id w =? walletId) (Sql.rows (digitalWallets db)).

(** No row is ahead of the [serial] sequence of [digital_wallets]. *)
Definition walletSerialAhead (db : Db) : Prop :=
  (forall w, In w (Sql.rows (digitalWallets db)) ->
     Wallet.id w < Sql.nextId (digitalWallets db))
  /\ (forall t, In t (Sql.rows (walletTransactions db)) ->
     WalletTx.walletId t < Sql.nextId (digitalWallets db)).

(** A call of [addWalletTransaction]: wallet, transaction, clock. *)
Definition LedgerCall : Type := Z * WalletTx.insert * Date.

(** Calls made one after the other; a failed call does not stop the next. *)
Fixpoint addAll (calls : list LedgerCall) (db : Db) : Db :=
  match calls with
  | [] => db
  | (walletId, tx, now) :: rest =>
      addAll rest (snd (DatabaseStorage.addWalletTransaction walletId tx now db))
  end.


(** The strings of a transaction fit their columns as they are. *)
Definition columnsFit (tx : WalletTx.insert) : bool :=
  Column.fits 20 (WalletTx.i_transactionType tx)
  && Column.optFits 3 (WalletTx.i_currency tx)
  && Column.optFits 100 (WalletTx.i_referenceId tx)
  && Column.optFits 50 (WalletTx.i_sourceType tx)
  && Column.optFits 20 (WalletTx.i_status tx).

(** What a transaction of [a] hundredths adds to the balance. *)
Definition signedCall (tx : WalletTx.insert) (a : Z) : Z :=
  if String.eqb (WalletTx.i_transactionType tx) "credit" then a else - a.


(** The balance [addWalletTransaction] computes, as it writes it. *)
Definition newBalanceOf (walletId : Z) (tx : WalletTx.insert) (db : Db) : Decimal :=
  toFixed2
    (if String.eqb (WalletTx.i_transactionType tx) "credit"
     then JsNumber.add (parseFloat (DatabaseStorage.getWalletBalance walletId db))
            (parseFloat (WalletTx.i_amount tx))
     else JsNumber.sub (parseFloat (DatabaseStorage.getWalletBalance walletId db))
            (parseFloat (WalletTx.i_amount tx))).

(** The row [addWalletTransaction] inserts for an amount of [a] hundredths
    that leaves a balance of [n] hundredths. *)
Definition rowOf (walletId : Z) (tx : WalletTx.insert) (now : Date) (a n : Z)
    (db : Db) : WalletTx.t :=
  WalletTx.mk (Sql.nextId (walletTransactions db)) walletId
    (WalletTx.i_transactionType tx) (dec a)
    (orDefault (WalletTx.i_currency tx) "USD")
    (WalletTx.i_description tx) (WalletTx.i_referenceId tx)
    (WalletTx.i_sourceType tx) (WalletTx.i_sourceId tx)
    (orDefault (WalletTx.i_status tx) "completed")
    (dec n) (WalletTx.i_metadata tx) (Some now).

(** The store after a transaction of [a] hundredths that leaves [n]. *)
Definition ledgerStep (walletId : Z) (tx : WalletTx.insert) (now : Date) (a n : Z)
    (db : Db) : Db :=
  with_wallets
    (Sql.updateWhere (fun w => Wallet.id w =? walletId) (Wallet.touch (dec n) now))
    (with_walletTransactions
       (fun t => Sql.mkTable (Sql.rows t ++ [rowOf walletId tx now a n db])
                   (Sql.nextId t + 1))
       db).

(** The ledger invariant of one wallet: the wallet exists, its stored
    balance is the sum of its ledger, and every [balanceAfter] is the
    running sum. *)
Definition ledgerInv (wid : Z) (db : Db) : Prop :=
  walletRows wid db <> []
  /\ (forall w, In w (walletRows wid db) ->
        Wallet.balance w = Some (dec (sumSigned (ledgerOf wid db))))
  /\ runningFrom 0 (ledgerOf wid db).



(** [withdrawal.transactionFee || "0"]. *)
Definition feeOf (w : Withdrawal.insert) : Decimal :=
  textOr (Withdrawal.i_transactionFee w) (Num 0 0).

(** The fee of a withdrawal in hundredths: that of the numeral given when
    it has at most two decimals, 0 when none is given. *)
Definition feeHundredths (w : Withdrawal.insert) : option Z :=
  match Withdrawal.i_transactionFee w with
  | Some v => hundredthsOf v
  | None => Some 0
  end.

(** The strings of a withdrawal fit their columns as they are. *)
Definition withdrawalFits (w : Withdrawal.insert) : bool :=
  Column.optFits 3 (Withdrawal.i_currency w)
  && Column.optFits 50 (Withdrawal.i_withdrawalMethod w)
  && Column.optFits 20 (Withdrawal.i_status w)
  && Column.optFits 100 (Withdrawal.i_externalTransactionId w).


(** The registry as a [Map] keyed by username: keys are distinct and each
    entry is filed under its own [username]. *)
Definition registryOk (users : JsMap.t (K := string) (V := Chat.ConnectedUser)) : Prop :=
  NoDup (JsMap.keys users)
  /\ forall k u, In (k, u) users -> Chat.username u = k.

(** The [userId] of a connection, once set, is a truthy string. *)
Definition userIdsTruthy (conns : JsMap.t (K := Z) (V := Chat.Connection)) : Prop :=
  forall s c u, In (s, c) conns -> Chat.userId c = Some u -> Js.truthy u = true.

(** The participants of the registry whose socket is open, in registry order. *)
Definition openParticipants (st : Chat.State) : list Chat.ConnectedUser :=
  filter (fun u => Chat.isOpen (Chat.readyStateOf (Chat.connections st) (Chat.ws u)))
         (JsMap.values (Chat.connectedUsers st)).

(** The commission a backend writes for the number given: none when the
    argument is absent, 0 or [NaN]; on the database the numeral rounded into
    [decimal(10, 2)], in memory the numeral as [toString()] prints it. *)
Definition commissionInDb (commissionAmount : option Decimal) : option Decimal :=
  match commissionAmount with
  | Some c =>
      if numberTruthy c
      then match Column.numeric 10 c with Ok d => Some d | Err _ => None end
      else None
  | None => None
  end.

Definition commissionInMem (commissionAmount : option Decimal) : option Decimal :=
  match commissionAmount with
  | Some c => if numberTruthy c then Some c else None
  | None => None
  end.



(** A purchase of product [productId] by user [userId]: the condition of
    both [getPurchase]. *)
Definition purchaseOf (userId productId : Z) (p : Purchase.t) : bool :=
  match Purchase.userId p with
  | Some u => (u =? userId) && (Purchase.productId p =? productId)
  | None => false
  end.

(** ** Client programs over the interface *)

(** Ask twice for the referral code of a user. *)
Definition referralCodeTwice {S} `{IStorage S} (userId : Z) (t1 t2 : Date)
    : M S (ReferralCode.t * ReferralCode.t) :=
  c1 <- createReferralCode userId t1 ;;
  c2 <- createReferralCode userId t2 ;;
  ret (c1, c2).

(** Record a usage count, then read the user back. *)
Definition recordUsage {S} `{IStorage S} (userId usage : Z) (now : Date)
    : M S (option User.t) :=
  updateUserUsage userId usage now ;;;
  getUser userId.

(** Count a download, then read the purchase back. *)
Definition recordDownload {S} `{IStorage S} (purchaseId userId productId : Z)
    (now : Date) : M S (option Purchase.t) :=
  incrementDownloadCount purchaseId now ;;;
  getPurchase userId productId.

(** ** Sample stores *)

Definition yesterday : Date := mkDate 2025 0 14 1736812800000.
Definition today : Date := mkDate 2025 0 15 1736899200000.
Definition laterToday : Date := mkDate 2025 0 15 1736899260000.

Definition demoUser : User.t :=
  User.mk 1 "demo_user" "demo@example.com" "starter" 3 yesterday 0 0 None None
    yesterday.

Definition demoPurchase : Purchase.t :=
  Purchase.mk 1 (Some 1) 7 2500 "paypal" None 0 None yesterday.

Definition demoReferral : Referral.t :=
  Referral.mk 1 1 2 "REF1ABC" (Some "pending") None None (Some "USD") (Some yesterday).

(** A database holding the demo user, one purchase and one referral. *)
Definition demoDb : Db :=
  mkDb (Sql.mkTable [demoUser] 2) (Sql.mkTable [demoPurchase] 2) Sql.empty
       (Sql.mkTable [demoReferral] 2) Sql.empty Sql.empty Sql.empty.

(** The in-memory store with the same content. *)
Definition demoMem : MemStorage.t :=
  MemStorage.mk [(1, demoUser)] [(1, demoPurchase)] [] [(1, demoReferral)] 2 1 2.

(** A credit of ["100"]. *)
Definition credit100 : WalletTx.insert :=
  WalletTx.mkInsert "credit" (Num 100 0) (Some "USD") (Some "Funds added to wallet")
    None (Some "deposit") None (Some "completed") None.

(** A debit of ["30.50"]. *)
Definition debit3050 : WalletTx.insert :=
  WalletTx.mkInsert "debit" (Num 3050 2) None None None None None None None.




(** A withdrawal of ["100"] with a fee of ["2.50"]. *)
Definition withdraw100 : Withdrawal.insert :=
  Withdrawal.mkInsert (Num 100 0) (Some "USD") (Some "paypal") None None
    (Some (Num 250 2)) None None.

(** A withdrawal of ["100.005"] with a fee of ["2.50"]. *)
Definition withdraw100005 : Withdrawal.insert :=
  Withdrawal.mkInsert (Num 100005 3) (Some "USD") (Some "paypal") None None
    (Some (Num 250 2)) None None.


(** The demo database after [createWallet(1, "personal")]. *)
Definition demoDbWithWallet : Db :=
  snd (DatabaseStorage.createWallet 1 "personal" today demoDb).

(** A chat with Alice connected on socket 1 and a second socket open. *)
Definition aliceConnected : list Chat.Event :=
  [Chat.Connect 1;
   Chat.Message 1 (Chat.join_community (Some "Alice") None None) 1000 7;
   Chat.Connect 2].

(** A credit of 100.00 and a debit of 30.50 on wallet 1, with a call on a
    wallet that does not exist in between. *)
Definition demoCalls : list LedgerCall :=
  [(1, credit100, today); (8, credit100, today); (1, debit3050, laterToday)].

Definition aliceEntry : Chat.ConnectedUser :=
  Chat.mkUser "Alice" "Alice" "entrepreneur" None 1.

(** Alice on socket 1 and Bob on socket 2. *)
Definition aliceAndBob : list Chat.Event :=
  aliceConnected
  ++ [Chat.Message 2 (Chat.join_community (Some "Bob") (Some "premium") None) 1500 3].

(** * The rest of the storage layer and its callers *)

(** ** Arrays and query results *)

Module JsArray.

(** Insertion of [x] into a list sorted by the comparator [cmp], before the
    first element it does not come after. *)
Fixpoint insertSorted {A} (cmp : A -> A -> Z) (x : A) (l : list A) : list A :=
  match l with
  | [] => [x]
  | y :: r => if cmp x y <=? 0 then x :: y :: r else y :: insertSorted cmp x r
  end.

(** [l.sort(cmp)]: a stable sort. *)
Definition sort {A} (cmp : A -> A -> Z) (l : list A) : list A :=
  fold_right (insertSorted cmp) [] l.

(** [l.slice(0, end)]: a negative [end] counts from the end of the array. *)
Definition slice0 {A} (end_ : Z) (l : list A) : list A :=
  if end_ <? 0
  then firstn (Z.to_nat (Z.of_nat (List.length l) + end_)) l
  else firstn (Z.to_nat end_) l.

End JsArray.

(** The comparator [(a, b) => b.createdAt.getTime() - a.createdAt.getTime()]. *)
Definition newestFirst {A} (createdAt : A -> Date) (a b : A) : Z :=
  getTime (createdAt b) - getTime (createdAt a).

Module SqlQuery.

(** [orderBy(desc(key))]: rows with the greater key first, a null key before
    all, rows of equal key in the order of the table. *)
Fixpoint insertDesc {R} (key : R -> option Date) (x : R) (l : list R) : list R :=
  match l with
  | [] => [x]
  | y :: r =>
      if Sql.newerThan (key y) (key x) then y :: insertDesc key x r
      else x :: y :: r
  end.

Definition orderByDesc {R} (key : R -> option Date) (l : list R) : list R :=
  fold_right (insertDesc key) [] l.

(** A JS number given as a row count: an integer, or [NaN]. *)
Inductive Limit :=
| LimitInt (n : Z)
| LimitNaN.

(** [.limit(n)]: the query builder writes a [LIMIT] only for a number that
    is [>= 0]; without one the query returns every row. *)
Definition limit {R} (n : Limit) (l : list R) : list R :=
  match n with
  | LimitInt n => if 0 <=? n then firstn (Z.to_nat n) l else l
  | LimitNaN => l
  end.

End SqlQuery.

(** ** [DatabaseStorage]: the other wallet reads *)

Module WalletReads.

Definition getWalletTransactions (walletId : Z) (limit : option SqlQuery.Limit)
    : M Db (list WalletTx.t) :=
  let limit := match limit with Some n => n | None => SqlQuery.LimitInt 50 end in
  gets (fun db =>
    SqlQuery.limit limit
      (SqlQuery.orderByDesc WalletTx.createdAt
         (Sql.selectWhere (fun t => WalletTx.walletId t =? walletId)
            (walletTransactions db)))).

(** The rows of [walletWithdrawals] joined with [digitalWallets]. *)
Definition getUserWithdrawals (userId : Z) (db : Db)
    : list (Withdrawal.t * Wallet.t) :=
  SqlQuery.orderByDesc (fun p => Withdrawal.createdAt (fst p))
    (flat_map
       (fun wd =>
          map (fun w => (wd, w))
            (filter (fun w => (Withdrawal.walletId wd =? Wallet.id w)
                              && (Wallet.userId w =? userId))
               (Sql.rows (digitalWallets db))))
       (Sql.rows (walletWithdrawals db))).

End WalletReads.

(** ** Route handlers ([routes.ts])

    A handler is a function from the store to the response it sends and
    the store it leaves. The body of [res.json] is either the payload of the
    success case or a [{message}] object. An exception of the handler is
    caught and answered with status 500. *)

Module Routes.

Inductive Body (A : Type) :=
| Payload (a : A)
| Message (message : string).
Arguments Payload {A} a.
Arguments Message {A} message.

Record Reply (A : Type) := reply { status : Z; body : Body A }.
Arguments reply {A} status body.
Arguments status {A} r.
Arguments body {A} r.

(** [try { ... } catch (error) { res.status(500).json({message}) }]. *)
Definition handle {S A} (failure : string) (c : M S (Reply A)) (s : S)
    : Reply A * S :=
  match c s with
  | (Ok r, s') => (r, s')
  | (Err _, s') => (reply 500 (Message failure), s')
  end.

(** [userId = 1]: the demo user every wallet route works for. *)
Definition demoUserId : Z := 1.

(** [POST /api/wallet/create]. *)
Definition walletCreate (walletType : option string) (now : Date)
    : Db -> Reply (string * Wallet.t) * Db :=
  handle "Failed to create wallet"
    (let walletType := match walletType with Some t => t | None => "personal" end in
     found <- gets (DatabaseStorage.getUserWallet demoUserId (Some walletType)) ;;
     wallet <- match found with
               | Some w => ret w
               | None => DatabaseStorage.createWallet demoUserId walletType now
               end ;;
     ret (reply 200 (Payload ("Wallet ready", wallet)))).

(** [GET /api/wallet]. *)
Definition walletGet (walletType : option string) (now : Date)
    : Db -> Reply Wallet.t * Db :=
  handle "Failed to fetch wallet"
    (let walletType := match walletType with Some t => t | None => "personal" end in
     found <- gets (DatabaseStorage.getUserWallet demoUserId (Some walletType)) ;;
     wallet <- match found with
               | Some w => ret w
               | None => DatabaseStorage.createWallet demoUserId walletType now
               end ;;
     ret (reply 200 (Payload wallet))).

(** The [{message, transaction, newBalance}] of a deposit. *)
Record FundsAdded := fundsAdded {
  fa_message : string;
  fa_transaction : WalletTx.t;
  fa_newBalance : Decimal
}.

(** [POST /api/wallet/add-funds]. An absent [amount] makes
    [amount.toString()] throw, after the wallet was looked up or made. *)
Definition addFunds (amount : option Decimal) (description sourceType : option string)
    (now : Date) : Db -> Reply FundsAdded * Db :=
  handle "Failed to add funds"
    (let sourceType := match sourceType with Some t => t | None => "deposit" end in
     found <- gets (DatabaseStorage.getUserWallet demoUserId (Some "personal")) ;;
     wallet <- match found with
               | Some w => ret w
               | None => DatabaseStorage.createWallet demoUserId "personal" now
               end ;;
     amount <- match amount with
               | Some a => ret a
               | None => throw (ErrorMessage "Cannot read properties of undefined")
               end ;;
     transaction <-
       DatabaseStorage.addWalletTransaction (Wallet.id wallet)
         (WalletTx.mkInsert "credit" amount (Some "USD")
            (Some (Js.orElse description "Funds added to wallet"))
            None (Some sourceType) None (Some "completed") None)
         now ;;
     ret (reply 200
            (Payload (fundsAdded "Funds added successfully" transaction
                        (WalletTx.balanceAfter transaction))))).

(** [parseFloat(x)] of a value that may be [null] or [undefined]. *)
Definition parseFloatOf (x : option Decimal) : JsNumber.t :=
  match x with
  | Some s => parseFloat s
  | None => JsNumber.NaN
  end.

(** [currentBalance < withdrawalAmount]: false when either side is [NaN]. *)
Definition insufficient (balance amount : option Decimal) : bool :=
  JsNumber.ltb (parseFloatOf balance) (parseFloatOf amount).

(** [POST /api/wallet/withdraw]. [amount] is the [amount] of the body as
    its [toString()] prints it. An absent [withdrawalMethod] is refused by
    the [notNull] column when the withdrawal is inserted. *)
Definition withdraw (amount : option Decimal) (withdrawalMethod withdrawalDetails : option string)
    (now : Date) : Db -> Reply (string * Withdrawal.t) * Db :=
  handle "Failed to create withdrawal"
    (found <- gets (DatabaseStorage.getUserWallet demoUserId (Some "personal")) ;;
     match found with
     | None => ret (reply 404 (Message "Wallet not found"))
     | Some wallet =>
         if insufficient (Wallet.balance wallet) amount
         then ret (reply 400 (Message "Insufficient balance"))
         else
           amount <- match amount with
                     | Some a => ret a
                     | None => throw (ErrorMessage "Cannot read properties of undefined")
                     end ;;
           withdrawal <-
             DatabaseStorage.createWithdrawal (Wallet.id wallet)
               (Withdrawal.mkInsert amount (Some "USD") withdrawalMethod
                  withdrawalDetails None (Some (Num 250 2)) None None)
               now ;;
           ret (reply 200 (Payload ("Withdrawal request created", withdrawal)))
     end).

(** [GET /api/wallet/transactions]. [limit] is [parseInt] of the query
    parameter when there is one. *)
Definition walletTransactionsRoute (limit : option SqlQuery.Limit)
    : Db -> Reply (list WalletTx.t) * Db :=
  handle "Failed to fetch transactions"
    (found <- gets (DatabaseStorage.getUserWallet demoUserId (Some "personal")) ;;
     match found with
     | None => ret (reply 200 (Payload []))
     | Some wallet =>
         transactions <-
           WalletReads.getWalletTransactions (Wallet.id wallet)
             (Some (match limit with Some n => n | None => SqlQuery.LimitInt 50 end)) ;;
         ret (reply 200 (Payload transactions))
     end).

End Routes.

(** ** Vocabulary of the wallet routes *)

(** The primary key of [digital_wallets]: no two rows share an id. *)
Definition walletIdsDistinct (db : Db) : Prop :=
  NoDup (map Wallet.id (Sql.rows (digitalWallets db))).

(** The ledger of every wallet of the store adds up, to a balance the
    column can hold. *)
Definition ledgerOk (db : Db) : Prop :=
  walletSerialAhead db
  /\ forall wid, walletRows wid db <> [] ->
       ledgerInv wid db /\ inRange15 (sumSigned (ledgerOf wid db)).

(** An amount that does not break a ledger: a numeral with at most two
    decimals, or a text the columns refuse. What is left out is ["NaN"] and
    the numerals with more decimals. *)
Definition ledgerSafe (amount : Decimal) : bool :=
  match amount with
  | Num _ _ => match hundredthsOf amount with Some _ => true | None => false end
  | NaNString => false
  | InfinityString _ => true
  | EmptyText => true
  | NotNumeric _ => true
  end.

(** The operations that write to the wallet tables through the ledger. *)
Inductive LedgerOp :=
| OpCreateWallet (userId : Z) (walletType : string) (now : Date)
| OpAddWalletTransaction (walletId : Z) (tx : WalletTx.insert) (now : Date)
| OpCreateWithdrawal (walletId : Z) (w : Withdrawal.insert) (now : Date)
| OpWalletCreateRoute (walletType : option string) (now : Date)
| OpWalletGetRoute (walletType : option string) (now : Date)
| OpAddFundsRoute (amount : option Decimal) (description sourceType : option string)
    (now : Date)
| OpWithdrawRoute (amount : option Decimal) (method details : option string)
    (now : Date).

Definition runLedgerOp (op : LedgerOp) (db : Db) : Db :=
  match op with
  | OpCreateWallet u t now => snd (DatabaseStorage.createWallet u t now db)
  | OpAddWalletTransaction w tx now =>
      snd (DatabaseStorage.addWalletTransaction w tx now db)
  | OpCreateWithdrawal w wd now => snd (DatabaseStorage.createWithdrawal w wd now db)
  | OpWalletCreateRoute t now => snd (Routes.walletCreate t now db)
  | OpWalletGetRoute t now => snd (Routes.walletGet t now db)
  | OpAddFundsRoute a d s now => snd (Routes.addFunds a d s now db)
  | OpWithdrawRoute a m d now => snd (Routes.withdraw a m d now db)
  end.

Definition runLedgerOps (ops : list LedgerOp) (db : Db) : Db :=
  fold_left (fun d op => runLedgerOp op d) ops db.

(** The amount of an operation, if it has one, is [ledgerSafe]. *)
Definition opSafe (op : LedgerOp) : Prop :=
  match op with
  | OpAddWalletTransaction _ tx _ => ledgerSafe (WalletTx.i_amount tx) = true
  | OpCreateWithdrawal _ w _ => ledgerSafe (Withdrawal.i_amount w) = true
  | OpAddFundsRoute (Some a) _ _ _ => ledgerSafe a = true
  | OpWithdrawRoute (Some a) _ _ _ => ledgerSafe a = true
  | _ => True
  end.

(** [b] does not come before [a] in a result ordered newest first. *)
Definition notOlder (a b : option Date) : Prop := Sql.newerThan b a = false.

(** A method keeps a property of the store, whether it succeeds or fails. *)
Definition preserves {S A} (P : S -> Prop) (c : M S A) : Prop :=
  forall s, P s -> P (snd (c s)).

(** The demo user opens a wallet, deposits ["100"] and withdraws ["40"]. *)
Definition demoLedgerOps : list LedgerOp :=
  [OpWalletCreateRoute None today;
   OpAddFundsRoute (Some (Num 100 0)) None None today;
   OpWithdrawRoute (Some (Num 40 0)) (Some "paypal") None laterToday].

(** The demo store after the demo user opened a wallet and deposited ["100"]. *)
Definition demoDbFunded : Db :=
  runLedgerOps
    [OpWalletCreateRoute None today; OpAddFundsRoute (Some (Num 100 0)) None None today]
    demoDb.

(** A wallet type of 51 characters: ["personal"] and 43 spaces. *)
Definition paddedType : string :=
  "personal                                           ".

(** The wallet of the demo user in [demoDbFunded]. *)
Definition demoFundedWallet : Wallet.t :=
  Wallet.mk 1 1 "FMBN1PERSONALM5X4XS00" "personal" (Some (dec 10000)) (Some "USD")
    (Some true) (Some today) (Some today) (Some today).

(** The keys of [digital_wallets] are in order: distinct and behind the
    sequence. *)
Definition walletKeysOk (db : Db) : Prop :=
  walletSerialAhead db /\ walletIdsDistinct db.

(** Every wallet has a balance, of a number of hundredths the column can
    hold, and none is below zero. *)
Definition balancesNonNegative (db : Db) : Prop :=
  forall w, In w (Sql.rows (digitalWallets db)) ->
    exists b, Wallet.balance w = Some (dec b) /\ 0 <= b < 10 ^ 15.

(** A call of a wallet route whose amount, if it has one, is a numeral with
    at most two decimals, and not negative for a deposit. *)
Definition routeCallOk (op : LedgerOp) : Prop :=
  match op with
  | OpWalletCreateRoute _ _ => True
  | OpWalletGetRoute _ _ => True
  | OpAddFundsRoute (Some a) _ _ _ => exists n, hundredthsOf a = Some n /\ 0 <= n
  | OpAddFundsRoute None _ _ _ => True
  | OpWithdrawRoute (Some a) _ _ _ => exists n, hundredthsOf a = Some n
  | OpWithdrawRoute None _ _ _ => True
  | _ => False
  end.

(** From a store where [P] holds the method either succeeds with a value
    and a store related by [Q], or fails and leaves a store where [I]
    holds. *)
Definition triple {S A} (P : S -> Prop) (c : M S A) (Q : A -> S -> Prop)
    (I : S -> Prop) : Prop :=
  forall s, P s ->
    match c s with
    | (Ok a, s') => Q a s'
    | (Err _, s') => I s'
    end.

(** What the transaction must leave on the wallet: nothing below zero. *)
Definition leavesNonNegative (w : Wallet.t) (tx : WalletTx.insert) : Prop :=
  exists a,
    hundredthsOf (WalletTx.i_amount tx) = Some a
    /\ forall b, Wallet.balance w = Some (dec b) -> 0 <= b < 10 ^ 15 ->
         inRange15 a -> 0 <= b + signedCall tx a.

(** The wallet tables are in order and no balance is below zero. *)
Definition walletsSound (db : Db) : Prop :=
  walletKeysOk db /\ balancesNonNegative db.

(** ** Vocabulary of the chat properties *)

(** The server holds socket [s] and the socket has reported its close. *)
Definition closedIn (conns : JsMap.t (K := Z) (V := Chat.Connection)) (s : Z) : Prop :=
  exists c, JsMap.get Z.eqb s conns = Some c /\ Chat.readyState c = Chat.CLOSED.

(** The first welcome frame of a join at [now]. *)
Definition helloFrame (now : Z) : Chat.ServerMessage :=
  Chat.community_message (Js.toString now) "System" "Hello. Welcome to FindMyBizName."
    now "supporter".

(** A timer event. *)
Definition isTimeout (ev : Chat.Event) : bool :=
  match ev with Chat.Timeout _ _ => true | _ => false end.

(** ** Users: the other methods *)

(** [feature: 'brandAnalysis' | 'nameImprovement']. *)
Inductive PremiumFeature := brandAnalysis | nameImprovement.

Module UserFields.

Definition set_brandAnalysisUsage (v : Z) (u : User.t) : User.t :=
  User.mk (User.id u) (User.username u) (User.email u) (User.plan u)
    (User.dailyUsage u) (User.lastUsageReset u) v (User.nameImprovementUsage u)
    (User.stripeCustomerId u) (User.stripeSubscriptionId u) (User.createdAt u).

Definition set_nameImprovementUsage (v : Z) (u : User.t) : User.t :=
  User.mk (User.id u) (User.username u) (User.email u) (User.plan u)
    (User.dailyUsage u) (User.lastUsageReset u) (User.brandAnalysisUsage u) v
    (User.stripeCustomerId u) (User.stripeSubscriptionId u) (User.createdAt u).

(** What the callers hand to [createUser]: the two fields of [InsertUser],
    and the [plan] the routes add. *)
Record insert := mkInsert {
  i_username : string;
  i_email : string;
  i_plan : option string
}.

End UserFields.

Module DatabaseUsers.
Import Sql.

Definition getUserByEmail (email : string) (db : Db) : option User.t :=
  first (selectWhere (fun u => String.eqb (User.email u) email) (users db)).

(** [insert(users).values(insertUser).returning()], with the two [unique]
    columns of the table. *)
Definition createUser (insertUser : UserFields.insert) (now : Date) : M Db User.t :=
  fun db =>
    if existsb (fun u => String.eqb (User.username u) (UserFields.i_username insertUser))
               (rows (users db))
    then (Err (UniqueViolation "users" "username"), with_users skipId db)
    else if existsb (fun u => String.eqb (User.email u) (UserFields.i_email insertUser))
                    (rows (users db))
    then (Err (UniqueViolation "users" "email"), with_users skipId db)
    else
      let '(r, t) := insertRow
        (fun id => User.mk id (UserFields.i_username insertUser)
                     (UserFields.i_email insertUser)
                     (match UserFields.i_plan insertUser with
                      | Some p => p
                      | None => "starter"
                      end)
                     0 now 0 0 None None now)
        (users db) in
      (Ok r, with_users (fun _ => t) db).

Definition updatePremiumFeatureUsage (userId : Z) (feature : PremiumFeature)
    : M Db unit :=
  modify (with_users
    (updateWhere (fun u => User.id u =? userId)
       (fun u =>
          match feature with
          | brandAnalysis =>
              UserFields.set_brandAnalysisUsage (User.brandAnalysisUsage u + 1) u
          | nameImprovement =>
              UserFields.set_nameImprovementUsage (User.nameImprovementUsage u + 1) u
          end))).

End DatabaseUsers.

Module MemUsers.

Definition getUserByEmail (email : string) (m : MemStorage.t) : option User.t :=
  find (fun user => String.eqb (User.email user) email)
       (JsMap.values (MemStorage.users m)).

Definition updatePremiumFeatureUsage (userId : Z) (feature : PremiumFeature)
    : M MemStorage.t unit :=
  fun m =>
    match JsMap.get Z.eqb userId (MemStorage.users m) with
    | Some user =>
        let user' :=
          match feature with
          | brandAnalysis =>
              UserFields.set_brandAnalysisUsage (User.brandAnalysisUsage user + 1) user
          | nameImprovement =>
              UserFields.set_nameImprovementUsage (User.nameImprovementUsage user + 1)
                user
          end in
        (Ok tt, MemStorage.with_users (JsMap.set Z.eqb userId user') m)
    | None => (Ok tt, m)
    end.

End MemUsers.

(** ** Vocabulary of the user properties *)

(** No two rows of [users] share a username, an email or an id. *)
Definition usersUnique (db : Db) : Prop :=
  NoDup (map User.username (Sql.rows (users db)))
  /\ NoDup (map User.email (Sql.rows (users db))).








(** ** The referral-code route *)

Module ReferralRoutes.
Import Routes.

(** [POST /api/referral/create-code], over either storage class.
    [getUserByEmail] is the lookup of the class. *)
Definition createCode {S} `{IStorage S}
    (getUserByEmail : string -> S -> option User.t) (now : Date)
    : S -> Reply ReferralCode.t * S :=
  handle "Failed to create referral code"
    (demoUser <- gets (getUserByEmail "demo@example.com") ;;
     match demoUser with
     | None =>
         ret (reply 404
                (Message "Demo user not found. Please initialize demo data first."))
     | Some demoUser =>
         let userId := User.id demoUser in
         found <- getReferralCode userId ;;
         referralCode <- match found with
                         | Some c => ret c
                         | None => createReferralCode userId now
                         end ;;
         ret (reply 200 (Payload referralCode))
     end).

End ReferralRoutes.

(** ** Generated names ([MemStorage]) *)

(** A JSON value, as the [jsonb] column [domains] holds one. *)
#[local] Set Warnings "-register-all".
Inductive Json :=
| JNull
| JBool (b : bool)
| JNumber (n : Decimal)
| JString (s : string)
| JArray (items : list Json)
| JObject (fields : list (string * Json)).
#[local] Set Warnings "register-all".

Module JsValue.

(** Truthiness of a JSON value. *)
Definition truthy (j : Json) : bool :=
  match j with
  | JNull => false
  | JBool b => b
  | JNumber n => numberTruthy n
  | JString s => Js.truthy s
  | JArray _ => true
  | JObject _ => true
  end.

(** [j || {}]. *)
Definition orEmptyObject (j : option Json) : Json :=
  match j with
  | Some v => if truthy v then v else JObject []
  | None => JObject []
  end.

(** [s || null]. *)
Definition orNull (s : option string) : option string :=
  match s with
  | Some v => if Js.truthy v then Some v else None
  | None => None
  end.

End JsValue.

Module GeneratedName.
Record t := mk {
  id : Z;
  userId : option Z;
  name : string;
  description : option string;
  industry : option string;
  style : option string;
  domains : Json;
  isFavorite : bool;
  createdAt : Date
}.
Definition set_isFavorite (v : bool) (g : t) : t :=
  mk (id g) (userId g) (name g) (description g) (industry g) (style g) (domains g)
     v (createdAt g).
Definition set_domains (v : Json) (g : t) : t :=
  mk (id g) (userId g) (name g) (description g) (industry g) (style g) v
     (isFavorite g) (createdAt g).

(** [InsertGeneratedName]. *)
Record insert := mkInsert {
  i_name : string;
  i_description : option string;
  i_industry : option string;
  i_style : option string;
  i_domains : option Json
}.
End GeneratedName.

Module MemNames.

(** The map and the counter of [MemStorage] that the methods on generated
    names use. *)
Record t := mk {
  generatedNames : JsMap.t (K := Z) (V := GeneratedName.t);
  currentNameId : Z
}.

Definition createGeneratedName (userId : Z) (insertName : GeneratedName.insert)
    (now : Date) : M t GeneratedName.t :=
  fun m =>
    let id := currentNameId m in
    let generatedName :=
      GeneratedName.mk id (Some userId) (GeneratedName.i_name insertName)
        (JsValue.orNull (GeneratedName.i_description insertName))
        (JsValue.orNull (GeneratedName.i_industry insertName))
        (JsValue.orNull (GeneratedName.i_style insertName))
        (JsValue.orEmptyObject (GeneratedName.i_domains insertName))
        false now in
    (Ok generatedName,
     mk (JsMap.set Z.eqb id generatedName (generatedNames m)) (id + 1)).

(** [name.userId === userId]. *)
Definition ownedBy (userId : Z) (g : GeneratedName.t) : bool :=
  match GeneratedName.userId g with
  | Some u => u =? userId
  | None => false
  end.

(** [{...name, domains: name.domains || {}}]. *)
Definition withDomains (g : GeneratedName.t) : GeneratedName.t :=
  GeneratedName.set_domains (JsValue.orEmptyObject (Some (GeneratedName.domains g))) g.

Definition getUserGeneratedNames (userId : Z) (limit : option Z) (m : t)
    : list GeneratedName.t :=
  let limit := match limit with Some n => n | None => 50 end in
  let userNames :=
    JsArray.slice0 limit
      (JsArray.sort (newestFirst GeneratedName.createdAt)
         (filter (ownedBy userId) (JsMap.values (generatedNames m)))) in
  map withDomains userNames.

Definition toggleFavorite (userId nameId : Z) : M t unit :=
  fun m =>
    match JsMap.get Z.eqb nameId (generatedNames m) with
    | Some generatedName =>
        if ownedBy userId generatedName
        then
          let toggled :=
            GeneratedName.set_isFavorite (negb (GeneratedName.isFavorite generatedName))
              generatedName in
          (Ok tt, mk (JsMap.set Z.eqb nameId toggled (generatedNames m))
                     (currentNameId m))
        else (Ok tt, m)
    | None => (Ok tt, m)
    end.

Definition getUserFavorites (userId : Z) (m : t) : list GeneratedName.t :=
  let favorites :=
    JsArray.sort (newestFirst GeneratedName.createdAt)
      (filter (fun g => ownedBy userId g && GeneratedName.isFavorite g)
         (JsMap.values (generatedNames m))) in
  map withDomains favorites.

End MemNames.

(** A list with the newer elements first. *)
Definition newestFirstSorted {A} (createdAt : A -> Date) (l : list A) : Prop :=
  StronglySorted (fun a b => getTime (createdAt b) <= getTime (createdAt a)) l.

Definition demoName (id : Z) (name : string) (favorite : bool) (at_ : Date)
    : GeneratedName.t :=
  GeneratedName.mk id (Some 1) name (Some "A bakery") None None (JObject [])
    favorite at_.

(** Three names of the demo user, the second a favourite. *)
Definition demoNames : MemNames.t :=
  MemNames.mk [(1, demoName 1 "Bakely" false yesterday);
               (2, demoName 2 "Crumbly" true laterToday);
               (3, demoName 3 "Doughly" false today)] 4.

(** ** Digital products and their purchase ([DatabaseStorage], [routes.ts]) *)

Module DigitalProduct.
Record t := mk {
  id : Z;
  title : string;
  description : string;
  price : Z;
  category : string;
  fileName : string;
  filePath : string;
  fileSize : Z;
  downloadCount : Z;
  isActive : bool;
  createdAt : Date;
  updatedAt : Date
}.
End DigitalProduct.

Module PurchaseFields.
(** [InsertDigitalProductPurchase]. *)
Record insert := mkInsert {
  i_productId : Z;
  i_purchasePrice : Z;
  i_paymentMethod : string;
  i_paymentId : option string
}.
End PurchaseFields.

(** The database together with its table of products. *)
Record ShopDb := mkShopDb {
  core : Db;
  digitalProducts : Sql.Table DigitalProduct.t
}.

(** A method on the tables of [Db], run on the larger database. *)
Definition onCore {A} (c : M Db A) : M ShopDb A :=
  fun s => let '(r, db') := c (core s) in (r, mkShopDb db' (digitalProducts s)).

Module DatabaseShop.
Import Sql.

Definition getDigitalProduct (id : Z) (s : ShopDb) : option DigitalProduct.t :=
  first (selectWhere (fun p => DigitalProduct.id p =? id) (digitalProducts s)).

(** [insert(digitalProductPurchases).values({...insertPurchase, userId})],
    with the two references of the table. *)
Definition createPurchase (userId : Z) (insertPurchase : PurchaseFields.insert)
    (now : Date) : M ShopDb Purchase.t :=
  fun s =>
    if negb (DatabaseStorage.userExists userId (core s))
    then (Err (ForeignKeyViolation "digital_product_purchases" "user_id"),
          mkShopDb (with_purchases skipId (core s)) (digitalProducts s))
    else if negb (existsb (fun p => DigitalProduct.id p
                                    =? PurchaseFields.i_productId insertPurchase)
                          (rows (digitalProducts s)))
    then (Err (ForeignKeyViolation "digital_product_purchases" "product_id"),
          mkShopDb (with_purchases skipId (core s)) (digitalProducts s))
    else
      let '(r, t) := insertRow
        (fun id => Purchase.mk id (Some userId)
                     (PurchaseFields.i_productId insertPurchase)
                     (PurchaseFields.i_purchasePrice insertPurchase)
                     (PurchaseFields.i_paymentMethod insertPurchase)
                     (PurchaseFields.i_paymentId insertPurchase)
                     0 None now)
        (digitalProductPurchases (core s)) in
      (Ok r, mkShopDb (with_purchases (fun _ => t) (core s)) (digitalProducts s)).

End DatabaseShop.

Module ShopRoutes.
Import Routes.

(** The [{message, purchase, downloadUrl}] of a purchase. *)
Record Purchased := purchased {
  p_message : string;
  p_purchase : Purchase.t;
  p_downloadUrl : string
}.

(** [POST /api/digital-products/:id/purchase], for a numeric [:id].
    [dateNow] is the value of [Date.now()], [now] the clock of the
    database. *)
Definition purchase (productId : Z) (paymentMethod paymentId : option string)
    (dateNow : Z) (now : Date) : ShopDb -> Reply Purchased * ShopDb :=
  handle "Failed to process purchase"
    (product <- gets (DatabaseShop.getDigitalProduct productId) ;;
     match product with
     | None => ret (reply 404 (Message "Product not found"))
     | Some product =>
         existingPurchase <-
           onCore (gets (DatabaseStorage.getPurchase demoUserId productId)) ;;
         match existingPurchase with
         | Some _ => ret (reply 400 (Message "Product already purchased"))
         | None =>
             purchase <-
               DatabaseShop.createPurchase demoUserId
                 (PurchaseFields.mkInsert productId (DigitalProduct.price product)
                    (Js.orElse paymentMethod "demo")
                    (Some (Js.orElse paymentId ("demo_" ++ Js.toString dateNow)%string)))
                 now ;;
             ret (reply 200
                    (Payload
                       (purchased "Purchase successful" purchase
                          ("/api/digital-products/" ++ Js.toString productId
                           ++ "/download?purchaseId="
                           ++ Js.toString (Purchase.id purchase))%string)))
         end
     end).

(** What the text of a download is written from. *)
Record Download := download_of {
  d_fileName : string;
  d_title : string;
  d_category : string;
  d_description : string;
  d_purchaseDate : Date;
  d_downloadCount : Z
}.

(** [GET /api/digital-products/:id/download?purchaseId=..], for a numeric
    [:id]. *)
Definition download (productId : Z) (purchaseId : option string)
    : ShopDb -> Reply Download * ShopDb :=
  handle "Failed to download product"
    (purchase <- onCore (gets (DatabaseStorage.getPurchase demoUserId productId)) ;;
     match purchase with
     | None => ret (reply 403 (Message "Access denied - purchase required"))
     | Some purchase =>
         if negb (match purchaseId with
                  | Some q => String.eqb (Js.toString (Purchase.id purchase)) q
                  | None => false
                  end)
         then ret (reply 403 (Message "Access denied - purchase required"))
         else
           product <- gets (DatabaseShop.getDigitalProduct productId) ;;
           match product with
           | None => ret (reply 404 (Message "Product not found"))
           | Some product =>
               onCore (DatabaseStorage.incrementDownloadCount (Purchase.id purchase)) ;;;
               ret (reply 200
                      (Payload
                         (download_of (DigitalProduct.fileName product)
                            (DigitalProduct.title product)
                            (DigitalProduct.category product)
                            (DigitalProduct.description product)
                            (Purchase.createdAt purchase)
                            (Purchase.downloadCount purchase + 1))))
           end
     end).

End ShopRoutes.

(** *** Vocabulary of the purchase properties *)

(** No product has two purchases by the demo user. *)
Definition boughtOnce (s : ShopDb) : Prop :=
  forall productId,
    (List.length (filter (purchaseOf Routes.demoUserId productId)
                    (Sql.rows (digitalProductPurchases (core s)))) <= 1)%nat.


(** Every purchase has an id below the next serial value. *)
Definition purchaseSerialAhead (s : ShopDb) : Prop :=
  forall p, In p (Sql.rows (digitalProductPurchases (core s))) ->
            Purchase.id p < Sql.nextId (digitalProductPurchases (core s)).

Inductive ShopCall :=
| CallPurchase (productId : Z) (paymentMethod paymentId : option string)
    (dateNow : Z) (now : Date)
| CallDownload (productId : Z) (purchaseId : option string).

Definition runShopCall (s : ShopDb) (c : ShopCall) : ShopDb :=
  match c with
  | CallPurchase productId paymentMethod paymentId dateNow now =>
      snd (ShopRoutes.purchase productId paymentMethod paymentId dateNow now s)
  | CallDownload productId purchaseId =>
      snd (ShopRoutes.download productId purchaseId s)
  end.

Definition guideProduct : DigitalProduct.t :=
  DigitalProduct.mk 7 "Business Plan Template" "A template" 2500 "financial"
    "plan.docx" "/files/plan.docx" 20480 0 true yesterday yesterday.

Definition logoProduct : DigitalProduct.t :=
  DigitalProduct.mk 8 "Logo Kit" "A kit" 1500 "branding"
    "logo.zip" "/files/logo.zip" 40960 0 true yesterday yesterday.

(** The demo database with two products, the first bought by the demo
    user. *)
Definition demoShop : ShopDb :=
  mkShopDb demoDb (Sql.mkTable [guideProduct; logoProduct] 9).


(** The purchase row the purchase route writes. *)
Definition purchaseRow (productId : Z) (paymentMethod paymentId : option string)
    (dateNow : Z) (now : Date) (product : DigitalProduct.t) (s : ShopDb) : Purchase.t :=
  Purchase.mk (Sql.nextId (digitalProductPurchases (core s)))
    (Some Routes.demoUserId) productId (DigitalProduct.price product)
    (Js.orElse paymentMethod "demo")
    (Some (Js.orElse paymentId ("demo_" ++ Js.toString dateNow)%string))
    0 None now.
(** * Properties *)

(** ** Lemmas on [JsMap] *)

Section JsMapFacts.
Context {K V : Type} (eqb : K -> K -> bool).
Hypothesis eqb_eq : forall a b, eqb a b = true <-> a = b.

Lemma eqb_same (a : K) : eqb a a = true.
Proof. apply eqb_eq. reflexivity. Qed.

Lemma get_In (k : K) (v : V) (m : JsMap.t) :
  JsMap.get eqb k m = Some v -> In (k, v) m.
Proof.
  induction m as [|[k' v'] m IH]; simpl; [discriminate|].
  destruct (eqb k' k) eqn:E.
  - intros H. injection H as ->. apply eqb_eq in E. subst. left. reflexivity.
  - intros H. right. apply IH. exact H.
Qed.

Lemma In_get (k : K) (v : V) (m : JsMap.t) :
  NoDup (JsMap.keys m) -> In (k, v) m -> JsMap.get eqb k m = Some v.
Proof.
  induction m as [|[k' v'] m IH]; simpl; [intros _ []|].
  intros Hnd [H|H].
  - injection H as -> ->. rewrite eqb_same. reflexivity.
  - inversion Hnd as [|? ? Hnotin Hnd']; subst.
    destruct (eqb k' k) eqn:E.
    + apply eqb_eq in E. subst. exfalso. apply Hnotin.
      change (In (fst (k, v)) (map fst m)). apply in_map. exact H.
    + apply IH; assumption.
Qed.

Lemma get_set (k k0 : K) (v : V) (m : JsMap.t) :
  JsMap.get eqb k0 (JsMap.set eqb k v m)
  = if eqb k k0 then Some v else JsMap.get eqb k0 m.
Proof.
  induction m as [|[k' v'] m IH]; simpl; [reflexivity|].
  destruct (eqb k' k) eqn:E; simpl.
  - apply eqb_eq in E. subst k'. destruct (eqb k k0); reflexivity.
  - rewrite IH. destruct (eqb k' k0) eqn:E2; [|reflexivity].
    apply eqb_eq in E2. subst k'.
    destruct (eqb k k0) eqn:E3; [|reflexivity].
    apply eqb_eq in E3. subst k0. rewrite eqb_same in E. discriminate.
Qed.

Lemma get_set_same (k : K) (v : V) (m : JsMap.t) :
  JsMap.get eqb k (JsMap.set eqb k v m) = Some v.
Proof. rewrite get_set, eqb_same. reflexivity. Qed.

Lemma set_fresh (k : K) (v : V) (m : JsMap.t) :
  ~ In k (JsMap.keys m) -> JsMap.set eqb k v m = m ++ [(k, v)].
Proof.
  induction m as [|[k' v'] m IH]; simpl; intros H; [reflexivity|].
  destruct (eqb k' k) eqn:E.
  - apply eqb_eq in E. subst. exfalso. apply H. left. reflexivity.
  - rewrite IH; [reflexivity|]. intros H1. apply H. right. exact H1.
Qed.

Lemma In_set (k : K) (v : V) (m : JsMap.t) (e : K * V) :
  In e (JsMap.set eqb k v m) -> e = (k, v) \/ In e m.
Proof.
  induction m as [|[k' v'] m IH]; simpl.
  - intros [H|[]]. left. symmetry. exact H.
  - destruct (eqb k' k) eqn:E; simpl.
    + intros [H|H]; [left; symmetry; exact H | right; right; exact H].
    + intros [H|H]; [right; left; exact H|].
      destruct (IH H) as [H1|H1]; [left; exact H1 | right; right; exact H1].
Qed.

Lemma keys_set (k : K) (v : V) (m : JsMap.t) (x : K) :
  In x (JsMap.keys (JsMap.set eqb k v m)) -> x = k \/ In x (JsMap.keys m).
Proof.
  unfold JsMap.keys. intros H. apply in_map_iff in H.
  destruct H as ([k1 v1] & <- & H). apply In_set in H. destruct H as [H|H].
  - injection H as -> ->. left. reflexivity.
  - right. change k1 with (fst (k1, v1)). apply in_map. exact H.
Qed.

Lemma NoDup_set (k : K) (v : V) (m : JsMap.t) :
  NoDup (JsMap.keys m) -> NoDup (JsMap.keys (JsMap.set eqb k v m)).
Proof.
  induction m as [|[k' v'] m IH]; simpl; intros Hnd.
  - constructor; [intros [] | constructor].
  - inversion Hnd as [|? ? Hnotin Hnd']; subst.
    destruct (eqb k' k) eqn:E; simpl.
    + apply eqb_eq in E. subst. constructor; assumption.
    + constructor; [|apply IH; exact Hnd'].
      intros H. apply keys_set in H. destruct H as [H|H].
      * subst. rewrite eqb_same in E. discriminate.
      * exact (Hnotin H).
Qed.

Lemma In_delete (k : K) (m : JsMap.t (V := V)) (e : K * V) :
  In e (JsMap.delete eqb k m) -> In e m.
Proof.
  induction m as [|[k' v'] m IH]; simpl; [intros []|].
  destruct (eqb k' k); simpl.
  - intros H. right. exact H.
  - intros [H|H]; [left; exact H | right; apply IH; exact H].
Qed.

Lemma keys_delete (k : K) (m : JsMap.t (V := V)) (x : K) :
  In x (JsMap.keys (JsMap.delete eqb k m)) -> In x (JsMap.keys m).
Proof.
  unfold JsMap.keys. intros H. apply in_map_iff in H.
  destruct H as (e & <- & H). apply in_map. apply In_delete in H. exact H.
Qed.

Lemma NoDup_delete (k : K) (m : JsMap.t (V := V)) :
  NoDup (JsMap.keys m) -> NoDup (JsMap.keys (JsMap.delete eqb k m)).
Proof.
  induction m as [|[k' v'] m IH]; simpl; intros Hnd; [constructor|].
  inversion Hnd as [|? ? Hnotin Hnd']; subst.
  destruct (eqb k' k); simpl; [exact Hnd'|].
  constructor; [|apply IH; exact Hnd'].
  intros H. apply Hnotin. apply keys_delete in H. exact H.
Qed.

Lemma delete_removes (k : K) (m : JsMap.t (V := V)) :
  NoDup (JsMap.keys m) -> ~ In k (JsMap.keys (JsMap.delete eqb k m)).
Proof.
  induction m as [|[k' v'] m IH]; simpl; intros Hnd; [intros []|].
  inversion Hnd as [|? ? Hnotin Hnd']; subst.
  destruct (eqb k' k) eqn:E; simpl.
  - apply eqb_eq in E. subst. exact Hnotin.
  - intros [H|H]; [subst; rewrite eqb_same in E; discriminate|].
    exact (IH Hnd' H).
Qed.

End JsMapFacts.


(** ** Doubles and decimal columns

    On amounts of at most two decimals and of the size a [decimal(15, 2)]
    column holds, the double arithmetic of the code is exact to the cent:
    reading two such amounts, adding or subtracting them as doubles and
    writing the result with [toFixed(2)] gives the numeral of the exact sum
    or difference. *)

Lemma pow2_pos (e : Z) : (0 < 2 ^ e)%Q.
Proof. apply Qpower_0_lt. reflexivity. Qed.

Lemma pow2_le (a b : Z) : a <= b -> (2 ^ a <= 2 ^ b)%Q.
Proof. intros H. apply Qpower_le_compat_l; [exact H | discriminate]. Qed.

Lemma pow2_succ (e : Z) : (2 ^ (e + 1) == 2 * 2 ^ e)%Q.
Proof.
  rewrite Qpower_plus by discriminate. change ((2 ^ 1)%Q) with (2%Q).
  apply Qmult_comm.
Qed.

Lemma pow2_inject (a : Z) : 0 <= a -> (2 ^ a == inject_Z (2 ^ a))%Q.
Proof. intros H. rewrite Zpower_Qpower by exact H. reflexivity. Qed.

Lemma Qfloor_unique (x : Q) (n : Z) :
  (inject_Z n <= x)%Q -> (x < inject_Z (n + 1))%Q -> Qfloor x = n.
Proof.
  intros H1 H2.
  pose proof (Qfloor_le x) as F1. pose proof (Qlt_floor x) as F2.
  assert (n < Qfloor x + 1).
  { rewrite Zlt_Qlt. eapply Qle_lt_trans; [exact H1 | exact F2]. }
  assert (Qfloor x < n + 1).
  { rewrite Zlt_Qlt. eapply Qle_lt_trans; [exact F1 | exact H2]. }
  lia.
Qed.

Lemma roundHalfEven_error (y : Q) :
  (- (1 # 2) <= inject_Z (JsNumber.roundHalfEven y) - y <= 1 # 2)%Q.
Proof.
  unfold JsNumber.roundHalfEven.
  pose proof (Qfloor_le y) as F1. pose proof (Qlt_floor y) as F2.
  rewrite inject_Z_plus in F2. change (inject_Z 1) with 1%Q in F2.
  destruct (Qcompare_spec (y - inject_Z (Qfloor y)) (1 # 2)) as [E|E|E].
  - destruct (Z.even (Qfloor y)); [|rewrite inject_Z_plus; change (inject_Z 1) with 1%Q];
      lra.
  - lra.
  - rewrite inject_Z_plus. change (inject_Z 1) with 1%Q. lra.
Qed.

Lemma floorLog2_le (x : Q) : (0 < x)%Q -> (2 ^ JsNumber.floorLog2 x <= x)%Q.
Proof.
  intros Hx. unfold JsNumber.floorLog2.
  set (a := Z.log2 (Qnum x)). set (b := Z.log2 (Z.pos (Qden x))).
  destruct (Qle_bool (2 ^ (a - b)) x) eqn:E.
  - apply Qle_bool_iff. exact E.
  - clear E.
    assert (Hn : 0 < Qnum x).
    { destruct x as [n d]. unfold Qlt in Hx. simpl in *. lia. }
    assert (Ha : 0 <= a) by apply Z.log2_nonneg.
    assert (Hb : 0 <= b) by apply Z.log2_nonneg.
    pose proof (Z.log2_spec (Qnum x) Hn) as [Hlo _]. fold a in Hlo.
    pose proof (Z.log2_spec (Z.pos (Qden x)) eq_refl) as [_ Hhi]. fold b in Hhi.
    replace (a - b - 1) with (a - (b + 1)) by lia.
    rewrite Qpower_minus by discriminate.
    rewrite (pow2_inject a Ha), (pow2_inject (b + 1)) by lia.
    apply Qle_shift_div_r.
    + change 0%Q with (inject_Z 0). rewrite <- Zlt_Qlt.
      apply Z.pow_pos_nonneg; lia.
    + destruct x as [n d]. simpl in *. unfold Qle, Qmult, inject_Z. simpl.
      unfold Z.succ in Hhi. nia.
Qed.

Lemma round_error (x : Q) (E : Z) :
  -1021 <= E <= 1023 ->
  (Qabs x < 2 ^ E)%Q ->
  exists r, JsNumber.round x = JsNumber.Finite r
            /\ (- 2 ^ (E - 54) <= r - x <= 2 ^ (E - 54))%Q.
Proof.
  intros HE Hx. unfold JsNumber.round.
  assert (Hred : (Qred x == x)%Q) by apply Qred_correct.
  set (x' := Qred x) in *.
  assert (Hx' : (Qabs x' < 2 ^ E)%Q) by (rewrite Hred; exact Hx).
  pose proof (pow2_pos (E - 54)) as Hpos.
  destruct (Qeq_bool x' 0) eqn:Ez.
  - apply Qeq_bool_iff in Ez. exists 0%Q. split; [reflexivity|]. lra.
  - assert (Hnz : ~ (x' == 0)%Q).
    { intros H. apply Qeq_bool_iff in H. rewrite H in Ez. discriminate. }
    assert (Habs : (0 < Qabs x')%Q).
    { destruct (Q_dec 0 x') as [[H|H]|H].
      - rewrite Qabs_pos; lra.
      - rewrite Qabs_neg; lra.
      - exfalso. apply Hnz. symmetry. exact H. }
    set (e := Z.max (JsNumber.floorLog2 (Qabs x')) (-1022)).
    assert (He : e <= E - 1).
    { assert (JsNumber.floorLog2 (Qabs x') < E).
      { apply (Qpower_lt_compat_l_inv 2); [|reflexivity].
        eapply Qle_lt_trans; [apply floorLog2_le; exact Habs|].
        exact Hx'. }
      unfold e. lia. }
    set (ulp := (2 ^ (e - 52))%Q).
    assert (Hulp : (0 < ulp)%Q) by apply pow2_pos.
    assert (Hulp2 : (ulp <= 2 * 2 ^ (E - 54))%Q).
    { rewrite <- pow2_succ. apply pow2_le. lia. }
    pose proof (roundHalfEven_error (x' / ulp)) as Hr.
    set (m := inject_Z (JsNumber.roundHalfEven (x' / ulp))) in *.
    assert (Hy : (x' / ulp * ulp == x')%Q).
    { field. lra. }
    assert (Hbound : (- 2 ^ (E - 54) <= m * ulp - x' <= 2 ^ (E - 54))%Q).
    { assert (Heq : (m * ulp - x' == (m - x' / ulp) * ulp)%Q) by (field; lra).
      rewrite Heq. set (d := (m - x' / ulp)%Q) in *.
      set (v := (2 ^ (E - 54))%Q) in *. clearbody d v ulp. split; nra. }
    assert (HredR : (Qred (m * ulp) == m * ulp)%Q) by apply Qred_correct.
    destruct (Qle_bool (2 ^ 1024) (Qabs (Qred (m * ulp)))) eqn:Eo.
    + exfalso. apply Qle_bool_iff in Eo. rewrite HredR in Eo.
      assert (H1 : (2 ^ E <= 2 ^ 1023)%Q) by (apply pow2_le; lia).
      assert (H2 : (2 ^ (E - 54) <= 2 ^ 1023)%Q) by (apply pow2_le; lia).
      assert (H3 : (2 ^ 1024 == 2 * 2 ^ 1023)%Q) by (apply (pow2_succ 1023)).
      apply Qabs_Qlt_condition in Hx'.
      revert Eo. apply Qlt_not_le. apply Qabs_Qlt_condition.
      set (p := (2 ^ 1023)%Q) in *. set (q := (2 ^ 1024)%Q) in *.
      set (u := (2 ^ E)%Q) in *. set (v := (2 ^ (E - 54))%Q) in *.
      split; lra.
    + exists (Qred (m * ulp)). split; [reflexivity|].
      rewrite HredR, <- Hred. exact Hbound.
Qed.

Lemma round_comp (x y : Q) : (x == y)%Q -> JsNumber.round x = JsNumber.round y.
Proof.
  intros H. unfold JsNumber.round. rewrite (Qred_complete x y H). reflexivity.
Qed.

Lemma cents_value (n : Z) : (numeralValue n 2 == inject_Z n * (1 # 100))%Q.
Proof. unfold numeralValue. change (inject_Z (10 ^ Z.of_nat 2)) with 100%Q. field. Qed.

Lemma pow10_pos (k : nat) : 0 < 10 ^ Z.of_nat k.
Proof. apply Z.pow_pos_nonneg; lia. Qed.

Lemma hundredthsOf_value (s : Decimal) (n : Z) :
  hundredthsOf s = Some n ->
  exists u k, s = Num u k /\ (numeralValue u k == inject_Z n * (1 # 100))%Q.
Proof.
  destruct s as [u k| | | |]; simpl; try discriminate.
  destruct (Z.eqb_spec ((u * 100) mod 10 ^ Z.of_nat k) 0) as [Hm|]; [|discriminate].
  intros H. injection H as <-. exists u, k. split; [reflexivity|].
  pose proof (pow10_pos k) as Hp.
  assert (Hd : u * 100 = 10 ^ Z.of_nat k * (u * 100 / 10 ^ Z.of_nat k)).
  { apply Z.div_exact; [lia | exact Hm]. }
  unfold numeralValue. set (p := 10 ^ Z.of_nat k) in *. set (q := u * 100 / p) in *.
  assert (Hq : (inject_Z u * 100 == inject_Z p * inject_Z q)%Q).
  { change 100%Q with (inject_Z 100). rewrite <- !inject_Z_mult. rewrite Hd. reflexivity. }
  assert (Hp' : ~ (inject_Z p == 0)%Q).
  { change 0%Q with (inject_Z 0). rewrite inject_Z_injective. lia. }
  apply (Qmult_inj_r _ _ 100); [discriminate|].
  setoid_replace (inject_Z u / inject_Z p * 100)%Q with (inject_Z u * 100 / inject_Z p)%Q
    by (field; exact Hp').
  rewrite Hq. field. exact Hp'.
Qed.

Lemma parseFloat_hundredths (s : Decimal) (n : Z) :
  hundredthsOf s = Some n -> parseFloat s = parseFloat (dec n).
Proof.
  intros H. destruct (hundredthsOf_value s n H) as (u & k & -> & Hv).
  simpl. apply round_comp. rewrite Hv. reflexivity.
Qed.

Lemma inject_Z_bounds (n lim : Z) :
  - lim < n < lim -> (- inject_Z lim < inject_Z n < inject_Z lim)%Q.
Proof.
  intros [H1 H2]. split.
  - rewrite <- inject_Z_opp. rewrite <- Zlt_Qlt. exact H1.
  - rewrite <- Zlt_Qlt. exact H2.
Qed.

(** [parseFloat] of a two-decimal amount below 10^13 is within 2^-10 of it. *)
Lemma parseFloat_cents (n : Z) :
  - 10 ^ 15 < n < 10 ^ 15 ->
  exists r, parseFloat (dec n) = JsNumber.Finite r
            /\ (- (1 # 1024) <= r - inject_Z n * (1 # 100) <= 1 # 1024)%Q.
Proof.
  intros Hn. apply inject_Z_bounds in Hn.
  change (inject_Z (10 ^ 15)) with (1000000000000000%Q) in Hn.
  destruct (round_error (numeralValue n 2) 44) as (r & Hr & Hb); [lia| |].
  - rewrite cents_value. apply Qabs_Qlt_condition.
    setoid_replace ((2 ^ 44)%Q) with (17592186044416%Q) by reflexivity.
    split; lra.
  - exists r. split; [exact Hr|].
    rewrite cents_value in Hb.
    setoid_replace ((2 ^ (44 - 54))%Q) with (1 # 1024)%Q in Hb by reflexivity.
    exact Hb.
Qed.

(** [toFixed(2)] of a number within 2^-8 of a two-decimal amount. *)
Lemma toFixed2_near (r : Q) (n : Z) :
  - (2 * 10 ^ 15) < n < 2 * 10 ^ 15 ->
  (- (1 # 256) <= r - inject_Z n * (1 # 100) <= 1 # 256)%Q ->
  toFixed2 (JsNumber.Finite r) = dec n.
Proof.
  intros Hn Hr. apply inject_Z_bounds in Hn.
  change (inject_Z (2 * 10 ^ 15)) with (2000000000000000%Q) in Hn.
  unfold toFixed2.
  change (inject_Z (10 ^ 21)) with (1000000000000000000000%Q).
  destruct (Qle_bool 1000000000000000000000 (Qabs r)) eqn:Ebig.
  - exfalso. apply Qle_bool_iff in Ebig. revert Ebig. apply Qlt_not_le.
    apply Qabs_Qlt_condition. split; lra.
  - unfold dec. f_equal.
    destruct (Qle_bool 0 r) eqn:Es.
    + apply Qle_bool_iff in Es. apply Qfloor_unique.
      * rewrite (Qabs_pos r Es). lra.
      * rewrite (Qabs_pos r Es), inject_Z_plus. change (inject_Z 1) with 1%Q. lra.
    + assert (Hneg : (r < 0)%Q).
      { destruct (Qlt_le_dec r 0) as [H|H]; [exact H|].
        apply Qle_bool_iff in H. rewrite H in Es. discriminate. }
      assert (Hfl : Qfloor (Qabs r * 100 + (1 # 2)) = - n).
      { apply Qfloor_unique.
        - rewrite (Qabs_neg r) by lra. rewrite inject_Z_opp. lra.
        - rewrite (Qabs_neg r) by lra.
          rewrite inject_Z_plus, inject_Z_opp. change (inject_Z 1) with 1%Q. lra. }
      rewrite Hfl. lia.
Qed.

Lemma finite_sum (r1 r2 : Q) (b a : Z) :
  - 10 ^ 15 < b < 10 ^ 15 -> - 10 ^ 15 < a < 10 ^ 15 ->
  (- (1 # 1024) <= r1 - inject_Z b * (1 # 100) <= 1 # 1024)%Q ->
  (- (1 # 1024) <= r2 - inject_Z a * (1 # 100) <= 1 # 1024)%Q ->
  exists r, JsNumber.round (r1 + r2) = JsNumber.Finite r
            /\ (- (1 # 256) <= r - inject_Z (b + a) * (1 # 100) <= 1 # 256)%Q.
Proof.
  intros Hb Ha H1 H2. apply inject_Z_bounds in Hb, Ha.
  change (inject_Z (10 ^ 15)) with (1000000000000000%Q) in Hb, Ha.
  destruct (round_error (r1 + r2) 45) as (r & Hr & Hbd); [lia| |].
  - apply Qabs_Qlt_condition.
    setoid_replace ((2 ^ 45)%Q) with (35184372088832%Q) by reflexivity.
    split; lra.
  - exists r. split; [exact Hr|].
    setoid_replace ((2 ^ (45 - 54))%Q) with (1 # 512)%Q in Hbd by reflexivity.
    rewrite inject_Z_plus. lra.
Qed.

Lemma add_exact (b a : Z) :
  - 10 ^ 15 < b < 10 ^ 15 -> - 10 ^ 15 < a < 10 ^ 15 ->
  toFixed2 (JsNumber.add (parseFloat (dec b)) (parseFloat (dec a))) = dec (b + a).
Proof.
  intros Hb Ha.
  destruct (parseFloat_cents b Hb) as (r1 & -> & H1).
  destruct (parseFloat_cents a Ha) as (r2 & -> & H2).
  simpl. destruct (finite_sum r1 r2 b a Hb Ha H1 H2) as (r & -> & Hr).
  apply toFixed2_near; [lia | exact Hr].
Qed.

Lemma sub_finite (b a : Z) :
  - 10 ^ 15 < b < 10 ^ 15 -> - 10 ^ 15 < a < 10 ^ 15 ->
  exists r,
    JsNumber.sub (parseFloat (dec b)) (parseFloat (dec a)) = JsNumber.Finite r
    /\ (- (1 # 256) <= r - inject_Z (b - a) * (1 # 100) <= 1 # 256)%Q.
Proof.
  intros Hb Ha.
  destruct (parseFloat_cents b Hb) as (r1 & -> & H1).
  destruct (parseFloat_cents a Ha) as (r2 & -> & H2).
  unfold JsNumber.sub. simpl.
  assert (Ha' : - 10 ^ 15 < - a < 10 ^ 15) by lia.
  assert (H2' : (- (1 # 1024) <= Qred (- r2) - inject_Z (- a) * (1 # 100) <= 1 # 1024)%Q).
  { rewrite Qred_correct, inject_Z_opp. lra. }
  destruct (finite_sum r1 (Qred (- r2)) b (- a) Hb Ha' H1 H2') as (r & Hr & Hbd).
  exists r. split; [exact Hr|].
  replace (b - a) with (b + - a) by lia. exact Hbd.
Qed.

Lemma sub_exact (b a : Z) :
  - 10 ^ 15 < b < 10 ^ 15 -> - 10 ^ 15 < a < 10 ^ 15 ->
  toFixed2 (JsNumber.sub (parseFloat (dec b)) (parseFloat (dec a))) = dec (b - a).
Proof.
  intros Hb Ha. destruct (sub_finite b a Hb Ha) as (r & -> & Hr).
  apply toFixed2_near; [lia | exact Hr].
Qed.


Lemma ltb_exact (b a : Z) :
  - 10 ^ 15 < b < 10 ^ 15 -> - 10 ^ 15 < a < 10 ^ 15 ->
  JsNumber.ltb (parseFloat (dec b)) (parseFloat (dec a)) = (b <? a).
Proof.
  intros Hb Ha.
  destruct (Z.eq_dec b a) as [->|Hne].
  - rewrite Z.ltb_irrefl.
    destruct (parseFloat_cents a Ha) as (r & -> & _). simpl.
    assert (Hle : (r <= r)%Q) by apply Qle_refl.
    apply Qle_bool_iff in Hle. rewrite Hle. reflexivity.
  - destruct (parseFloat_cents b Hb) as (r1 & -> & H1).
    destruct (parseFloat_cents a Ha) as (r2 & -> & H2). simpl.
    destruct (Z.ltb_spec b a) as [Hlt|Hge].
    + assert (Hq : (inject_Z b + 1 <= inject_Z a)%Q).
      { change 1%Q with (inject_Z 1). rewrite <- inject_Z_plus, <- Zle_Qle. lia. }
      destruct (Qle_bool r2 r1) eqn:E; [|reflexivity].
      apply Qle_bool_iff in E. exfalso. lra.
    + assert (Hq : (inject_Z a + 1 <= inject_Z b)%Q).
      { change 1%Q with (inject_Z 1). rewrite <- inject_Z_plus, <- Zle_Qle. lia. }
      assert (Hle : (r2 <= r1)%Q) by lra.
      apply Qle_bool_iff in Hle. rewrite Hle. reflexivity.
Qed.

Lemma roundHalfAway_integer (x : Q) (n : Z) :
  (x == inject_Z n)%Q -> Column.roundHalfAway x = n.
Proof.
  intros Hx. unfold Column.roundHalfAway.
  destruct (Qle_bool 0 x) eqn:E.
  - apply Qfloor_unique.
    + lra.
    + rewrite inject_Z_plus. change (inject_Z 1) with 1%Q. lra.
  - assert (H : Qfloor (- x + (1 # 2)) = - n).
    { apply Qfloor_unique.
      - rewrite inject_Z_opp. lra.
      - rewrite inject_Z_plus, inject_Z_opp. change (inject_Z 1) with 1%Q. lra. }
    rewrite H. lia.
Qed.

Lemma numeric_hundredths (p : Z) (s : Decimal) (n : Z) :
  hundredthsOf s = Some n ->
  Column.numeric p s
  = if 10 ^ p <=? Z.abs n then Err (ErrorMessage "numeric field overflow")
    else Ok (dec n).
Proof.
  intros H. destruct (hundredthsOf_value s n H) as (u & k & -> & Hv).
  unfold Column.numeric.
  rewrite (roundHalfAway_integer (numeralValue u k * 100) n); [reflexivity|].
  rewrite Hv. field.
Qed.

Lemma hundredthsOf_dec (n : Z) : hundredthsOf (dec n) = Some n.
Proof.
  unfold hundredthsOf, dec. change (10 ^ Z.of_nat 2) with 100.
  rewrite Z.mod_mul by lia. rewrite Z.div_mul by lia. reflexivity.
Qed.

Lemma numeric_fits (s : Decimal) (n : Z) :
  hundredthsOf s = Some n -> inRange15 n -> Column.numeric 15 s = Ok (dec n).
Proof.
  intros H Hn. rewrite (numeric_hundredths 15 s n H).
  unfold inRange15 in Hn.
  destruct (Z.leb_spec (10 ^ 15) (Z.abs n)) as [Hge|_]; [lia | reflexivity].
Qed.

Lemma numeric_dec (n : Z) : inRange15 n -> Column.numeric 15 (dec n) = Ok (dec n).
Proof. apply numeric_fits. apply hundredthsOf_dec. Qed.

(** What a [decimal(15, 2)] column accepts of a two-decimal numeral is in
    range. *)
Lemma numeric_ok_inRange (s d : Decimal) (n : Z) :
  hundredthsOf s = Some n -> Column.numeric 15 s = Ok d -> d = dec n /\ inRange15 n.
Proof.
  intros H. rewrite (numeric_hundredths 15 s n H). unfold inRange15.
  destruct (Z.leb_spec (10 ^ 15) (Z.abs n)) as [Hge|Hlt]; [discriminate|].
  intros E. injection E as <-. split; [reflexivity | lia].
Qed.

Lemma varchar_fits (n : nat) (s : string) :
  Column.fits n s = true -> Column.varchar n s = Ok s.
Proof. unfold Column.fits, Column.varchar. intros ->. reflexivity. Qed.

Lemma optVarchar_fits (n : nat) (s : option string) :
  Column.optFits n s = true -> Column.optVarchar n s = Ok s.
Proof.
  destruct s as [v|]; simpl; [|reflexivity].
  intros H. rewrite (varchar_fits n v H). reflexivity.
Qed.

(** The exact arithmetic, on the texts the code handles. *)
Lemma balance_add_exact (s : Decimal) (b a : Z) :
  hundredthsOf s = Some a -> inRange15 b -> inRange15 a ->
  toFixed2 (JsNumber.add (parseFloat (dec b)) (parseFloat s)) = dec (b + a).
Proof.
  intros H Hb Ha. rewrite (parseFloat_hundredths s a H). apply add_exact; assumption.
Qed.

Lemma balance_sub_exact (s : Decimal) (b a : Z) :
  hundredthsOf s = Some a -> inRange15 b -> inRange15 a ->
  toFixed2 (JsNumber.sub (parseFloat (dec b)) (parseFloat s)) = dec (b - a).
Proof.
  intros H Hb Ha. rewrite (parseFloat_hundredths s a H). apply sub_exact; assumption.
Qed.


Lemma amounts_sub_exact (s f : Decimal) (a c : Z) :
  hundredthsOf s = Some a -> hundredthsOf f = Some c ->
  inRange15 a -> inRange15 c ->
  toFixed2 (JsNumber.sub (parseFloat s) (parseFloat f)) = dec (a - c).
Proof.
  intros Hs Hf Ha Hc.
  rewrite (parseFloat_hundredths s a Hs), (parseFloat_hundredths f c Hf).
  apply sub_exact; assumption.
Qed.

Lemma balance_ltb_exact (s : Decimal) (b a : Z) :
  hundredthsOf s = Some a -> inRange15 b -> inRange15 a ->
  JsNumber.ltb (parseFloat (dec b)) (parseFloat s) = (b <? a).
Proof.
  intros H Hb Ha. rewrite (parseFloat_hundredths s a H). apply ltb_exact; assumption.
Qed.

Arguments parseFloat : simpl never.
Arguments toFixed2 : simpl never.
Arguments JsNumber.round : simpl never.
Arguments JsNumber.add : simpl never.
Arguments JsNumber.sub : simpl never.
Arguments JsNumber.ltb : simpl never.
Arguments JsNumber.max0 : simpl never.
Arguments Column.numeric : simpl never.
Arguments Column.varchar : simpl never.
Arguments hundredthsOf : simpl never.
(** ** The wallet ledger *)

Lemma sumSigned_from (l : list WalletTx.t) (a : Z) :
  fold_left (fun acc t => acc + signedAmount t) l a = a + sumSigned l.
Proof.
  unfold sumSigned. revert a.
  induction l as [|t l IH]; intros a; simpl.
  - lia.
  - rewrite IH, (IH (signedAmount t)). lia.
Qed.

Lemma sumSigned_snoc (l : list WalletTx.t) (t : WalletTx.t) :
  sumSigned (l ++ [t]) = sumSigned l + signedAmount t.
Proof.
  unfold sumSigned. rewrite fold_left_app. reflexivity.
Qed.

Lemma runningFrom_snoc (l : list WalletTx.t) (t : WalletTx.t) (a : Z) :
  runningFrom a l ->
  WalletTx.balanceAfter t = dec (a + sumSigned l + signedAmount t) ->
  runningFrom a (l ++ [t]).
Proof.
  revert a. induction l as [|x l IH]; intros a Hl Ht; simpl in *.
  - split; [|exact I]. unfold sumSigned in Ht. simpl in Ht. rewrite Ht. f_equal. lia.
  - destruct Hl as [Hx Hl]. split; [exact Hx|].
    apply IH; [exact Hl|].
    unfold sumSigned in Ht. simpl in Ht. rewrite sumSigned_from in Ht.
    rewrite Ht. f_equal. lia.
Qed.

Lemma walletExists_rows (walletId : Z) (db : Db) :
  DatabaseStorage.walletExists walletId db = true <-> walletRows walletId db <> [].
Proof.
  unfold DatabaseStorage.walletExists, walletRows.
  induction (Sql.rows (digitalWallets db)) as [|w l IH]; simpl.
  - split; [discriminate | congruence].
  - destruct (Wallet.id w =? walletId); simpl.
    + split; [discriminate | reflexivity].
    + exact IH.
Qed.

(** What the insert into the ledger does, case by case: a value is refused
    and nothing happens; or the wallet is missing and the serial value is
    spent; or the row is added. *)
Lemma insertWalletTransaction_cases walletId tx bal now db :
  (exists e, DatabaseStorage.insertWalletTransaction walletId tx bal now db = (Err e, db))
  \/ (DatabaseStorage.walletExists walletId db = false
      /\ DatabaseStorage.insertWalletTransaction walletId tx bal now db
         = (Err (ForeignKeyViolation "wallet_transactions" "wallet_id"),
            with_walletTransactions Sql.skipId db))
  \/ (DatabaseStorage.walletExists walletId db = true
      /\ exists r,
           DatabaseStorage.insertWalletTransaction walletId tx bal now db
           = (Ok r,
              with_walletTransactions
                (fun t => Sql.mkTable (Sql.rows t ++ [r]) (Sql.nextId t + 1)) db)
           /\ WalletTx.walletId r = walletId
           /\ WalletTx.id r = Sql.nextId (walletTransactions db)
           /\ Column.varchar 20 (WalletTx.i_transactionType tx)
              = Ok (WalletTx.transactionType r)
           /\ Column.numeric 15 (WalletTx.i_amount tx) = Ok (WalletTx.amount r)
           /\ Column.numeric 15 bal = Ok (WalletTx.balanceAfter r)
           /\ WalletTx.status r = orDefault (WalletTx.status r) "completed"
           /\ WalletTx.sourceId r = WalletTx.i_sourceId tx).
Proof.
  unfold DatabaseStorage.insertWalletTransaction, bind, Column.lift.
  destruct (Column.varchar 20 (WalletTx.i_transactionType tx)) as [ty|e];
    [|left; exists e; reflexivity].
  destruct (Column.numeric 15 (WalletTx.i_amount tx)) as [am|e];
    [|left; exists e; reflexivity].
  destruct (Column.optVarchar 3 (WalletTx.i_currency tx)) as [cu|e];
    [|left; exists e; reflexivity].
  destruct (Column.optVarchar 100 (WalletTx.i_referenceId tx)) as [re|e];
    [|left; exists e; reflexivity].
  destruct (Column.optVarchar 50 (WalletTx.i_sourceType tx)) as [so|e];
    [|left; exists e; reflexivity].
  destruct (Column.optVarchar 20 (WalletTx.i_status tx)) as [st|e];
    [|left; exists e; reflexivity].
  destruct (Column.numeric 15 bal) as [ba|e]; [|left; exists e; reflexivity].
  destruct (DatabaseStorage.walletExists walletId db) eqn:E; simpl.
  - right. right. split; [reflexivity|]. eexists. split; [reflexivity|].
    simpl. repeat split. destruct st; reflexivity.
  - right. left. split; reflexivity.
Qed.

Lemma setWalletBalance_ok walletId bal d now db :
  Column.numeric 15 bal = Ok d ->
  DatabaseStorage.setWalletBalance walletId bal now db
  = (Ok tt,
     with_wallets
       (Sql.updateWhere (fun w => Wallet.id w =? walletId) (Wallet.touch d now)) db).
Proof.
  intros H. unfold DatabaseStorage.setWalletBalance, bind, Column.lift, modify.
  rewrite H. reflexivity.
Qed.

Lemma setWalletBalance_err walletId bal e now db :
  Column.numeric 15 bal = Err e ->
  DatabaseStorage.setWalletBalance walletId bal now db = (Err e, db).
Proof.
  intros H. unfold DatabaseStorage.setWalletBalance, bind, Column.lift.
  rewrite H. reflexivity.
Qed.

(** What a call of [addWalletTransaction] does, case by case. *)
Lemma addWalletTransaction_cases walletId tx now db :
  (exists e, DatabaseStorage.addWalletTransaction walletId tx now db = (Err e, db))
  \/ (DatabaseStorage.walletExists walletId db = false
      /\ DatabaseStorage.addWalletTransaction walletId tx now db
         = (Err (ForeignKeyViolation "wallet_transactions" "wallet_id"),
            with_walletTransactions Sql.skipId db))
  \/ (DatabaseStorage.walletExists walletId db = true
      /\ exists r,
           DatabaseStorage.addWalletTransaction walletId tx now db
           = (Ok r,
              with_wallets
                (Sql.updateWhere (fun w => Wallet.id w =? walletId)
                   (Wallet.touch (WalletTx.balanceAfter r) now))
                (with_walletTransactions
                   (fun t => Sql.mkTable (Sql.rows t ++ [r]) (Sql.nextId t + 1)) db))
           /\ WalletTx.walletId r = walletId
           /\ WalletTx.id r = Sql.nextId (walletTransactions db)
           /\ Column.varchar 20 (WalletTx.i_transactionType tx)
              = Ok (WalletTx.transactionType r)
           /\ Column.numeric 15 (WalletTx.i_amount tx) = Ok (WalletTx.amount r)
           /\ Column.numeric 15 (newBalanceOf walletId tx db)
              = Ok (WalletTx.balanceAfter r)
           /\ WalletTx.sourceId r = WalletTx.i_sourceId tx).
Proof.
  unfold DatabaseStorage.addWalletTransaction, bind, gets, ret.
  fold (newBalanceOf walletId tx db).
  destruct (insertWalletTransaction_cases walletId tx (newBalanceOf walletId tx db) now db)
    as [[e H]|[[E H]|[E (r & H & Hw & Hid & Hty & Ham & Hbal & _ & Hsrc)]]].
  - left. exists e. rewrite H. reflexivity.
  - right. left. split; [exact E|]. rewrite H. reflexivity.
  - right. right. split; [exact E|]. exists r. rewrite H.
    rewrite (setWalletBalance_ok _ _ _ _ _ Hbal).
    split; [reflexivity|]. repeat split; assumption.
Qed.

(** A call with an amount of [a] hundredths, on a wallet that exists with a
    balance of [b] hundredths, when all fits. *)
Lemma addWalletTransaction_fits walletId tx now db (b a : Z) :
  DatabaseStorage.walletExists walletId db = true ->
  DatabaseStorage.getWalletBalance walletId db = dec b ->
  inRange15 b ->
  columnsFit tx = true ->
  hundredthsOf (WalletTx.i_amount tx) = Some a ->
  inRange15 a ->
  inRange15 (b + signedCall tx a) ->
  DatabaseStorage.addWalletTransaction walletId tx now db
  = (Ok (rowOf walletId tx now a (b + signedCall tx a) db),
     ledgerStep walletId tx now a (b + signedCall tx a) db).
Proof.
  intros Hex Hbal Hb Hfit Ha Hra Hrn.
  assert (Hnew : newBalanceOf walletId tx db = dec (b + signedCall tx a)).
  { unfold newBalanceOf, signedCall. rewrite Hbal.
    destruct (String.eqb (WalletTx.i_transactionType tx) "credit").
    - apply balance_add_exact; assumption.
    - rewrite (balance_sub_exact _ b a Ha Hb Hra). f_equal. }
  unfold columnsFit in Hfit.
  repeat (apply andb_true_iff in Hfit; destruct Hfit as [Hfit ?]).
  unfold DatabaseStorage.addWalletTransaction, bind, gets, ret.
  fold (newBalanceOf walletId tx db). rewrite Hnew.
  unfold DatabaseStorage.insertWalletTransaction, bind, Column.lift.
  rewrite (varchar_fits _ _ Hfit), (numeric_fits _ _ Ha Hra).
  rewrite !optVarchar_fits by assumption.
  rewrite (numeric_dec _ Hrn), Hex. cbn [negb Sql.insertRow].
  rewrite (setWalletBalance_ok _ _ _ _ _ (numeric_dec _ Hrn)).
  reflexivity.
Qed.

Lemma walletRows_update wid wid' b now db :
  filter (fun w => Wallet.id w =? wid)
    (map (fun r => if Wallet.id r =? wid' then Wallet.touch b now r else r)
       (Sql.rows (digitalWallets db)))
  = if wid =? wid' then map (Wallet.touch b now) (walletRows wid db)
    else walletRows wid db.
Proof.
  unfold walletRows.
  induction (Sql.rows (digitalWallets db)) as [|w l IH]; simpl.
  - destruct (wid =? wid'); reflexivity.
  - destruct (Wallet.id w =? wid') eqn:E1; simpl;
      destruct (Wallet.id w =? wid) eqn:E2; simpl; rewrite IH;
      destruct (wid =? wid') eqn:E3; simpl; try reflexivity; lia.
Qed.

Lemma getWalletBalance_inv wid db :
  ledgerInv wid db ->
  DatabaseStorage.getWalletBalance wid db = dec (sumSigned (ledgerOf wid db)).
Proof.
  intros (Hne & Hbal & _).
  unfold DatabaseStorage.getWalletBalance, Sql.first, Sql.selectWhere.
  fold (walletRows wid db).
  destruct (walletRows wid db) as [|w l] eqn:E; [congruence|]. simpl.
  rewrite (Hbal w (or_introl eq_refl)). reflexivity.
Qed.

(** A call on another wallet leaves the rows and the ledger of this one. *)
Lemma addWalletTransaction_other wid wid' tx now db :
  wid' <> wid ->
  let db' := snd (DatabaseStorage.addWalletTransaction wid' tx now db) in
  ledgerOf wid db' = ledgerOf wid db /\ walletRows wid db' = walletRows wid db.
Proof.
  intros Hne db'. unfold db'.
  destruct (addWalletTransaction_cases wid' tx now db)
    as [[e H]|[[E H]|[E (r & H & Hw & _)]]]; rewrite H; simpl.
  - split; reflexivity.
  - split; reflexivity.
  - split.
    + unfold ledgerOf. simpl. rewrite filter_app. simpl. rewrite Hw.
      assert ((wid' =? wid) = false) as -> by lia. apply app_nil_r.
    + unfold walletRows at 1. simpl. rewrite walletRows_update.
      assert ((wid =? wid') = false) as -> by lia. reflexivity.
Qed.




Lemma createWallet_ok userId walletType now db w db1 :
  DatabaseStorage.createWallet userId walletType now db = (Ok w, db1) ->
  Wallet.id w = Sql.nextId (digitalWallets db)
  /\ Wallet.balance w = Some (dec 0)
  /\ Sql.rows (digitalWallets db1) = Sql.rows (digitalWallets db) ++ [w]
  /\ walletTransactions db1 = walletTransactions db.
Proof.
  unfold DatabaseStorage.createWallet, DatabaseStorage.insertWallet, bind, Column.lift.
  destruct (Column.varchar 100 _) as [ad|]; [|discriminate].
  destruct (Column.varchar 50 walletType) as [ty|]; [|discriminate].
  assert (Hz : Column.numeric 15 (dec 0) = Ok (dec 0)).
  { apply numeric_dec. unfold inRange15. lia. }
  rewrite Hz.
  destruct (Column.varchar 3 "USD") as [cu|]; [|discriminate].
  destruct (existsb _ _); [discriminate|].
  destruct (negb (DatabaseStorage.userExists userId db)); [discriminate|].
  simpl. intros H. injection H as <- <-. simpl. repeat split.
Qed.

Lemma createWallet_next userId walletType now db w db1 :
  DatabaseStorage.createWallet userId walletType now db = (Ok w, db1) ->
  Sql.nextId (digitalWallets db1) = Sql.nextId (digitalWallets db) + 1.
Proof.
  unfold DatabaseStorage.createWallet, DatabaseStorage.insertWallet, bind, Column.lift.
  destruct (Column.varchar 100 _) as [ad|]; [|discriminate].
  destruct (Column.varchar 50 walletType) as [ty|]; [|discriminate].
  destruct (Column.numeric 15 (dec 0)) as [ba|]; [|discriminate].
  destruct (Column.varchar 3 "USD") as [cu|]; [|discriminate].
  destruct (existsb _ _); [discriminate|].
  destruct (negb (DatabaseStorage.userExists userId db)); [discriminate|].
  simpl. intros H. injection H as _ <-. reflexivity.
Qed.

(** A call of [createWallet] that fails leaves the rows of the wallet
    tables; it may have spent a serial value. *)
Lemma createWallet_failed userId walletType now db e db1 :
  DatabaseStorage.createWallet userId walletType now db = (Err e, db1) ->
  db1 = db \/ db1 = with_wallets Sql.skipId db.
Proof.
  unfold DatabaseStorage.createWallet, DatabaseStorage.insertWallet, bind, Column.lift.
  destruct (Column.varchar 100 _) as [ad|];
    [|intros H; injection H as _ <-; left; reflexivity].
  destruct (Column.varchar 50 walletType) as [ty|];
    [|intros H; injection H as _ <-; left; reflexivity].
  destruct (Column.numeric 15 (dec 0)) as [ba|];
    [|intros H; injection H as _ <-; left; reflexivity].
  destruct (Column.varchar 3 "USD") as [cu|];
    [|intros H; injection H as _ <-; left; reflexivity].
  destruct (existsb _ _); [intros H; injection H as _ <-; right; reflexivity|].
  destruct (negb (DatabaseStorage.userExists userId db));
    [intros H; injection H as _ <-; right; reflexivity|].
  simpl. discriminate.
Qed.

Lemma filter_none {A} (f : A -> bool) (l : list A) :
  (forall x, In x l -> f x = false) -> filter f l = [].
Proof.
  induction l as [|x l IH]; intros H; simpl; [reflexivity|].
  rewrite (H x (or_introl eq_refl)). apply IH. intros y Hy. apply H. right. exact Hy.
Qed.

Lemma createWallet_inv userId walletType now db w db1 :
  walletSerialAhead db ->
  DatabaseStorage.createWallet userId walletType now db = (Ok w, db1) ->
  ledgerInv (Wallet.id w) db1 /\ ledgerOf (Wallet.id w) db1 = [].
Proof.
  intros [Hw Ht] Hc.
  destruct (createWallet_ok _ _ _ _ _ _ Hc) as (Hid & Hbal & Hrows & Htx).
  assert (Hled : ledgerOf (Wallet.id w) db1 = []).
  { unfold ledgerOf. rewrite Htx. apply filter_none.
    intros t Hin. specialize (Ht t Hin). lia. }
  assert (Hrw : walletRows (Wallet.id w) db1 = [w]).
  { unfold walletRows. rewrite Hrows, filter_app. simpl. rewrite Z.eqb_refl.
    rewrite filter_none; [reflexivity|].
    intros x Hin. specialize (Hw x Hin). lia. }
  split; [|exact Hled].
  unfold ledgerInv. rewrite Hrw, Hled. repeat split.
  - discriminate.
  - intros w0 [<-|[]]. exact Hbal.
Qed.

(** [walletSerialAhead] holds of the empty database and is kept by the
    wallet operations: it is an invariant of the store. *)
Lemma walletSerialAhead_empty : walletSerialAhead emptyDb.
Proof. split; intros x []. Qed.

Lemma walletSerialAhead_skip db :
  walletSerialAhead db -> walletSerialAhead (with_wallets Sql.skipId db).
Proof.
  intros [Hw Ht]. split; simpl.
  - intros x Hin. specialize (Hw x Hin). lia.
  - intros t Hin. specialize (Ht t Hin). lia.
Qed.

Lemma walletSerialAhead_createWallet userId walletType now db :
  walletSerialAhead db ->
  walletSerialAhead (snd (DatabaseStorage.createWallet userId walletType now db)).
Proof.
  intros Ha.
  destruct (DatabaseStorage.createWallet userId walletType now db) as [[w|e] db1] eqn:Hc;
    simpl.
  - destruct Ha as [Hw Ht].
    destruct (createWallet_ok _ _ _ _ _ _ Hc) as (Hid & _ & Hrows & Htx).
    pose proof (createWallet_next _ _ _ _ _ _ Hc) as Hnext.
    split.
    + intros x Hin. rewrite Hrows in Hin. apply in_app_or in Hin. rewrite Hnext.
      destruct Hin as [Hin|[<-|[]]]; [specialize (Hw x Hin)|]; lia.
    + intros t Hin. rewrite Htx in Hin. rewrite Hnext. specialize (Ht t Hin). lia.
  - destruct (createWallet_failed _ _ _ _ _ _ Hc) as [->| ->];
      [exact Ha | apply walletSerialAhead_skip; exact Ha].
Qed.

Lemma walletSerialAhead_addWalletTransaction walletId tx now db :
  walletSerialAhead db ->
  walletSerialAhead (snd (DatabaseStorage.addWalletTransaction walletId tx now db)).
Proof.
  intros [Hw Ht].
  destruct (addWalletTransaction_cases walletId tx now db)
    as [[e H]|[[E H]|[E (r & H & Hr & _)]]]; rewrite H; simpl.
  - split; assumption.
  - split; assumption.
  - split.
    + intros x Hin. apply in_map_iff in Hin. destruct Hin as (x0 & <- & Hin).
      specialize (Hw x0 Hin). destruct (Wallet.id x0 =? walletId); simpl; exact Hw.
    + intros t Hin. apply in_app_or in Hin. destruct Hin as [Hin|[<-|[]]].
      * exact (Ht t Hin).
      * rewrite Hr. unfold DatabaseStorage.walletExists in E.
        apply existsb_exists in E. destruct E as (x & Hin & Hx).
        apply Z.eqb_eq in Hx. subst walletId. exact (Hw x Hin).
Qed.




Example demo_balance_after_calls :
  showDecimal (DatabaseStorage.getWalletBalance 1 (addAll demoCalls demoDbWithWallet))
  = Some "69.50".
Proof. vm_compute. reflexivity. Qed.

(** ** Debits, credits and withdrawals *)

Lemma getWalletBalance_touched wid b now db :
  DatabaseStorage.walletExists wid db = true ->
  DatabaseStorage.getWalletBalance wid
    (with_wallets
       (Sql.updateWhere (fun w => Wallet.id w =? wid) (Wallet.touch (dec b) now)) db)
  = dec b.
Proof.
  intros H. apply walletExists_rows in H.
  unfold DatabaseStorage.getWalletBalance, Sql.first, Sql.selectWhere. simpl.
  rewrite walletRows_update, Z.eqb_refl.
  destruct (walletRows wid db); [congruence | reflexivity].
Qed.

(** The outcome of [addWalletTransaction] on a wallet that holds [b]
    hundredths, for an amount of [a] hundredths, when all fits. *)
Lemma addWalletTransaction_result wid tx now db (b a : Z) :
  DatabaseStorage.walletExists wid db = true ->
  DatabaseStorage.getWalletBalance wid db = dec b ->
  inRange15 b ->
  columnsFit tx = true ->
  hundredthsOf (WalletTx.i_amount tx) = Some a ->
  inRange15 a ->
  inRange15 (b + signedCall tx a) ->
  exists t db',
    DatabaseStorage.addWalletTransaction wid tx now db = (Ok t, db')
    /\ Sql.rows (walletTransactions db') = Sql.rows (walletTransactions db) ++ [t]
    /\ WalletTx.walletId t = wid
    /\ WalletTx.transactionType t = WalletTx.i_transactionType tx
    /\ WalletTx.amount t = dec a
    /\ WalletTx.balanceAfter t = dec (b + signedCall tx a)
    /\ WalletTx.status t = orDefault (WalletTx.i_status tx) "completed"
    /\ WalletTx.sourceId t = WalletTx.i_sourceId tx
    /\ DatabaseStorage.getWalletBalance wid db' = dec (b + signedCall tx a)
    /\ walletWithdrawals db' = walletWithdrawals db.
Proof.
  intros Hex Hbal Hb Hfit Ha Hra Hrn.
  exists (rowOf wid tx now a (b + signedCall tx a) db),
         (ledgerStep wid tx now a (b + signedCall tx a) db).
  split; [apply addWalletTransaction_fits; assumption|].
  repeat split.
  unfold ledgerStep. apply getWalletBalance_touched. exact Hex.
Qed.





Lemma orElse_fits (n : nat) (s : option string) (d : string) :
  Column.optFits n s = true -> Column.fits n d = true ->
  Column.fits n (Js.orElse s d) = true.
Proof.
  intros Hs Hd. destruct s as [v|]; simpl; [|exact Hd].
  destruct (Js.truthy v); [exact Hs | exact Hd].
Qed.

Lemma feeOf_hundredths (w : Withdrawal.insert) (f : Z) :
  feeHundredths w = Some f -> hundredthsOf (feeOf w) = Some f.
Proof.
  unfold feeHundredths, feeOf, textOr.
  destruct (Withdrawal.i_transactionFee w) as [v|]; [|intros H; exact H].
  destruct v; try discriminate. intros H; exact H.
Qed.

(** What the insert of a withdrawal does when all fits. *)
Lemma insertWithdrawal_fits walletId w net now db (a f n : Z) (m : string) :
  DatabaseStorage.walletExists walletId db = true ->
  hundredthsOf (Withdrawal.i_amount w) = Some a ->
  inRange15 a ->
  feeHundredths w = Some f ->
  Z.abs f < 10 ^ 10 ->
  Withdrawal.i_withdrawalMethod w = Some m ->
  withdrawalFits w = true ->
  net = dec n ->
  inRange15 n ->
  exists wd,
    DatabaseStorage.insertWithdrawal walletId w net now db
    = (Ok wd,
       with_walletWithdrawals
         (fun t => Sql.mkTable (Sql.rows t ++ [wd]) (Sql.nextId t + 1)) db)
    /\ Withdrawal.id wd = Sql.nextId (walletWithdrawals db)
    /\ Withdrawal.walletId wd = walletId
    /\ Withdrawal.amount wd = dec a
    /\ Withdrawal.netAmount wd = dec n
    /\ Withdrawal.withdrawalMethod wd = m
    /\ Withdrawal.status wd = orDefault (Withdrawal.i_status w) "pending".
Proof.
  intros Hex Ha Hra Hf Hrf Hm Hfit -> Hn.
  unfold withdrawalFits in Hfit.
  repeat (apply andb_true_iff in Hfit; destruct Hfit as [Hfit ?]).
  unfold DatabaseStorage.insertWithdrawal, bind, Column.lift.
  rewrite (numeric_fits _ _ Ha Hra).
  rewrite !optVarchar_fits by assumption.
  assert (Hfee : exists fee, Column.optNumeric 10 (Withdrawal.i_transactionFee w) = Ok fee).
  { unfold feeHundredths in Hf.
    destruct (Withdrawal.i_transactionFee w) as [v|]; [|exists None; reflexivity].
    simpl. rewrite (numeric_hundredths 10 v f Hf).
    destruct (Z.leb_spec (10 ^ 10) (Z.abs f)) as [Hge|_]; [lia|].
    eexists. reflexivity. }
  destruct Hfee as (fee & ->).
  rewrite (numeric_dec _ Hn), Hm, Hex. cbn [negb Sql.insertRow].
  eexists. split; [reflexivity|]. repeat split.
Qed.

(** The outcome of [createWithdrawal] when all fits. *)
Lemma createWithdrawal_fits walletId withdrawal now db (b a f : Z) (m : string) :
  DatabaseStorage.walletExists walletId db = true ->
  DatabaseStorage.getWalletBalance walletId db = dec b ->
  inRange15 b ->
  hundredthsOf (Withdrawal.i_amount withdrawal) = Some a ->
  inRange15 a ->
  feeHundredths withdrawal = Some f ->
  Z.abs f < 10 ^ 10 ->
  Withdrawal.i_withdrawalMethod withdrawal = Some m ->
  withdrawalFits withdrawal = true ->
  inRange15 (a - f) ->
  inRange15 (b - a) ->
  exists wd t db',
    DatabaseStorage.createWithdrawal walletId withdrawal now db = (Ok wd, db')
    /\ Withdrawal.amount wd = dec a
    /\ Withdrawal.netAmount wd = dec (a - f)
    /\ Withdrawal.walletId wd = walletId
    /\ Sql.rows (walletWithdrawals db') = Sql.rows (walletWithdrawals db) ++ [wd]
    /\ Sql.rows (walletTransactions db') = Sql.rows (walletTransactions db) ++ [t]
    /\ WalletTx.walletId t = walletId
    /\ WalletTx.transactionType t = "debit"
    /\ WalletTx.amount t = dec a
    /\ WalletTx.status t = Some "pending"
    /\ WalletTx.sourceId t = Some (Withdrawal.id wd)
    /\ WalletTx.balanceAfter t = dec (b - a)
    /\ digitalWallets db'
       = Sql.updateWhere (fun x => Wallet.id x =? walletId)
           (Wallet.touch (dec (b - a)) now) (digitalWallets db)
    /\ DatabaseStorage.getWalletBalance walletId db' = dec (b - a).
Proof.
  intros Hex Hbal Hb Ha Hra Hf Hrf Hm Hfit Hnet Hleft.
  assert (Hrf15 : inRange15 f).
  { unfold inRange15. assert (10 ^ 10 < 10 ^ 15) by (apply Z.pow_lt_mono_r; lia). lia. }
  assert (Hnum : toFixed2
                   (JsNumber.sub (parseFloat (Withdrawal.i_amount withdrawal))
                      (parseFloat (textOr (Withdrawal.i_transactionFee withdrawal) (Num 0 0))))
                 = dec (a - f)).
  { apply amounts_sub_exact; try assumption. apply feeOf_hundredths. exact Hf. }
  destruct (insertWithdrawal_fits walletId withdrawal (dec (a - f)) now db a f (a - f) m
              Hex Ha Hra Hf Hrf Hm Hfit eq_refl Hnet)
    as (wd & Hins & Hid & Hwid & Hamt & Hnetwd & _).
  unfold DatabaseStorage.createWithdrawal, bind, ret.
  rewrite Hnum, Hins.
  match goal with
  | |- context [DatabaseStorage.addWalletTransaction ?w ?tx ?n ?d] =>
      assert (Hrun : DatabaseStorage.addWalletTransaction w tx n d
                     = (Ok (rowOf w tx n a (b + signedCall tx a) d),
                        ledgerStep w tx n a (b + signedCall tx a) d))
  end.
  { apply addWalletTransaction_fits; try assumption.
    unfold columnsFit. cbn [WalletTx.i_transactionType WalletTx.i_currency
      WalletTx.i_referenceId WalletTx.i_sourceType WalletTx.i_status Column.optFits].
    unfold withdrawalFits in Hfit.
    repeat (apply andb_true_iff in Hfit; destruct Hfit as [Hfit ?]).
    rewrite (orElse_fits 3 _ "USD" Hfit eq_refl). reflexivity. }
  rewrite Hrun. unfold signedCall. cbn [WalletTx.i_transactionType String.eqb].
  change (String.eqb "debit" "credit") with false. cbv iota.
  replace (b + - a) with (b - a) by lia.
  eexists. eexists. eexists. split; [reflexivity|].
  split; [exact Hamt|]. split; [exact Hnetwd|]. split; [exact Hwid|].
  repeat split.
  unfold ledgerStep. apply getWalletBalance_touched. exact Hex.
Qed.

(** C4, as stated, fails: a withdrawal of ["100.005"] with a fee of
    ["2.50"] comes back with amount 100.01 and net amount 97.50, which is
    neither 100.005 - 2.50 nor 100.01 - 2.50, and the ledger row carries
    100.01, not the amount asked for. *)
Lemma withdrawal_of_100_005_net_amount_off :
  exists wd db',
    DatabaseStorage.createWithdrawal 1 withdraw100005 today demoDbWithWallet = (Ok wd, db')
    /\ Withdrawal.amount wd = dec 10001
    /\ Withdrawal.transactionFee wd = Some (dec 250)
    /\ Withdrawal.netAmount wd = dec 9750
    /\ map WalletTx.amount (ledgerOf 1 db') = [dec 10001]
    /\ ~ (numeralValue 9750 2 == numeralValue 100005 3 - numeralValue 250 2)%Q
    /\ ~ (numeralValue 9750 2 == numeralValue 10001 2 - numeralValue 250 2)%Q.
Proof.
  eexists. eexists. split; [vm_compute; reflexivity|].
  repeat split; intros H; vm_compute in H; discriminate.
Qed.

(** C4, amended. Take a wallet that exists and holds [b] hundredths, and a
    withdrawal with a method, an amount of [a] hundredths and a fee of [f]
    hundredths (0 when none is given), both written with at most two
    decimals, where the strings fit their columns and amount, fee, net
    amount and the balance left fit theirs. [createWithdrawal] returns a
    withdrawal with that amount and [netAmount = a - f], and adds exactly one
    row to the ledger, on that wallet: a debit of the full amount, with
    status pending, pointing at the withdrawal. *)
Theorem createWithdrawal_net_amount_and_single_debit :
  forall walletId (withdrawal : Withdrawal.insert) now db (b a f : Z) (m : string),
    DatabaseStorage.walletExists walletId db = true ->
    DatabaseStorage.getWalletBalance walletId db = dec b ->
    inRange15 b ->
    hundredthsOf (Withdrawal.i_amount withdrawal) = Some a ->
    inRange15 a ->
    feeHundredths withdrawal = Some f ->
    Z.abs f < 10 ^ 10 ->
    Withdrawal.i_withdrawalMethod withdrawal = Some m ->
    withdrawalFits withdrawal = true ->
    inRange15 (a - f) ->
    inRange15 (b - a) ->
    exists wd t db',
      DatabaseStorage.createWithdrawal walletId withdrawal now db = (Ok wd, db')
      /\ Withdrawal.amount wd = dec a
      /\ Withdrawal.netAmount wd = dec (a - f)
      /\ Withdrawal.walletId wd = walletId
      /\ Sql.rows (walletWithdrawals db') = Sql.rows (walletWithdrawals db) ++ [wd]
      /\ Sql.rows (walletTransactions db') = Sql.rows (walletTransactions db) ++ [t]
      /\ WalletTx.walletId t = walletId
      /\ WalletTx.transactionType t = "debit"
      /\ WalletTx.amount t = dec a
      /\ WalletTx.status t = Some "pending"
      /\ WalletTx.sourceId t = Some (Withdrawal.id wd)
      /\ WalletTx.balanceAfter t = dec (b - a).
Proof.
  intros walletId withdrawal now db b a f m Hex Hbal Hb Ha Hra Hf Hrf Hm Hfit Hnet Hleft.
  destruct (createWithdrawal_fits walletId withdrawal now db b a f m
              Hex Hbal Hb Ha Hra Hf Hrf Hm Hfit Hnet Hleft)
    as (wd & t & db' & H1 & H2 & H3 & H4 & H5 & H6 & H7 & H8 & H9 & H10 & H11 & H12 & _).
  exists wd, t, db'. repeat split; assumption.
Qed.

Lemma createWithdrawal_net_amount_and_single_debit_witness :
  DatabaseStorage.walletExists 1 demoDbWithWallet = true
  /\ DatabaseStorage.getWalletBalance 1 demoDbWithWallet = dec 0
  /\ hundredthsOf (Withdrawal.i_amount withdraw100) = Some 10000
  /\ feeHundredths withdraw100 = Some 250
  /\ withdrawalFits withdraw100 = true
  /\ exists wd t db',
       DatabaseStorage.createWithdrawal 1 withdraw100 today demoDbWithWallet = (Ok wd, db')
       /\ showDecimal (Withdrawal.netAmount wd) = Some "97.50"
       /\ Sql.rows (walletTransactions db')
          = Sql.rows (walletTransactions demoDbWithWallet) ++ [t]
       /\ WalletTx.transactionType t = "debit"
       /\ showDecimal (WalletTx.amount t) = Some "100.00"
       /\ WalletTx.status t = Some "pending".
Proof.
  assert (He : DatabaseStorage.walletExists 1 demoDbWithWallet = true) by reflexivity.
  assert (Hb : DatabaseStorage.getWalletBalance 1 demoDbWithWallet = dec 0) by reflexivity.
  assert (Ha : hundredthsOf (Withdrawal.i_amount withdraw100) = Some 10000) by reflexivity.
  assert (Hf : feeHundredths withdraw100 = Some 250) by reflexivity.
  assert (Hfit : withdrawalFits withdraw100 = true) by reflexivity.
  split; [exact He|]. split; [exact Hb|]. split; [exact Ha|]. split; [exact Hf|].
  split; [exact Hfit|].
  destruct (createWithdrawal_net_amount_and_single_debit 1 withdraw100 today
              demoDbWithWallet 0 10000 250 "paypal" He Hb)
    as (wd & t & db' & H1 & _ & H2 & _ & _ & H5 & _ & H7 & H8 & H9 & _);
    try reflexivity; try (unfold inRange15; lia).
  exists wd, t, db'. split; [exact H1|].
  split; [rewrite H2; reflexivity|].
  split; [exact H5|]. split; [exact H7|].
  split; [rewrite H8; reflexivity | exact H9].
Defined.
(** ** Referral codes *)

Lemma first_filter_snoc {A} (f : A -> bool) (l : list A) (x : A) :
  filter f l = [] -> f x = true -> Sql.first (filter f (l ++ [x])) = Some x.
Proof.
  intros Hl Hx. rewrite filter_app, Hl. simpl. rewrite Hx. reflexivity.
Qed.

(** [DatabaseStorage.createReferralCode] returns the code a user already
    has: a second call gives the first call's row and writes nothing. *)
Lemma DatabaseStorage_createReferralCode_idempotent userId t1 t2 db c1 db1 :
  DatabaseStorage.createReferralCode userId t1 db = (Ok c1, db1) ->
  DatabaseStorage.createReferralCode userId t2 db1 = (Ok c1, db1).
Proof.
  unfold DatabaseStorage.createReferralCode, bind, gets, ret, Sql.selectWhere.
  destruct (Sql.first (filter _ (Sql.rows (referralCodes db)))) as [c|] eqn:E.
  - intros H. injection H as <- <-. rewrite E. reflexivity.
  - unfold DatabaseStorage.insertReferralCode, bind, Column.lift.
    destruct (Column.varchar 50 _) as [code|]; [|discriminate].
    destruct (existsb _ _); [discriminate|].
    destruct (negb (DatabaseStorage.userExists userId db)); [discriminate|].
    simpl. intros H. injection H as <- <-. simpl.
    rewrite first_filter_snoc; [reflexivity | | simpl; apply Z.eqb_refl].
    unfold Sql.first in E.
    destruct (filter _ (Sql.rows (referralCodes db))); [reflexivity | discriminate].
Qed.

(** C5, at the failing input: [MemStorage.createReferralCode] called twice
    for user 1 makes two codes, the second different from the first. *)
Theorem MemStorage_createReferralCode_not_idempotent :
  exists c1 c2 m2,
    referralCodeTwice (S := MemStorage.t) 1 today laterToday demoMem = (Ok (c1, c2), m2)
    /\ ReferralCode.code c1 = "REF1M5X4XS00"
    /\ ReferralCode.code c2 = "REF1M5X4Z2AO"
    /\ ReferralCode.id c1 <> ReferralCode.id c2
    /\ List.length (MemStorage.referralCodes m2) = 2%nat.
Proof.
  eexists. eexists. eexists. split; [vm_compute; reflexivity|].
  simpl. repeat split. discriminate.
Qed.

(** ** Usage counters *)

(** [MemStorage.updateUserUsage] on a new calendar day. *)
Lemma MemStorage_updateUserUsage_new_day userId usage now m user :
  JsMap.get Z.eqb userId (MemStorage.users m) = Some user ->
  sameDay now (User.lastUsageReset user) = false ->
  exists m',
    MemStorage.updateUserUsage userId usage now m = (Ok tt, m')
    /\ MemStorage.getUser userId m'
       = Some (User.set_dailyUsage usage (User.set_lastUsageReset now user)).
Proof.
  intros Hget Hday. unfold MemStorage.updateUserUsage. rewrite Hget.
  assert (Hc : negb (getDate now =? getDate (User.lastUsageReset user))
               || negb (getMonth now =? getMonth (User.lastUsageReset user))
               || negb (getFullYear now =? getFullYear (User.lastUsageReset user)) = true).
  { unfold sameDay in Hday.
    destruct (getDate now =? _), (getMonth now =? _), (getFullYear now =? _);
      simpl in *; congruence. }
  rewrite Hc. eexists. split; [reflexivity|].
  unfold MemStorage.getUser. simpl.
  apply (get_set_same Z.eqb Z.eqb_eq).
Qed.

(** C6, at the failing input: [DatabaseStorage.updateUserUsage] for a user
    last reset yesterday sets the count and leaves the reset date. *)
Theorem DatabaseStorage_updateUserUsage_keeps_reset_date :
  exists u db',
    recordUsage (S := Db) 1 5 today demoDb = (Ok (Some u), db')
    /\ sameDay today (User.lastUsageReset demoUser) = false
    /\ User.dailyUsage u = 5
    /\ User.lastUsageReset u = yesterday
    /\ sameDay today (User.lastUsageReset u) = false.
Proof.
  eexists. eexists. split; [vm_compute; reflexivity|].
  repeat split.
Qed.

(** ** Referral status *)





Example commission_rounded_on_the_database_only :
  commissionInDb (Some (Num 12345 3)) = Some (dec 1235)
  /\ commissionInMem (Some (Num 12345 3)) = Some (Num 12345 3).
Proof. split; reflexivity. Qed.

(** ** Absent entities *)


Lemma filter_existsb_false {A} (c : A -> bool) (l : list A) :
  existsb c l = false -> filter c l = [].
Proof.
  induction l as [|x l IH]; simpl; [reflexivity|].
  intros H. apply orb_false_iff in H. destruct H as [Hx Hl].
  rewrite Hx. exact (IH Hl).
Qed.








(** Not every read of an absent entity resolves to nothing:
    [getWalletBalance] of a wallet that does not exist answers "0.00", and
    [getUserWallet] on [MemStorage], which has no such method, throws. *)
Example absent_wallet_reads_on_the_demo_stores :
  DatabaseStorage.walletExists 8 demoDb = false
  /\ fst (getWalletBalance (S := Db) 8 demoDb) = Ok (dec 0)
  /\ showDecimal (dec 0) = Some "0.00"
  /\ fst (getUserWallet (S := MemStorage.t) 1 (Some "personal") demoMem)
     = Err (NotAFunction "getUserWallet").
Proof. repeat split. Qed.



(** ** The two backends side by side *)

(** C2, at failing inputs: on stores with the same content the two
    backends answer differently. Asked twice, the database returns one
    referral code and the memory store makes two; after a usage update on a
    new day the database keeps the old reset date and the memory store sets
    the new one; after a download the database leaves [lastDownloadAt] empty
    and the memory store sets it; [createWallet] succeeds on the database
    and is not a method of the memory store. *)
Theorem backends_diverge_on_demo_store :
  (* createReferralCode twice *)
  (exists c db',
      referralCodeTwice (S := Db) 1 today laterToday demoDb = (Ok (c, c), db')
      /\ List.length (Sql.rows (referralCodes db')) = 1%nat)
  /\ (exists c1 c2 m',
      referralCodeTwice (S := MemStorage.t) 1 today laterToday demoMem
      = (Ok (c1, c2), m')
      /\ ReferralCode.code c1 <> ReferralCode.code c2
      /\ List.length (MemStorage.referralCodes m') = 2%nat)
  (* updateUserUsage on a new day *)
  /\ (exists u db',
      recordUsage (S := Db) 1 5 today demoDb = (Ok (Some u), db')
      /\ User.lastUsageReset u = yesterday)
  /\ (exists u m',
      recordUsage (S := MemStorage.t) 1 5 today demoMem = (Ok (Some u), m')
      /\ User.lastUsageReset u = today)
  (* incrementDownloadCount *)
  /\ (exists p db',
      recordDownload (S := Db) 1 1 7 today demoDb = (Ok (Some p), db')
      /\ Purchase.lastDownloadAt p = None)
  /\ (exists p m',
      recordDownload (S := MemStorage.t) 1 1 7 today demoMem = (Ok (Some p), m')
      /\ Purchase.lastDownloadAt p = Some today)
  (* the wallet methods *)
  /\ isOk (fst (createWallet (S := Db) 1 "personal" today demoDb)) = true
  /\ fst (createWallet (S := MemStorage.t) 1 "personal" today demoMem)
     = Err (NotAFunction "createWallet").
Proof.
  repeat match goal with |- _ /\ _ => split end.
  - eexists. eexists. split; [vm_compute; reflexivity | reflexivity].
  - eexists. eexists. eexists. split; [vm_compute; reflexivity|].
    split; [discriminate | reflexivity].
  - eexists. eexists. split; [vm_compute; reflexivity | reflexivity].
  - eexists. eexists. split; [vm_compute; reflexivity | reflexivity].
  - eexists. eexists. split; [vm_compute; reflexivity | reflexivity].
  - eexists. eexists. split; [vm_compute; reflexivity | reflexivity].
  - reflexivity.
  - reflexivity.
Qed.

(** ** The chat registry *)

Import Chat.

Lemma registryOk_set name u users :
  username u = name -> registryOk users ->
  registryOk (JsMap.set String.eqb name u users).
Proof.
  intros Hu [Hnd Hkeys]. split.
  - apply NoDup_set; [exact String.eqb_eq | exact Hnd].
  - intros k u' Hin. apply In_set in Hin. destruct Hin as [H|H].
    + injection H as -> ->. exact Hu.
    + apply Hkeys. exact H.
Qed.

Lemma registryOk_delete name users :
  registryOk users -> registryOk (JsMap.delete String.eqb name users).
Proof.
  intros [Hnd Hkeys]. split.
  - apply NoDup_delete. exact Hnd.
  - intros k u Hin. apply Hkeys. apply In_delete in Hin. exact Hin.
Qed.

Lemma entriesNamed_none name users :
  registryOk users -> ~ In name (JsMap.keys users) -> entriesNamed name users = [].
Proof.
  intros [_ Hkeys] Hnot. unfold entriesNamed, JsMap.values.
  induction users as [|[k u] m IH]; simpl; [reflexivity|].
  destruct (String.eqb (username u) name) eqn:E.
  - apply String.eqb_eq in E. exfalso. apply Hnot. left. simpl.
    rewrite <- E. symmetry. apply Hkeys. left. reflexivity.
  - apply IH.
    + intros k' u' Hin. apply Hkeys. right. exact Hin.
    + intros H. apply Hnot. right. exact H.
Qed.

Lemma entriesNamed_le_1 name users :
  registryOk users -> (List.length (entriesNamed name users) <= 1)%nat.
Proof.
  intros Hok. destruct Hok as [Hnd Hkeys].
  induction users as [|[k u] m IH]; simpl; [lia|].
  inversion Hnd as [|? ? Hnotin Hnd']; subst.
  assert (Hm : registryOk m).
  { split; [exact Hnd'|]. intros k' u' Hin. apply Hkeys. right. exact Hin. }
  unfold entriesNamed in *. simpl.
  destruct (String.eqb (username u) name) eqn:E.
  - apply String.eqb_eq in E.
    assert (k = name) by (rewrite <- E; symmetry; apply Hkeys; left; reflexivity).
    subst k. fold (entriesNamed name m).
    rewrite (entriesNamed_none name m Hm Hnotin). simpl. lia.
  - apply IH; [exact Hnd'|]. intros k' u' Hin. apply Hkeys. right. exact Hin.
Qed.

Lemma findByUsername_key name users k u :
  registryOk users -> findByUsername name users = Some (k, u) ->
  k = name /\ JsMap.get String.eqb name users = Some u.
Proof.
  intros [Hnd Hkeys] Hf. unfold findByUsername in Hf.
  apply find_some in Hf. destruct Hf as [Hin Heq]. simpl in Heq.
  apply String.eqb_eq in Heq.
  assert (k = name) by (rewrite <- Heq; symmetry; apply Hkeys; exact Hin).
  subst k. split; [reflexivity|].
  apply In_get; [exact String.eqb_eq | exact Hnd | exact Hin].
Qed.

Lemma findByUsername_present name users old :
  registryOk users -> In old (entriesNamed name users) ->
  findByUsername name users = Some (name, old).
Proof.
  intros Hok Hin. unfold entriesNamed in Hin. apply filter_In in Hin.
  destruct Hin as [Hin Hname]. unfold JsMap.values in Hin.
  apply in_map_iff in Hin. destruct Hin as ([k u] & Hu & Hin). simpl in Hu. subst u.
  destruct (findByUsername name users) as [[k' u']|] eqn:E.
  - destruct (findByUsername_key _ _ _ _ Hok E) as [-> Hget].
    destruct Hok as [Hnd Hkeys].
    assert (k = name).
    { apply String.eqb_eq in Hname. rewrite <- Hname. symmetry. apply Hkeys. exact Hin. }
    subst k. rewrite (In_get String.eqb String.eqb_eq _ _ _ Hnd Hin) in Hget.
    injection Hget as ->. reflexivity.
  - exfalso. unfold findByUsername in E.
    apply (find_none _ _ E (k, old)) in Hin. simpl in Hin. congruence.
Qed.

Lemma handleJoin_users s mu mt ml now random st :
  connectedUsers (fst (handleJoin s mu mt ml now random st))
  = let name := Js.orElse mu ("User" ++ Js.toString random)%string in
    JsMap.set String.eqb name
      (mkUser name name (Js.orElse mt "entrepreneur") ml s)
      (match findByUsername name (connectedUsers st) with
       | Some (existingId, _) => JsMap.delete String.eqb existingId (connectedUsers st)
       | None => connectedUsers st
       end).
Proof.
  unfold handleJoin.
  destruct (findByUsername _ (connectedUsers st)) as [[k u]|];
    destruct (existsb _ (welcomeMessagesSent st)); reflexivity.
Qed.

Lemma step_registryOk st ev :
  registryOk (connectedUsers st) -> registryOk (connectedUsers (fst (step st ev))).
Proof.
  intros Hok. destruct ev as [s|s frame now random|s|s|n now]; simpl.
  - destruct (JsMap.has Z.eqb s (connections st)); exact Hok.
  - destruct (live s st); [|exact Hok].
    destruct frame as [|mu mt ml|message|]; simpl; try exact Hok.
    + rewrite handleJoin_users. simpl. apply registryOk_set; [reflexivity|].
      destruct (findByUsername _ _) as [[k u]|]; [apply registryOk_delete|]; exact Hok.
    + unfold handleChat.
      destruct (userId =<< JsMap.get Z.eqb s (connections st)) as [uid|]; [|exact Hok].
      destruct (Js.truthy uid && JsMap.has String.eqb uid (connectedUsers st)); [|exact Hok].
      destruct (JsMap.get String.eqb uid (connectedUsers st)); exact Hok.
  - destruct (live s st); [|exact Hok]. unfold onClose.
    destruct (userId =<< JsMap.get Z.eqb s (connections st)) as [uid|]; [|exact Hok].
    destruct (Js.truthy uid && JsMap.has String.eqb uid (connectedUsers st)); [|exact Hok].
    destruct (JsMap.get String.eqb uid (connectedUsers st)); [|exact Hok].
    simpl. apply registryOk_delete. exact Hok.
  - destruct (live s st); [|exact Hok]. unfold onError.
    destruct (userId =<< JsMap.get Z.eqb s (connections st)) as [uid|]; [|exact Hok].
    destruct (Js.truthy uid); [|exact Hok].
    simpl. apply registryOk_delete. exact Hok.
  - unfold onTimeout. destruct (nth_error (timers st) n) as [[s|name]|]; exact Hok.
Qed.

Lemma run_registryOk evs : forall st,
  registryOk (connectedUsers st) -> registryOk (connectedUsers (fst (run st evs))).
Proof.
  induction evs as [|ev rest IH]; intros st Hok; simpl; [exact Hok|].
  pose proof (step_registryOk st ev Hok) as H1.
  destruct (step st ev) as [st1 eff1]. simpl in H1.
  specialize (IH st1 H1). destruct (run st1 rest) as [st2 eff2]. exact IH.
Qed.

Lemma init_registryOk : registryOk (connectedUsers init).
Proof. split; [constructor | intros k u []]. Qed.

Lemma readyStateOf_closeSocket x conns :
  readyStateOf (closeSocket x conns) x <> OPEN.
Proof.
  unfold closeSocket, readyStateOf.
  destruct (JsMap.get Z.eqb x conns) as [c|] eqn:E.
  - destruct (isOpen (readyState c)) eqn:Eo.
    + rewrite (get_set_same Z.eqb Z.eqb_eq). simpl. discriminate.
    + rewrite E. intros H. rewrite H in Eo. discriminate.
  - rewrite E. discriminate.
Qed.

Lemma handleJoin_evicts s mu mt ml now random st old :
  let name := Js.orElse mu ("User" ++ Js.toString random)%string in
  registryOk (connectedUsers st) ->
  In old (entriesNamed name (connectedUsers st)) ->
  let res := handleJoin s mu mt ml now random st in
  In (CloseSocket (ws old)) (snd res)
  /\ readyStateOf (connections (fst res)) (ws old) <> OPEN
  /\ entriesNamed name (connectedUsers (fst res))
     = [mkUser name name (Js.orElse mt "entrepreneur") ml s]
  /\ JsMap.get String.eqb name (connectedUsers (fst res))
     = Some (mkUser name name (Js.orElse mt "entrepreneur") ml s).
Proof.
  intros name Hok Hin res.
  pose proof (findByUsername_present _ _ _ Hok Hin) as Hf.
  pose proof (handleJoin_users s mu mt ml now random st) as Hu.
  fold res in Hu. cbv zeta in Hu. fold name in Hu. rewrite Hf in Hu.
  assert (Hdel : ~ In name (JsMap.keys (JsMap.delete String.eqb name (connectedUsers st)))).
  { apply delete_removes; [exact String.eqb_eq | apply Hok]. }
  split; [|split; [|split]].
  - unfold res, handleJoin. fold name. rewrite Hf.
    destruct (existsb _ (welcomeMessagesSent st)); simpl; left; reflexivity.
  - unfold res, handleJoin. fold name. rewrite Hf.
    destruct (existsb _ (welcomeMessagesSent st)); simpl; apply readyStateOf_closeSocket.
  - rewrite Hu. rewrite (set_fresh String.eqb String.eqb_eq) by exact Hdel.
    unfold entriesNamed, JsMap.values. rewrite map_app, filter_app.
    fold (JsMap.values (JsMap.delete String.eqb name (connectedUsers st))).
    fold (entriesNamed name (JsMap.delete String.eqb name (connectedUsers st))).
    rewrite entriesNamed_none; [|apply registryOk_delete; exact Hok | exact Hdel].
    simpl. rewrite String.eqb_refl. reflexivity.
  - rewrite Hu. apply get_set_same. exact String.eqb_eq.
Qed.

(** C8. After every sequence of events the registry holds at most one
    entry per username. When a live socket joins under a username that has
    an entry (the username of the frame, or the generated one when the
    frame has none), the socket of that entry is closed, and afterwards the
    only entry of that username is the one of the joining socket. *)
Theorem registry_one_connection_per_username :
  forall (evs : list Event),
    let st := fst (run init evs) in
    (forall name, (List.length (entriesNamed name (connectedUsers st)) <= 1)%nat)
    /\ forall s username userType location now random old,
         let name := Js.orElse username ("User" ++ Js.toString random)%string in
         live s st = true ->
         In old (entriesNamed name (connectedUsers st)) ->
         let res := step st (Message s (join_community username userType location)
                               now random) in
         In (CloseSocket (ws old)) (snd res)
         /\ readyStateOf (connections (fst res)) (ws old) <> OPEN
         /\ entriesNamed name (connectedUsers (fst res))
            = [mkUser name name (Js.orElse userType "entrepreneur") location s]
         /\ JsMap.get String.eqb name (connectedUsers (fst res))
            = Some (mkUser name name (Js.orElse userType "entrepreneur") location s).
Proof.
  intros evs st.
  assert (Hok : registryOk (connectedUsers st)).
  { apply run_registryOk. exact init_registryOk. }
  split.
  - intros name. apply entriesNamed_le_1. exact Hok.
  - intros s mu userType location now random old name Hlive Hin res.
    unfold res. simpl. rewrite Hlive.
    apply handleJoin_evicts; assumption.
Qed.

Lemma registry_one_connection_per_username_witness :
  let st := fst (run init aliceConnected) in
  live 2 st = true
  /\ In aliceEntry (entriesNamed "Alice" (connectedUsers st))
  /\ let res := step st (Message 2 (join_community (Some "Alice") None None) 2000 0) in
     In (CloseSocket 1) (snd res)
     /\ readyStateOf (connections (fst res)) 1 <> OPEN
     /\ entriesNamed "Alice" (connectedUsers (fst res))
        = [mkUser "Alice" "Alice" "entrepreneur" None 2].
Proof.
  intros st.
  assert (Hl : live 2 st = true) by reflexivity.
  assert (Hin : In aliceEntry (entriesNamed "Alice" (connectedUsers st)))
    by (left; reflexivity).
  split; [exact Hl|]. split; [exact Hin|].
  pose proof (registry_one_connection_per_username aliceConnected) as H.
  cbv zeta in H. destruct H as [_ H].
  destruct (H 2 (Some "Alice") None None 2000 0 aliceEntry Hl Hin) as (H1 & H2 & H3 & _).
  split; [exact H1|]. split; [exact H2 | exact H3].
Defined.

(** The close handler removes whatever is filed under the username of its
    connection: when the socket evicted above reports its close, the entry
    it removes is the one of the socket that replaced it. *)
Example close_of_evicted_socket_removes_successor :
  let joinAlice s := Message s (join_community (Some "Alice") None None) 1000 7 in
  connectedUsers
    (fst (run init [Connect 1; joinAlice 1; Connect 2; joinAlice 2; Close 1]))
  = [].
Proof. vm_compute. reflexivity. Qed.

(** ** Delivery of chat messages *)

Lemma orElse_truthy mu d : Js.truthy d = true -> Js.truthy (Js.orElse mu d) = true.
Proof.
  intros Hd. unfold Js.orElse. destruct mu as [v|]; [|exact Hd].
  destruct (Js.truthy v) eqn:E; [exact E | exact Hd].
Qed.

Lemma userIdsTruthy_set s c conns :
  (forall u, userId c = Some u -> Js.truthy u = true) ->
  userIdsTruthy conns -> userIdsTruthy (JsMap.set Z.eqb s c conns).
Proof.
  intros Hc H s' c' u Hin Hu. apply In_set in Hin. destruct Hin as [Hin|Hin].
  - injection Hin as -> ->. apply Hc. exact Hu.
  - exact (H s' c' u Hin Hu).
Qed.

Lemma userIdsTruthy_get s c conns u :
  userIdsTruthy conns -> JsMap.get Z.eqb s conns = Some c -> userId c = Some u ->
  Js.truthy u = true.
Proof.
  intros H Hg Hu. apply (H s c u); [|exact Hu].
  apply (get_In Z.eqb Z.eqb_eq). exact Hg.
Qed.

Lemma userIdsTruthy_closeSocket x conns :
  userIdsTruthy conns -> userIdsTruthy (closeSocket x conns).
Proof.
  intros H. unfold closeSocket.
  destruct (JsMap.get Z.eqb x conns) as [c|] eqn:E; [|exact H].
  destruct (isOpen (readyState c)); [|exact H].
  apply userIdsTruthy_set; [|exact H].
  simpl. intros u Hu. exact (userIdsTruthy_get _ _ _ _ H E Hu).
Qed.

Lemma userIdsTruthy_setReadyState x r conns :
  userIdsTruthy conns -> userIdsTruthy (setReadyState x r conns).
Proof.
  intros H. unfold setReadyState.
  destruct (JsMap.get Z.eqb x conns) as [c|] eqn:E; [|exact H].
  apply userIdsTruthy_set; [|exact H].
  simpl. intros u Hu. exact (userIdsTruthy_get _ _ _ _ H E Hu).
Qed.

Lemma userIdsTruthy_setUserId x u conns :
  Js.truthy u = true -> userIdsTruthy conns -> userIdsTruthy (setUserId x (Some u) conns).
Proof.
  intros Hu H. unfold setUserId.
  destruct (JsMap.get Z.eqb x conns) as [c|]; [|exact H].
  apply userIdsTruthy_set; [|exact H].
  simpl. intros u' Hu'. injection Hu' as <-. exact Hu.
Qed.

Lemma handleJoin_connections s mu mt ml now random st :
  connections (fst (handleJoin s mu mt ml now random st))
  = let name := Js.orElse mu ("User" ++ Js.toString random)%string in
    let conns1 := setUserId s (Some name) (connections st) in
    match findByUsername name (connectedUsers st) with
    | Some (_, existingUser) => closeSocket (ws existingUser) conns1
    | None => conns1
    end.
Proof.
  unfold handleJoin.
  destruct (findByUsername _ (connectedUsers st)) as [[k u]|];
    destruct (existsb _ (welcomeMessagesSent st)); reflexivity.
Qed.

Lemma step_userIdsTruthy st ev :
  userIdsTruthy (connections st) -> userIdsTruthy (connections (fst (step st ev))).
Proof.
  intros Hok. destruct ev as [s|s frame now random|s|s|n now]; simpl.
  - destruct (JsMap.has Z.eqb s (connections st)); [exact Hok|]. simpl.
    apply userIdsTruthy_set; [simpl; discriminate | exact Hok].
  - destruct (live s st); [|exact Hok].
    destruct frame as [|mu mt ml|message|]; simpl; try exact Hok.
    + rewrite handleJoin_connections. simpl.
      assert (Hn : Js.truthy (Js.orElse mu ("User" ++ Js.toString random)%string) = true)
        by (apply orElse_truthy; reflexivity).
      destruct (findByUsername _ _) as [[k u]|].
      * apply userIdsTruthy_closeSocket, userIdsTruthy_setUserId; assumption.
      * apply userIdsTruthy_setUserId; assumption.
    + unfold handleChat.
      destruct (userId =<< JsMap.get Z.eqb s (connections st)) as [uid|]; [|exact Hok].
      destruct (Js.truthy uid && JsMap.has String.eqb uid (connectedUsers st)); [|exact Hok].
      destruct (JsMap.get String.eqb uid (connectedUsers st)); exact Hok.
  - destruct (live s st); [|exact Hok]. unfold onClose.
    pose proof (userIdsTruthy_setReadyState s CLOSED _ Hok) as H1.
    destruct (userId =<< JsMap.get Z.eqb s (connections st)) as [uid|]; [|exact H1].
    destruct (Js.truthy uid && JsMap.has String.eqb uid (connectedUsers st)); [|exact H1].
    destruct (JsMap.get String.eqb uid (connectedUsers st)); exact H1.
  - destruct (live s st); [|exact Hok]. unfold onError.
    pose proof (userIdsTruthy_setReadyState s CLOSING _ Hok) as H1.
    destruct (userId =<< JsMap.get Z.eqb s (connections st)) as [uid|]; [|exact H1].
    destruct (Js.truthy uid); exact H1.
  - unfold onTimeout. destruct (nth_error (timers st) n) as [[s|name]|]; exact Hok.
Qed.

Lemma run_userIdsTruthy evs : forall st,
  userIdsTruthy (connections st) -> userIdsTruthy (connections (fst (run st evs))).
Proof.
  induction evs as [|ev rest IH]; intros st Hok; simpl; [exact Hok|].
  pose proof (step_userIdsTruthy st ev Hok) as H1.
  destruct (step st ev) as [st1 eff1]. simpl in H1.
  specialize (IH st1 H1). destruct (run st1 rest) as [st2 eff2]. exact IH.
Qed.

Lemma broadcast_all conns users m :
  broadcast conns users m None
  = map (fun u => Send (ws u) m)
        (filter (fun u => isOpen (readyStateOf conns (ws u))) (JsMap.values users)).
Proof.
  unfold broadcast, JsMap.entries, JsMap.values.
  induction users as [|[k u] l IH]; [reflexivity|].
  simpl in *. destruct (isOpen (readyStateOf conns (ws u))); simpl; rewrite IH; reflexivity.
Qed.

(** C9. A [community_message] frame from a live connection whose username is
    in the registry leaves the state as it is and sends one
    [community_message], with the server's id and timestamp, to every
    participant of the registry whose socket is open and to nobody else, the
    sender's own socket included; a frame from a connection that never
    joined sends nothing. *)
Theorem community_message_reaches_every_open_participant :
  forall (evs : list Event) s message now random,
    let st := fst (run init evs) in
    let res := step st (Message s (community_message_in message) now random) in
    (forall uid sender,
        live s st = true ->
        userId =<< JsMap.get Z.eqb s (connections st) = Some uid ->
        JsMap.get String.eqb uid (connectedUsers st) = Some sender ->
        let chatMessage :=
          community_message (Js.toString now) (username sender) message now
            (userType sender) in
        fst res = st
        /\ snd res = map (fun u => Send (ws u) chatMessage) (openParticipants st)
        /\ (ws sender = s -> readyStateOf (connections st) s = OPEN ->
            In (Send s chatMessage) (snd res)))
    /\ (userId =<< JsMap.get Z.eqb s (connections st) = None -> res = (st, [])).
Proof.
  intros evs s message now random st res.
  assert (Hok : userIdsTruthy (connections st)).
  { apply run_userIdsTruthy. intros s0 c u []. }
  split.
  - intros uid sender Hlive Huid Hget chatMessage.
    assert (Htr : Js.truthy uid = true).
    { destruct (JsMap.get Z.eqb s (connections st)) as [c|] eqn:E; [|discriminate].
      simpl in Huid. exact (userIdsTruthy_get _ _ _ _ Hok E Huid). }
    assert (Hres : res = (st, map (fun u => Send (ws u) chatMessage) (openParticipants st))).
    { unfold res. simpl. rewrite Hlive. unfold handleChat.
      rewrite Huid, Htr. unfold JsMap.has. rewrite Hget. simpl.
      rewrite broadcast_all. reflexivity. }
    rewrite Hres. simpl. split; [reflexivity|]. split; [reflexivity|].
    intros Hws Hopen. apply in_map_iff. exists sender. split.
    + rewrite Hws. reflexivity.
    + unfold openParticipants. apply filter_In. split.
      * unfold JsMap.values. apply in_map_iff. exists (uid, sender). split; [reflexivity|].
        apply (get_In String.eqb String.eqb_eq). exact Hget.
      * rewrite Hws, Hopen. reflexivity.
  - intros Hnone. unfold res. simpl.
    destruct (live s st); [|reflexivity].
    unfold handleChat. rewrite Hnone. reflexivity.
Qed.

Lemma community_message_reaches_every_open_participant_witness :
  let st := fst (run init aliceAndBob) in
  live 1 st = true
  /\ userId =<< JsMap.get Z.eqb 1 (connections st) = Some "Alice"
  /\ JsMap.get String.eqb "Alice" (connectedUsers st) = Some aliceEntry
  /\ snd (step st (Message 1 (community_message_in "hi") 2000 0))
     = [Send 1 (community_message "2000" "Alice" "hi" 2000 "entrepreneur");
        Send 2 (community_message "2000" "Alice" "hi" 2000 "entrepreneur")].
Proof.
  intros st.
  split; [reflexivity|]. split; [reflexivity|]. split; [reflexivity|].
  pose proof (community_message_reaches_every_open_participant aliceAndBob 1 "hi" 2000 0)
    as H.
  cbv zeta in H. destruct H as [H _].
  destruct (H "Alice" aliceEntry eq_refl eq_refl eq_refl) as (_ & H2 & _).
  etransitivity; [exact H2 | reflexivity].
Defined.
(** * Further properties *)


(** ** Ordered query results *)

Lemma insertDesc_perm {R} (key : R -> option Date) (x : R) (l : list R) :
  Permutation (x :: l) (SqlQuery.insertDesc key x l).
Proof.
  induction l as [|y r IH]; simpl; [apply Permutation_refl|].
  destruct (Sql.newerThan (key y) (key x)); [|apply Permutation_refl].
  eapply Permutation_trans; [apply perm_swap|]. apply perm_skip. exact IH.
Qed.

Lemma orderByDesc_perm {R} (key : R -> option Date) (l : list R) :
  Permutation l (SqlQuery.orderByDesc key l).
Proof.
  induction l as [|x l IH]; simpl; [constructor|].
  eapply Permutation_trans; [apply perm_skip; exact IH | apply insertDesc_perm].
Qed.

Lemma orderByDesc_In {R} (key : R -> option Date) (l : list R) (x : R) :
  In x (SqlQuery.orderByDesc key l) <-> In x l.
Proof.
  split; apply Permutation_in;
    [apply Permutation_sym|]; apply orderByDesc_perm.
Qed.



Lemma newerThan_total a b :
  Sql.newerThan a b = false -> Sql.newerThan b a = false -> 
  forall c, Sql.newerThan c a = Sql.newerThan c b.
Proof.
  destruct a as [a|], b as [b|]; simpl; try discriminate; intros H1 H2 c;
    destruct c as [c|]; simpl; try reflexivity.
  apply Z.ltb_ge in H1, H2. assert (getTime a = getTime b) as -> by lia. reflexivity.
Qed.

Lemma notOlder_trans a b c : notOlder a b -> notOlder b c -> notOlder a c.
Proof.
  unfold notOlder. destruct a as [a|], b as [b|], c as [c|]; simpl;
    try discriminate; try reflexivity; intros H1 H2.
  apply Z.ltb_ge in H1, H2. apply Z.ltb_ge. lia.
Qed.

Lemma newerThan_notOlder a b : Sql.newerThan a b = true -> notOlder a b.
Proof.
  unfold notOlder. destruct a as [a|], b as [b|]; simpl; try discriminate;
    try reflexivity.
  intros H. apply Z.ltb_lt in H. apply Z.ltb_ge. lia.
Qed.

Lemma insertDesc_sorted {R} (key : R -> option Date) (x : R) (l : list R) :
  StronglySorted (fun a b => notOlder (key a) (key b)) l ->
  StronglySorted (fun a b => notOlder (key a) (key b)) (SqlQuery.insertDesc key x l).
Proof.
  induction l as [|y r IH]; simpl; intros Hs.
  - constructor; constructor.
  - inversion Hs as [|? ? Hr Hy]; subst.
    destruct (Sql.newerThan (key y) (key x)) eqn:E.
    + constructor; [apply IH; exact Hr|].
      apply Forall_forall. intros z Hz.
      apply (Permutation_in _ (Permutation_sym (insertDesc_perm key x r))) in Hz.
      destruct Hz as [<-|Hz].
      * apply newerThan_notOlder. exact E.
      * exact (proj1 (Forall_forall _ _) Hy z Hz).
    + constructor; [exact Hs|].
      constructor; [exact E|].
      apply Forall_forall. intros z Hz.
      apply (notOlder_trans _ (key y)); [exact E|].
      exact (proj1 (Forall_forall _ _) Hy z Hz).
Qed.

Lemma orderByDesc_sorted {R} (key : R -> option Date) (l : list R) :
  StronglySorted (fun a b => notOlder (key a) (key b)) (SqlQuery.orderByDesc key l).
Proof.
  induction l as [|x l IH]; simpl; [constructor|].
  apply insertDesc_sorted. exact IH.
Qed.

Lemma In_skipn_In {A} (n : nat) (l : list A) (x : A) : In x (skipn n l) -> In x l.
Proof.
  intros H. rewrite <- (firstn_skipn n l). apply in_or_app. right. exact H.
Qed.

Lemma In_firstn_In {A} (n : nat) (l : list A) (x : A) : In x (firstn n l) -> In x l.
Proof.
  intros H. rewrite <- (firstn_skipn n l). apply in_or_app. left. exact H.
Qed.

Lemma StronglySorted_firstn_skipn {A} (R : A -> A -> Prop) (n : nat) (l : list A) :
  StronglySorted R l ->
  forall a b, In a (firstn n l) -> In b (skipn n l) -> R a b.
Proof.
  revert l. induction n as [|n IH]; intros l Hs a b Ha Hb; simpl in *; [contradiction|].
  destruct l as [|x l]; simpl in *; [contradiction|].
  inversion Hs as [|? ? Hl Hx]; subst.
  destruct Ha as [<-|Ha].
  - apply (proj1 (Forall_forall _ _) Hx). apply (In_skipn_In n l). exact Hb.
  - exact (IH l Hl a b Ha Hb).
Qed.

Lemma StronglySorted_firstn {A} (R : A -> A -> Prop) (n : nat) (l : list A) :
  StronglySorted R l -> StronglySorted R (firstn n l).
Proof.
  revert l. induction n as [|n IH]; intros l Hs; simpl; [constructor|].
  destruct l as [|x l]; [constructor|].
  inversion Hs as [|? ? Hl Hx]; subst. constructor; [apply IH; exact Hl|].
  apply Forall_forall. intros y Hy.
  apply (proj1 (Forall_forall _ _) Hx). apply (In_firstn_In n l). exact Hy.
Qed.

(** ** Reading the ledger *)

(** X1. [getWalletTransactions] with a limit that is not negative returns
    rows of that wallet only, newest first, as many as the limit allows;
    every ledger row it leaves out is no newer than the rows it returns.
    With a negative limit the query is sent without a [LIMIT] and returns
    the whole ledger of the wallet, newest first. The store is not
    changed. *)
Theorem getWalletTransactions_newest_first :
  forall walletId (limit : Z) db,
    (0 <= limit ->
     exists result,
       WalletReads.getWalletTransactions walletId (Some (SqlQuery.LimitInt limit)) db
       = (Ok result, db)
       /\ List.length result
          = Nat.min (Z.to_nat limit) (List.length (ledgerOf walletId db))
       /\ (forall t, In t result -> In t (ledgerOf walletId db))
       /\ StronglySorted
            (fun a b => notOlder (WalletTx.createdAt a) (WalletTx.createdAt b)) result
       /\ (forall t r,
             In t (ledgerOf walletId db) -> ~ In t result -> In r result ->
             notOlder (WalletTx.createdAt r) (WalletTx.createdAt t)))
    /\ (limit < 0 ->
        exists result,
          WalletReads.getWalletTransactions walletId (Some (SqlQuery.LimitInt limit)) db
          = (Ok result, db)
          /\ Permutation (ledgerOf walletId db) result
          /\ StronglySorted
               (fun a b => notOlder (WalletTx.createdAt a) (WalletTx.createdAt b))
               result).
Proof.
  intros walletId limit db.
  set (sorted := SqlQuery.orderByDesc WalletTx.createdAt (ledgerOf walletId db)).
  assert (Hperm : Permutation (ledgerOf walletId db) sorted)
    by apply orderByDesc_perm.
  assert (Hsorted : StronglySorted
            (fun a b => notOlder (WalletTx.createdAt a) (WalletTx.createdAt b)) sorted)
    by apply orderByDesc_sorted.
  split.
  - intros Hl.
    unfold WalletReads.getWalletTransactions, gets, SqlQuery.limit, Sql.selectWhere.
    fold (ledgerOf walletId db). fold sorted.
    assert ((0 <=? limit) = true) as -> by lia.
    eexists. split; [reflexivity|]. split; [|split; [|split]].
    + rewrite length_firstn, (Permutation_length Hperm). reflexivity.
    + intros t Ht. apply In_firstn_In in Ht.
      apply (Permutation_in _ (Permutation_sym Hperm)). exact Ht.
    + apply StronglySorted_firstn. exact Hsorted.
    + intros t r Ht Hnot Hr.
      apply (StronglySorted_firstn_skipn _ (Z.to_nat limit) sorted Hsorted r t Hr).
      apply (Permutation_in _ Hperm) in Ht.
      rewrite <- (firstn_skipn (Z.to_nat limit) sorted) in Ht.
      apply in_app_or in Ht. destruct Ht as [Ht|Ht]; [contradiction | exact Ht].
  - intros Hl.
    unfold WalletReads.getWalletTransactions, gets, SqlQuery.limit, Sql.selectWhere.
    fold (ledgerOf walletId db). fold sorted.
    assert ((0 <=? limit) = false) as -> by lia.
    exists sorted. split; [reflexivity|]. split; assumption.
Qed.

Lemma getWalletTransactions_newest_first_witness :
  0 <= 1
  /\ (exists result,
        WalletReads.getWalletTransactions 1 (Some (SqlQuery.LimitInt 1))
          (addAll demoCalls demoDbWithWallet)
        = (Ok result, addAll demoCalls demoDbWithWallet)
        /\ List.length result = 1%nat)
  /\ -1 < 0
  /\ (exists result,
        WalletReads.getWalletTransactions 1 (Some (SqlQuery.LimitInt (-1)))
          (addAll demoCalls demoDbWithWallet)
        = (Ok result, addAll demoCalls demoDbWithWallet)
        /\ List.length result = 2%nat).
Proof.
  split; [lia|].
  destruct (getWalletTransactions_newest_first 1 1 (addAll demoCalls demoDbWithWallet))
    as [H _].
  destruct (H ltac:(lia)) as (result & Hr & Hlen & _).
  split.
  { exists result. split; [exact Hr|].
    etransitivity; [exact Hlen | vm_compute; reflexivity]. }
  split; [lia|].
  destruct (getWalletTransactions_newest_first 1 (-1) (addAll demoCalls demoDbWithWallet))
    as [_ H'].
  destruct (H' ltac:(lia)) as (result' & Hr' & Hperm & _).
  exists result'. split; [exact Hr'|].
  rewrite <- (Permutation_length Hperm). vm_compute. reflexivity.
Defined.

(** ** The ledger of the whole store *)

Lemma length_substring_0 (n : nat) (s : string) :
  (n <= String.length s)%nat -> String.length (substring 0 n s) = n.
Proof.
  revert s. induction n as [|n IH]; intros s H.
  - destruct s; reflexivity.
  - destruct s as [|c s]; simpl in *; [lia|].
    rewrite IH by lia. reflexivity.
Qed.

(** A [varchar(20)] column stores ["credit"] only when given ["credit"]. *)
Lemma varchar_credit (s s' : string) :
  Column.varchar 20 s = Ok s' -> String.eqb s' "credit" = String.eqb s "credit".
Proof.
  unfold Column.varchar.
  destruct (Nat.leb_spec (String.length s) 20) as [Hle|Hgt].
  - intros H. injection H as <-. reflexivity.
  - destruct (Column.onlySpaces _); [|discriminate].
    intros H. injection H as <-.
    assert (H1 : String.eqb (substring 0 20 s) "credit" = false).
    { apply String.eqb_neq. intros E.
      pose proof (length_substring_0 20 s ltac:(lia)) as Hlen.
      rewrite E in Hlen. discriminate. }
    assert (H2 : String.eqb s "credit" = false).
    { apply String.eqb_neq. intros E. rewrite E in Hgt. simpl in Hgt. lia. }
    rewrite H1, H2. reflexivity.
Qed.

(** The ledger invariant of a wallet after a row is added to its ledger and
    the balance the row reports is stored. *)
Lemma ledgerInv_append wid r n now db :
  ledgerInv wid db ->
  WalletTx.walletId r = wid ->
  WalletTx.balanceAfter r = dec n ->
  n = sumSigned (ledgerOf wid db) + signedAmount r ->
  let db' :=
    with_wallets
      (Sql.updateWhere (fun w => Wallet.id w =? wid) (Wallet.touch (dec n) now))
      (with_walletTransactions
         (fun t => Sql.mkTable (Sql.rows t ++ [r]) (Sql.nextId t + 1)) db) in
  ledgerInv wid db' /\ sumSigned (ledgerOf wid db') = n.
Proof.
  intros (Hne & Hrows & Hrun) Hw Hafter Hn db'.
  assert (Hled : ledgerOf wid db' = ledgerOf wid db ++ [r]).
  { unfold ledgerOf, db'. simpl. rewrite filter_app. simpl.
    rewrite Hw, Z.eqb_refl. reflexivity. }
  assert (Hsum : sumSigned (ledgerOf wid db') = n).
  { rewrite Hled, sumSigned_snoc. lia. }
  split; [|exact Hsum].
  unfold ledgerInv. rewrite Hsum, Hled.
  unfold walletRows at 1 2, db'. simpl. rewrite walletRows_update, Z.eqb_refl.
  repeat split.
  - destruct (walletRows wid db); [congruence | discriminate].
  - intros w Hin. apply in_map_iff in Hin. destruct Hin as (w0 & <- & _). reflexivity.
  - apply runningFrom_snoc; [exact Hrun|]. rewrite Hafter. f_equal. lia.
Qed.

Lemma walletRows_nonempty_addWalletTransaction wid walletId tx now db :
  walletRows wid (snd (DatabaseStorage.addWalletTransaction walletId tx now db)) <> []
  -> walletRows wid db <> [].
Proof.
  destruct (addWalletTransaction_cases walletId tx now db)
    as [[e H]|[[E H]|[E (r & H & _)]]]; rewrite H; simpl;
    try exact (fun H => H).
  unfold walletRows at 1. simpl. rewrite walletRows_update.
  destruct (wid =? walletId); [|exact (fun H => H)].
  destruct (walletRows wid db); [intros H0; exact H0 | discriminate].
Qed.

Lemma ledgerSafe_stored (amount d : Decimal) :
  ledgerSafe amount = true ->
  Column.numeric 15 amount = Ok d ->
  exists a, hundredthsOf amount = Some a /\ d = dec a /\ inRange15 a.
Proof.
  intros Hsafe Hcast.
  destruct amount as [u k| | | |]; try discriminate.
  unfold ledgerSafe in Hsafe.
  destruct (hundredthsOf (Num u k)) as [a|] eqn:Ha; [|discriminate].
  exists a. split; [reflexivity|].
  exact (numeric_ok_inRange _ _ _ Ha Hcast).
Qed.

Lemma ledgerOk_addWalletTransaction walletId tx now db :
  ledgerOk db ->
  ledgerSafe (WalletTx.i_amount tx) = true ->
  ledgerOk (snd (DatabaseStorage.addWalletTransaction walletId tx now db)).
Proof.
  intros Hok Hsafe.
  pose proof (walletSerialAhead_addWalletTransaction walletId tx now db (proj1 Hok))
    as Hahead.
  pose proof (walletRows_nonempty_addWalletTransaction) as Hnonempty.
  pose proof (addWalletTransaction_other) as Hother.
  destruct (addWalletTransaction_cases walletId tx now db)
    as [[e H]|[[E H]|[E (r & H & Hw & _ & Hty & Ham & Hbal & _)]]].
  - rewrite H. exact Hok.
  - rewrite H. simpl. destruct Hok as [Ha Hinv]. split.
    + rewrite H in Hahead. exact Hahead.
    + exact Hinv.
  - destruct Hok as [Ha Hinv]. split; [exact Hahead|].
    intros wid Hne.
    pose proof (Hnonempty wid walletId tx now db Hne) as Hne0.
    destruct (Hinv wid Hne0) as [Hinv0 Hrange0].
    destruct (Z.eq_dec walletId wid) as [->|Hneq].
    + destruct (ledgerSafe_stored _ _ Hsafe Ham) as (a & Ha' & Hamount & Hra).
      pose proof (getWalletBalance_inv _ _ Hinv0) as Hb.
      assert (Hnew : newBalanceOf wid tx db
                     = dec (sumSigned (ledgerOf wid db) + signedCall tx a)).
      { unfold newBalanceOf, signedCall. rewrite Hb.
        destruct (String.eqb (WalletTx.i_transactionType tx) "credit").
        - apply balance_add_exact; assumption.
        - rewrite (balance_sub_exact _ _ a Ha' Hrange0 Hra). f_equal. }
      rewrite Hnew in Hbal.
      destruct (numeric_ok_inRange _ _ _ (hundredthsOf_dec _) Hbal) as [Hafter Hrn].
      assert (Hsigned : signedAmount r = signedCall tx a).
      { unfold signedAmount, signedCall, storedHundredths.
        rewrite (varchar_credit _ _ Hty), Hamount, hundredthsOf_dec. reflexivity. }
      rewrite H. cbn [snd]. rewrite Hafter.
      destruct (ledgerInv_append wid r
                  (sumSigned (ledgerOf wid db) + signedCall tx a) now db Hinv0 Hw)
        as [Hinv' Hsum'].
      * exact Hafter.
      * rewrite Hsigned. reflexivity.
      * split; [exact Hinv'|]. rewrite Hsum'. exact Hrn.
    + destruct (Hother wid walletId tx now db Hneq) as [Hled Hrows].
      destruct Hinv0 as (H1 & H2 & H3).
      unfold ledgerInv. rewrite Hled, Hrows.
      split; [repeat split; assumption | exact Hrange0].
Qed.

Lemma ledgerOk_createWallet userId walletType now db :
  ledgerOk db -> ledgerOk (snd (DatabaseStorage.createWallet userId walletType now db)).
Proof.
  intros [Ha Hinv].
  pose proof (walletSerialAhead_createWallet userId walletType now db Ha) as Hahead.
  destruct (DatabaseStorage.createWallet userId walletType now db) as [[w|e] db1] eqn:E.
  - simpl in *. split; [exact Hahead|].
    destruct (createWallet_ok _ _ _ _ _ _ E) as (Hid & _ & Hrows & Htx).
    intros wid Hne. destruct (Z.eq_dec wid (Wallet.id w)) as [->|Hneq].
    + destruct (createWallet_inv _ _ _ _ _ _ Ha E) as [Hinv' Hnil].
      split; [exact Hinv'|]. rewrite Hnil. unfold sumSigned, inRange15. simpl. lia.
    + assert (Hr : walletRows wid db1 = walletRows wid db).
      { unfold walletRows. rewrite Hrows, filter_app. simpl.
        assert ((Wallet.id w =? wid) = false) as -> by lia.
        apply app_nil_r. }
      assert (Hl : ledgerOf wid db1 = ledgerOf wid db)
        by (unfold ledgerOf; rewrite Htx; reflexivity).
      rewrite Hr in Hne. specialize (Hinv wid Hne).
      unfold ledgerInv. rewrite Hr, Hl. exact Hinv.
  - simpl in *. destruct (createWallet_failed _ _ _ _ _ _ E) as [->| ->].
    + split; assumption.
    + split; [exact Hahead | exact Hinv].
Qed.

(** Methods built with [bind] keep what their parts keep. *)
Lemma preserves_ret {S A} (P : S -> Prop) (a : A) : preserves P (ret a).
Proof. intros s H. exact H. Qed.

Lemma preserves_throw {S A} (P : S -> Prop) e : preserves P (@throw S A e).
Proof. intros s H. exact H. Qed.

Lemma preserves_gets {S A} (P : S -> Prop) (f : S -> A) : preserves P (gets f).
Proof. intros s H. exact H. Qed.

Lemma preserves_lift {S A} (P : S -> Prop) (r : Result A) :
  preserves P (@Column.lift S A r).
Proof. intros s H. exact H. Qed.

Lemma preserves_bind {S A B} (P : S -> Prop) (c : M S A) (k : A -> M S B) :
  preserves P c -> (forall a, preserves P (k a)) -> preserves P (bind c k).
Proof.
  intros Hc Hk s H. unfold bind. specialize (Hc s H).
  destruct (c s) as [[a|e] s1]; simpl in *; [apply Hk; exact Hc | exact Hc].
Qed.

Lemma preserves_handle {S A} (P : S -> Prop) (failure : string)
    (c : M S (Routes.Reply A)) (s : S) :
  preserves P c -> P s -> P (snd (Routes.handle failure c s)).
Proof.
  intros Hc H. unfold Routes.handle. specialize (Hc s H).
  destruct (c s) as [[r|e] s1]; exact Hc.
Qed.

Lemma preserves_ledgerOk_createWallet userId walletType now :
  preserves ledgerOk (DatabaseStorage.createWallet userId walletType now).
Proof. intros db. apply ledgerOk_createWallet. Qed.

Lemma preserves_ledgerOk_addWalletTransaction walletId tx now :
  ledgerSafe (WalletTx.i_amount tx) = true ->
  preserves ledgerOk (DatabaseStorage.addWalletTransaction walletId tx now).
Proof. intros Hsafe db Hok. apply ledgerOk_addWalletTransaction; assumption. Qed.

(** The insert of a withdrawal writes to [wallet_withdrawals] only. *)
Lemma preserves_insertWithdrawal (P : Db -> Prop) walletId w net now :
  (forall f db, P db -> P (with_walletWithdrawals f db)) ->
  preserves P (DatabaseStorage.insertWithdrawal walletId w net now).
Proof.
  intros HP. unfold DatabaseStorage.insertWithdrawal.
  repeat (apply preserves_bind; [apply preserves_lift | intros ?]).
  intros db Hdb.
  match goal with |- context [match ?m with Some _ => _ | None => _ end] =>
    destruct m end; simpl; [|apply HP; exact Hdb].
  destruct (negb (DatabaseStorage.walletExists walletId db)); simpl;
    apply HP; exact Hdb.
Qed.

Lemma ledgerOk_withdrawals f db : ledgerOk db -> ledgerOk (with_walletWithdrawals f db).
Proof. intros H. exact H. Qed.

Lemma preserves_ledgerOk_createWithdrawal walletId w now :
  ledgerSafe (Withdrawal.i_amount w) = true ->
  preserves ledgerOk (DatabaseStorage.createWithdrawal walletId w now).
Proof.
  intros Hsafe. unfold DatabaseStorage.createWithdrawal.
  apply preserves_bind.
  - apply preserves_insertWithdrawal. apply ledgerOk_withdrawals.
  - intros wd. apply preserves_bind;
      [apply preserves_ledgerOk_addWalletTransaction; exact Hsafe|].
    intros t. apply preserves_ret.
Qed.

Lemma preserves_getOrCreate (P : Db -> Prop) (found : option Wallet.t) userId walletType now :
  preserves P (DatabaseStorage.createWallet userId walletType now) ->
  preserves P (match found with
               | Some w => ret w
               | None => DatabaseStorage.createWallet userId walletType now
               end).
Proof. intros H. destruct found; [apply preserves_ret | exact H]. Qed.

Lemma preserves_bind_ret {S A B} (P : S -> Prop) (a : A) (k : A -> M S B) :
  preserves P (k a) -> preserves P (bind (ret a) k).
Proof. intros H s Hs. exact (H s Hs). Qed.

Lemma preserves_bind_throw {S A B} (P : S -> Prop) e (k : A -> M S B) :
  preserves P (bind (throw e) k).
Proof. intros s Hs. exact Hs. Qed.

Lemma ledgerOk_routes op db : opSafe op -> ledgerOk db -> ledgerOk (runLedgerOp op db).
Proof.
  intros Hsafe Hok. destruct op; cbn [runLedgerOp opSafe] in *.
  - apply ledgerOk_createWallet. exact Hok.
  - apply ledgerOk_addWalletTransaction; assumption.
  - apply preserves_ledgerOk_createWithdrawal; assumption.
  - unfold Routes.walletCreate.
    apply preserves_handle; [|exact Hok].
    apply preserves_bind; [apply preserves_gets|]. intros found.
    apply preserves_bind;
      [apply preserves_getOrCreate, preserves_ledgerOk_createWallet|].
    intros w. apply preserves_ret.
  - unfold Routes.walletGet.
    apply preserves_handle; [|exact Hok].
    apply preserves_bind; [apply preserves_gets|]. intros found.
    apply preserves_bind;
      [apply preserves_getOrCreate, preserves_ledgerOk_createWallet|].
    intros w. apply preserves_ret.
  - unfold Routes.addFunds.
    apply preserves_handle; [|exact Hok].
    apply preserves_bind; [apply preserves_gets|]. intros found.
    apply preserves_bind;
      [apply preserves_getOrCreate, preserves_ledgerOk_createWallet|].
    intros w. destruct amount as [a|]; [|apply preserves_bind_throw].
    apply preserves_bind_ret.
    apply preserves_bind; [|intros t; apply preserves_ret].
    apply preserves_ledgerOk_addWalletTransaction. exact Hsafe.
  - unfold Routes.withdraw.
    apply preserves_handle; [|exact Hok].
    apply preserves_bind; [apply preserves_gets|]. intros [w|]; [|apply preserves_ret].
    destruct (Routes.insufficient _ _); [apply preserves_ret|].
    destruct amount as [a|]; [|apply preserves_bind_throw].
    apply preserves_bind_ret.
    apply preserves_bind; [|intros wd; apply preserves_ret].
    apply preserves_ledgerOk_createWithdrawal. exact Hsafe.
Qed.

(** Outside these amounts the ledger breaks: a credit of ["NaN"] is
    entered, and leaves a balance of ["NaN"]. *)
Example credit_of_NaN_breaks_the_ledger :
  let tx := WalletTx.mkInsert "credit" NaNString None None None None None None None in
  exists t db',
    DatabaseStorage.addWalletTransaction 1 tx today demoDbWithWallet = (Ok t, db')
    /\ WalletTx.balanceAfter t = NaNString
    /\ DatabaseStorage.getWalletBalance 1 db' = NaNString.
Proof. eexists. eexists. split; [vm_compute; reflexivity|]. split; reflexivity. Qed.

(** X2. Every wallet's stored balance is the sum of its ledger, and every
    [balanceAfter] the running sum, after any sequence of [createWallet],
    [addWalletTransaction], [createWithdrawal] and the wallet routes
    (create, get, add-funds, withdraw), on any wallets, whether the calls
    succeed or fail, from a store where this holds, as long as every amount
    given is a numeral with at most two decimals or a text the columns
    refuse (not ["NaN"], not a numeral with more decimals). *)
Theorem ledger_adds_up_for_every_wallet :
  forall (ops : list LedgerOp) db,
    ledgerOk db ->
    Forall opSafe ops ->
    let db' := runLedgerOps ops db in
    forall w,
      In w (Sql.rows (digitalWallets db')) ->
      Wallet.balance w = Some (dec (sumSigned (ledgerOf (Wallet.id w) db')))
      /\ runningFrom 0 (ledgerOf (Wallet.id w) db')
      /\ inRange15 (sumSigned (ledgerOf (Wallet.id w) db')).
Proof.
  intros ops db Hok Hsafe db'.
  assert (Hok' : ledgerOk db').
  { unfold db', runLedgerOps. clear db'. revert db Hok.
    induction Hsafe as [|op ops Hop Hops IH]; intros db Hok; simpl; [exact Hok|].
    apply IH. apply ledgerOk_routes; assumption. }
  intros w Hin.
  assert (Hrow : In w (walletRows (Wallet.id w) db')).
  { unfold walletRows. apply filter_In. split; [exact Hin | apply Z.eqb_refl]. }
  destruct Hok' as [_ Hinv].
  destruct (Hinv (Wallet.id w)) as ((_ & Hbal & Hrun) & Hrange).
  { intros Hnil. rewrite Hnil in Hrow. exact Hrow. }
  split; [exact (Hbal w Hrow)|]. split; [exact Hrun | exact Hrange].
Qed.

Lemma ledger_adds_up_for_every_wallet_witness :
  ledgerOk demoDb
  /\ Forall opSafe demoLedgerOps
  /\ forall w,
       In w (Sql.rows (digitalWallets (runLedgerOps demoLedgerOps demoDb))) ->
       Wallet.balance w
       = Some (dec (sumSigned (ledgerOf (Wallet.id w)
                                 (runLedgerOps demoLedgerOps demoDb))))
       /\ runningFrom 0 (ledgerOf (Wallet.id w) (runLedgerOps demoLedgerOps demoDb))
       /\ inRange15 (sumSigned (ledgerOf (Wallet.id w)
                                  (runLedgerOps demoLedgerOps demoDb))).
Proof.
  assert (Hok : ledgerOk demoDb).
  { split; [split; intros x []|]. intros wid H. exfalso. apply H. reflexivity. }
  assert (Hsafe : Forall opSafe demoLedgerOps).
  { repeat constructor. }
  split; [exact Hok|]. split; [exact Hsafe|].
  exact (ledger_adds_up_for_every_wallet demoLedgerOps demoDb Hok Hsafe).
Defined.

Example demo_ledger_ops_balance :
  map (fun w => match Wallet.balance w with Some b => showDecimal b | None => None end)
      (Sql.rows (digitalWallets (runLedgerOps demoLedgerOps demoDb)))
  = [Some "60.00"].
Proof. vm_compute. reflexivity. Qed.

(** ** The wallet routes *)

Lemma latestBy_In {R} (key : R -> option Date) (l : list R) (r : R) :
  Sql.latestBy key l = Some r -> In r l.
Proof.
  revert r. induction l as [|x l IH]; simpl; intros r; [discriminate|].
  destruct (Sql.latestBy key l) as [r'|].
  - destruct (Sql.newerThan (key r') (key x)); intros H; injection H as <-.
    + right. apply IH. reflexivity.
    + left. reflexivity.
  - intros H. injection H as <-. left. reflexivity.
Qed.

Lemma latestBy_some {R} (key : R -> option Date) (l : list R) :
  l <> [] -> exists r, Sql.latestBy key l = Some r.
Proof.
  destruct l as [|x l]; [congruence|]. intros _. simpl.
  destruct (Sql.latestBy key l) as [r'|]; [|eexists; reflexivity].
  destruct (Sql.newerThan (key r') (key x)); eexists; reflexivity.
Qed.

Lemma createWallet_fields userId walletType now db w db1 :
  DatabaseStorage.createWallet userId walletType now db = (Ok w, db1) ->
  Wallet.userId w = userId
  /\ Column.varchar 50 walletType = Ok (Wallet.walletType w).
Proof.
  unfold DatabaseStorage.createWallet, DatabaseStorage.insertWallet, bind, Column.lift.
  destruct (Column.varchar 100 _) as [ad|]; [|discriminate].
  destruct (Column.varchar 50 walletType) as [ty|]; [|discriminate].
  destruct (Column.numeric 15 (dec 0)) as [ba|]; [|discriminate].
  destruct (Column.varchar 3 "USD") as [cu|]; [|discriminate].
  destruct (existsb _ _); [discriminate|].
  destruct (negb (DatabaseStorage.userExists userId db)); [discriminate|].
  simpl. intros H. injection H as <- _. split; reflexivity.
Qed.

(** The condition of [getUserWallet]. *)
Lemma getUserWallet_found userId walletType db w :
  DatabaseStorage.getUserWallet userId walletType db = Some w ->
  In w (Sql.rows (digitalWallets db))
  /\ Wallet.userId w = userId
  /\ (forall ty, walletType = Some ty -> Js.truthy ty = true ->
      Wallet.walletType w = ty).
Proof.
  unfold DatabaseStorage.getUserWallet, Sql.selectWhere. intros H.
  apply latestBy_In in H. apply filter_In in H. destruct H as [Hin Hc].
  apply andb_true_iff in Hc. destruct Hc as [Hu Ht].
  split; [exact Hin|]. split; [apply Z.eqb_eq; exact Hu|].
  intros ty -> Htr. rewrite Htr in Ht. apply String.eqb_eq. exact Ht.
Qed.

(** The route is not a get-or-create for every wallet type: a type of 51
    characters that ends in a space is cut to 50 by the column, the lookup
    by the type as given finds nothing, and the second call makes a second
    wallet. *)
Example walletCreate_route_padded_type_makes_two_wallets :
  String.length paddedType = 51%nat
  /\ Routes.status (fst (Routes.walletCreate (Some paddedType) today demoDb)) = 200
  /\ Routes.status
       (fst (Routes.walletCreate (Some paddedType) laterToday
               (snd (Routes.walletCreate (Some paddedType) today demoDb)))) = 200
  /\ List.length
       (Sql.rows (digitalWallets (snd (Routes.walletCreate (Some paddedType) today demoDb))))
     = 1%nat
  /\ List.length
       (Sql.rows
          (digitalWallets
             (snd (Routes.walletCreate (Some paddedType) laterToday
                     (snd (Routes.walletCreate (Some paddedType) today demoDb))))))
     = 2%nat.
Proof. repeat split; vm_compute; reflexivity. Qed.

(** X3. The wallet-create route is a get-or-create: for a wallet type of at
    most 50 characters, once it has answered 200, a second call at any later
    time answers 200 with a wallet of the demo user that is in the table,
    and writes nothing. *)
Theorem walletCreate_route_idempotent :
  forall walletType now db r db1,
    Column.optFits 50 walletType = true ->
    Routes.walletCreate walletType now db = (r, db1) ->
    Routes.status r = 200 ->
    forall now2,
    exists w,
      Routes.walletCreate walletType now2 db1
      = (Routes.reply 200 (Routes.Payload ("Wallet ready", w)), db1)
      /\ In w (Sql.rows (digitalWallets db1))
      /\ Wallet.userId w = Routes.demoUserId.
Proof.
  intros walletType now db r db1 Hfits H Hs now2.
  set (ty := match walletType with Some t => t | None => "personal" end) in *.
  assert (Hty : Column.fits 50 ty = true).
  { unfold ty. destruct walletType; [exact Hfits | reflexivity]. }
  assert (Hfound : exists w, DatabaseStorage.getUserWallet Routes.demoUserId (Some ty) db1
                             = Some w).
  { revert H. unfold Routes.walletCreate, Routes.handle, bind, gets, ret. fold ty.
    destruct (DatabaseStorage.getUserWallet Routes.demoUserId (Some ty) db) as [w|] eqn:E.
    - intros H. injection H as _ <-. exists w. exact E.
    - destruct (DatabaseStorage.createWallet Routes.demoUserId ty now db)
        as [[w|e] d] eqn:Ec; intros H; injection H as <- <-; [|discriminate].
      destruct (createWallet_ok _ _ _ _ _ _ Ec) as (_ & _ & Hrows & _).
      destruct (createWallet_fields _ _ _ _ _ _ Ec) as [Hu Ht].
      rewrite (varchar_fits _ _ Hty) in Ht. injection Ht as Ht.
      unfold DatabaseStorage.getUserWallet. apply latestBy_some.
      unfold Sql.selectWhere. rewrite Hrows, filter_app. simpl.
      rewrite Hu, <- Ht, Z.eqb_refl, String.eqb_refl. simpl.
      destruct (Js.truthy ty); intros Habs; apply app_eq_nil in Habs;
        destruct Habs; discriminate. }
  destruct Hfound as [w Hw]. exists w.
  destruct (getUserWallet_found _ _ _ _ Hw) as (Hin & Hu & _).
  split; [|split; assumption].
  unfold Routes.walletCreate, Routes.handle, bind, gets, ret. fold ty.
  rewrite Hw. reflexivity.
Qed.

Lemma walletCreate_route_idempotent_witness :
  Column.optFits 50 None = true
  /\ Routes.status (fst (Routes.walletCreate None today demoDb)) = 200
  /\ exists w,
       Routes.walletCreate None laterToday (snd (Routes.walletCreate None today demoDb))
       = (Routes.reply 200 (Routes.Payload ("Wallet ready", w)),
          snd (Routes.walletCreate None today demoDb))
       /\ In w (Sql.rows (digitalWallets (snd (Routes.walletCreate None today demoDb))))
       /\ Wallet.userId w = Routes.demoUserId.
Proof.
  split; [reflexivity|]. split; [reflexivity|].
  exact (walletCreate_route_idempotent None today demoDb
           (fst (Routes.walletCreate None today demoDb))
           (snd (Routes.walletCreate None today demoDb))
           eq_refl (surjective_pairing _) eq_refl laterToday).
Defined.

Lemma walletRows_single db w :
  walletIdsDistinct db -> In w (Sql.rows (digitalWallets db)) ->
  walletRows (Wallet.id w) db = [w].
Proof.
  unfold walletIdsDistinct, walletRows.
  induction (Sql.rows (digitalWallets db)) as [|x l IH]; simpl; [intros _ []|].
  intros Hnd Hin. inversion Hnd as [|? ? Hnot Hnd']; subst.
  destruct Hin as [->|Hin].
  - rewrite Z.eqb_refl. f_equal. apply filter_none. intros y Hy.
    apply Z.eqb_neq. intros Heq. apply Hnot. rewrite <- Heq. apply in_map. exact Hy.
  - assert ((Wallet.id x =? Wallet.id w) = false) as ->.
    { apply Z.eqb_neq. intros Heq. apply Hnot. rewrite Heq. apply in_map. exact Hin. }
    apply IH; assumption.
Qed.

Lemma getWalletBalance_of_row db w b :
  walletIdsDistinct db -> In w (Sql.rows (digitalWallets db)) ->
  Wallet.balance w = Some (dec b) ->
  DatabaseStorage.getWalletBalance (Wallet.id w) db = dec b
  /\ DatabaseStorage.walletExists (Wallet.id w) db = true.
Proof.
  intros Hnd Hin Hb. pose proof (walletRows_single db w Hnd Hin) as Hr. split.
  - unfold DatabaseStorage.getWalletBalance, Sql.first, Sql.selectWhere.
    fold (walletRows (Wallet.id w) db). rewrite Hr. simpl. rewrite Hb. reflexivity.
  - apply walletExists_rows. rewrite Hr. discriminate.
Qed.


(** An amount of ["NaN"] passes the balance check of the withdraw route,
    and the balance it leaves is ["NaN"]. *)
Example withdraw_route_NaN_passes_the_guard :
  exists wd db',
    Routes.withdraw (Some NaNString) (Some "paypal") None laterToday demoDbFunded
    = (Routes.reply 200 (Routes.Payload ("Withdrawal request created", wd)), db')
    /\ DatabaseStorage.getWalletBalance 1 db' = NaNString.
Proof. eexists. eexists. split; [vm_compute; reflexivity | reflexivity]. Qed.



(** X5. The add-funds route, when the demo user has a personal wallet with
    a balance of [b] hundredths, answers 200 for an amount of [a] hundredths
    written with at most two decimals (and a source type of at most 50
    characters, all within [decimal(15, 2)]) with a credit of [a] whose
    [balanceAfter], reported as [newBalance], is [b + a], the balance then
    stored. The route has no check on the sign of the amount. *)
Theorem addFunds_route_credits_wallet :
  forall db wallet (amount : Decimal) (b a : Z) description sourceType now,
    walletIdsDistinct db ->
    DatabaseStorage.getUserWallet Routes.demoUserId (Some "personal") db = Some wallet ->
    Wallet.balance wallet = Some (dec b) ->
    inRange15 b ->
    hundredthsOf amount = Some a ->
    inRange15 a ->
    inRange15 (b + a) ->
    Column.optFits 50 sourceType = true ->
    exists added db',
      Routes.addFunds (Some amount) description sourceType now db
      = (Routes.reply 200 (Routes.Payload added), db')
      /\ WalletTx.walletId (Routes.fa_transaction added) = Wallet.id wallet
      /\ WalletTx.transactionType (Routes.fa_transaction added) = "credit"
      /\ WalletTx.amount (Routes.fa_transaction added) = dec a
      /\ Routes.fa_newBalance added = dec (b + a)
      /\ DatabaseStorage.getWalletBalance (Wallet.id wallet) db' = dec (b + a)
      /\ Sql.rows (walletTransactions db')
         = Sql.rows (walletTransactions db) ++ [Routes.fa_transaction added].
Proof.
  intros db wallet amount b a description sourceType now Hnd Hw Hb Hrb Ha Hra Hrn Hsrc.
  destruct (getUserWallet_found _ _ _ _ Hw) as (Hin & _ & _).
  destruct (getWalletBalance_of_row db wallet b Hnd Hin Hb) as [Hbal Hex].
  unfold Routes.addFunds, Routes.handle, bind, gets, ret. rewrite Hw.
  match goal with
  | |- context [DatabaseStorage.addWalletTransaction ?x ?tx ?n db] =>
      destruct (addWalletTransaction_result x tx n db b a Hex Hbal Hrb)
        as (t & db' & Hrun & Hrows & Hwid & Hty & Hamt & Hafter & _ & _ & Hnew & _);
        [ | exact Ha | exact Hra | exact Hrn | rewrite Hrun ]
  end.
  { unfold columnsFit. simpl.
    destruct sourceType as [st|]; [|reflexivity].
    simpl in Hsrc. rewrite Hsrc. reflexivity. }
  eexists. exists db'. split; [reflexivity|]. simpl.
  repeat split; assumption.
Qed.

Lemma addFunds_route_credits_wallet_witness :
  walletIdsDistinct demoDbFunded
  /\ DatabaseStorage.getUserWallet Routes.demoUserId (Some "personal") demoDbFunded
     = Some demoFundedWallet
  /\ Wallet.balance demoFundedWallet = Some (dec 10000)
  /\ hundredthsOf (Num (-25) 0) = Some (-2500)
  /\ exists added db',
       Routes.addFunds (Some (Num (-25) 0)) None None laterToday demoDbFunded
       = (Routes.reply 200 (Routes.Payload added), db')
       /\ showDecimal (Routes.fa_newBalance added) = Some "75.00".
Proof.
  assert (Hnd : walletIdsDistinct demoDbFunded).
  { unfold walletIdsDistinct. vm_compute. constructor; [intros []|constructor]. }
  assert (Hw : DatabaseStorage.getUserWallet Routes.demoUserId (Some "personal")
                 demoDbFunded = Some demoFundedWallet) by (vm_compute; reflexivity).
  assert (Hr : forall n, Z.abs n < 10 ^ 15 -> inRange15 n) by (unfold inRange15; lia).
  split; [exact Hnd|]. split; [exact Hw|]. split; [reflexivity|].
  split; [reflexivity|].
  destruct (addFunds_route_credits_wallet demoDbFunded demoFundedWallet (Num (-25) 0)
              10000 (-2500) None None laterToday Hnd Hw eq_refl (Hr 10000 eq_refl)
              eq_refl (Hr (-2500) eq_refl) (Hr (10000 + -2500) eq_refl) eq_refl)
    as (added & db' & H1 & _ & _ & _ & H5 & _).
  exists added, db'. split; [exact H1|]. rewrite H5. reflexivity.
Defined.

(** ** Withdrawals of a user *)

Lemma getUserWithdrawals_In userId db wd w :
  In (wd, w) (WalletReads.getUserWithdrawals userId db)
  <-> In wd (Sql.rows (walletWithdrawals db))
      /\ In w (Sql.rows (digitalWallets db))
      /\ Withdrawal.walletId wd = Wallet.id w
      /\ Wallet.userId w = userId.
Proof.
  unfold WalletReads.getUserWithdrawals.
  rewrite orderByDesc_In, in_flat_map. split.
  - intros (wd0 & Hwd & Hin). apply in_map_iff in Hin.
    destruct Hin as (w0 & Heq & Hw0). injection Heq as -> ->.
    apply filter_In in Hw0. destruct Hw0 as [Hw Hc].
    apply andb_true_iff in Hc. destruct Hc as [H1 H2].
    apply Z.eqb_eq in H1, H2. repeat split; assumption.
  - intros (Hwd & Hw & H1 & H2). exists wd. split; [exact Hwd|].
    apply in_map. apply filter_In. split; [exact Hw|].
    apply andb_true_iff. split; apply Z.eqb_eq; assumption.
Qed.

(** X6. [getUserWithdrawals] returns exactly the pairs of a withdrawal and
    the wallet it was made on whose wallet belongs to the user, the newest
    withdrawal first. *)
Theorem getUserWithdrawals_joins_user_wallets :
  forall userId db,
    (forall wd w,
        In (wd, w) (WalletReads.getUserWithdrawals userId db)
        <-> In wd (Sql.rows (walletWithdrawals db))
            /\ In w (Sql.rows (digitalWallets db))
            /\ Withdrawal.walletId wd = Wallet.id w
            /\ Wallet.userId w = userId)
    /\ StronglySorted
         (fun p q => notOlder (Withdrawal.createdAt (fst p)) (Withdrawal.createdAt (fst q)))
         (WalletReads.getUserWithdrawals userId db).
Proof.
  intros userId db. split.
  - intros wd w. apply getUserWithdrawals_In.
  - apply (orderByDesc_sorted (fun p : Withdrawal.t * Wallet.t => Withdrawal.createdAt (fst p))).
Qed.

(** X7. A withdrawal made by [createWithdrawal] on a wallet of a user is
    listed by [getUserWithdrawals] for that user, with the full amount and
    the net amount after the fee, when amount and fee are written with at
    most two decimals, the withdrawal has a method and all fits the
    columns. *)
Theorem createWithdrawal_then_listed :
  forall userId walletId (w : Withdrawal.insert) now db wallet (b a f : Z) (m : string),
    In wallet (Sql.rows (digitalWallets db)) ->
    Wallet.id wallet = walletId ->
    Wallet.userId wallet = userId ->
    DatabaseStorage.getWalletBalance walletId db = dec b ->
    inRange15 b ->
    hundredthsOf (Withdrawal.i_amount w) = Some a ->
    inRange15 a ->
    feeHundredths w = Some f ->
    Z.abs f < 10 ^ 10 ->
    Withdrawal.i_withdrawalMethod w = Some m ->
    withdrawalFits w = true ->
    inRange15 (a - f) ->
    inRange15 (b - a) ->
    exists wd wallet' db',
      DatabaseStorage.createWithdrawal walletId w now db = (Ok wd, db')
      /\ In (wd, wallet') (WalletReads.getUserWithdrawals userId db')
      /\ Withdrawal.amount wd = dec a
      /\ Withdrawal.netAmount wd = dec (a - f).
Proof.
  intros userId walletId w now db wallet b a f m Hin Hid Hu Hbal Hb Ha Hra Hf Hrf Hm
    Hfit Hnet Hleft.
  assert (Hex : DatabaseStorage.walletExists walletId db = true).
  { unfold DatabaseStorage.walletExists. apply existsb_exists. exists wallet.
    split; [exact Hin | apply Z.eqb_eq; exact Hid]. }
  destruct (createWithdrawal_fits walletId w now db b a f m
              Hex Hbal Hb Ha Hra Hf Hrf Hm Hfit Hnet Hleft)
    as (wd & t & db' & Hrun & Hamt & Hnetwd & Hwid & Hwd & _ & _ & _ & _ & _ & _ & _
        & Hwallets & _).
  exists wd, (Wallet.touch (dec (b - a)) now wallet), db'.
  split; [exact Hrun|]. split; [|split; assumption].
  apply getUserWithdrawals_In.
  split; [rewrite Hwd; apply in_or_app; right; left; reflexivity|].
  split; [|split].
  - rewrite Hwallets. simpl. apply in_map_iff. exists wallet. split; [|exact Hin].
    rewrite Hid, Z.eqb_refl. reflexivity.
  - rewrite Hwid. simpl. symmetry. exact Hid.
  - simpl. exact Hu.
Qed.

Lemma createWithdrawal_then_listed_witness :
  In demoFundedWallet (Sql.rows (digitalWallets demoDbFunded))
  /\ DatabaseStorage.getWalletBalance 1 demoDbFunded = dec 10000
  /\ hundredthsOf (Withdrawal.i_amount withdraw100) = Some 10000
  /\ feeHundredths withdraw100 = Some 250
  /\ withdrawalFits withdraw100 = true
  /\ exists wd wallet' db',
       DatabaseStorage.createWithdrawal 1 withdraw100 laterToday demoDbFunded = (Ok wd, db')
       /\ In (wd, wallet') (WalletReads.getUserWithdrawals 1 db')
       /\ showDecimal (Withdrawal.netAmount wd) = Some "97.50".
Proof.
  assert (Hin : In demoFundedWallet (Sql.rows (digitalWallets demoDbFunded)))
    by (vm_compute; left; reflexivity).
  assert (Hbal : DatabaseStorage.getWalletBalance 1 demoDbFunded = dec 10000)
    by (vm_compute; reflexivity).
  assert (Hr : forall n, Z.abs n < 10 ^ 15 -> inRange15 n) by (unfold inRange15; lia).
  split; [exact Hin|]. split; [exact Hbal|]. split; [reflexivity|].
  split; [reflexivity|]. split; [reflexivity|].
  destruct (createWithdrawal_then_listed 1 1 withdraw100 laterToday demoDbFunded
              demoFundedWallet 10000 10000 250 "paypal" Hin eq_refl eq_refl Hbal
              (Hr 10000 eq_refl) eq_refl (Hr 10000 eq_refl) eq_refl eq_refl eq_refl
              eq_refl (Hr (10000 - 250) eq_refl) (Hr (10000 - 10000) eq_refl))
    as (wd & wallet' & db' & H1 & H2 & _ & H4).
  exists wd, wallet', db'. split; [exact H1|]. split; [exact H2|].
  rewrite H4. reflexivity.
Defined.

(** The precondition of the route properties, [walletIdsDistinct], is kept
    by every operation on the wallet tables. *)
Lemma walletKeysOk_createWallet userId walletType now :
  preserves walletKeysOk (DatabaseStorage.createWallet userId walletType now).
Proof.
  intros db [Ha Hnd].
  pose proof (walletSerialAhead_createWallet userId walletType now db Ha) as Hahead.
  destruct (DatabaseStorage.createWallet userId walletType now db) as [[w|e] db1] eqn:E.
  - simpl in *. split; [exact Hahead|].
    destruct (createWallet_ok _ _ _ _ _ _ E) as (Hid & _ & Hrows & _).
    unfold walletIdsDistinct in *. rewrite Hrows, map_app. simpl.
    apply NoDup_app; [exact Hnd | constructor; [intros [] | constructor] |].
    intros x Hx [<-|[]]. apply in_map_iff in Hx. destruct Hx as (y & Hy & Hin).
    destruct Ha as [Hw _]. specialize (Hw y Hin). lia.
  - simpl in *. destruct (createWallet_failed _ _ _ _ _ _ E) as [->| ->];
      split; assumption.
Qed.

Lemma walletKeysOk_addWalletTransaction walletId tx now :
  preserves walletKeysOk (DatabaseStorage.addWalletTransaction walletId tx now).
Proof.
  intros db [Ha Hnd]. split; [apply walletSerialAhead_addWalletTransaction; exact Ha|].
  destruct (addWalletTransaction_cases walletId tx now db)
    as [[e H]|[[E H]|[E (r & H & _)]]]; rewrite H; try exact Hnd.
  unfold walletIdsDistinct in *. simpl.
  rewrite map_map.
  erewrite map_ext; [exact Hnd|].
  intros x. simpl. destruct (Wallet.id x =? walletId); reflexivity.
Qed.

Lemma walletKeysOk_withdrawals f db :
  walletKeysOk db -> walletKeysOk (with_walletWithdrawals f db).
Proof. intros H. exact H. Qed.

Lemma walletKeysOk_createWithdrawal walletId w now :
  preserves walletKeysOk (DatabaseStorage.createWithdrawal walletId w now).
Proof.
  unfold DatabaseStorage.createWithdrawal.
  apply preserves_bind.
  - apply preserves_insertWithdrawal. apply walletKeysOk_withdrawals.
  - intros wd. apply preserves_bind; [apply walletKeysOk_addWalletTransaction|].
    intros t. apply preserves_ret.
Qed.

Lemma walletKeysOk_runLedgerOps ops : forall db,
  walletKeysOk db -> walletKeysOk (runLedgerOps ops db).
Proof.
  unfold runLedgerOps. induction ops as [|op ops IH]; intros db Hok; simpl; [exact Hok|].
  apply IH. destruct op; cbn [runLedgerOp].
  - apply walletKeysOk_createWallet. exact Hok.
  - apply walletKeysOk_addWalletTransaction. exact Hok.
  - apply walletKeysOk_createWithdrawal. exact Hok.
  - unfold Routes.walletCreate. apply preserves_handle; [|exact Hok].
    apply preserves_bind; [apply preserves_gets|]. intros found.
    apply preserves_bind; [apply preserves_getOrCreate, walletKeysOk_createWallet|].
    intros w. apply preserves_ret.
  - unfold Routes.walletGet. apply preserves_handle; [|exact Hok].
    apply preserves_bind; [apply preserves_gets|]. intros found.
    apply preserves_bind; [apply preserves_getOrCreate, walletKeysOk_createWallet|].
    intros w. apply preserves_ret.
  - unfold Routes.addFunds. apply preserves_handle; [|exact Hok].
    apply preserves_bind; [apply preserves_gets|]. intros found.
    apply preserves_bind; [apply preserves_getOrCreate, walletKeysOk_createWallet|].
    intros w. apply preserves_bind.
    { destruct amount; [apply preserves_ret | apply preserves_throw]. }
    intros a. apply preserves_bind; [apply walletKeysOk_addWalletTransaction|].
    intros t. apply preserves_ret.
  - unfold Routes.withdraw. apply preserves_handle; [|exact Hok].
    apply preserves_bind; [apply preserves_gets|]. intros [w|]; [|apply preserves_ret].
    destruct (Routes.insufficient _ _); [apply preserves_ret|].
    apply preserves_bind.
    { destruct amount; [apply preserves_ret | apply preserves_throw]. }
    intros a. apply preserves_bind; [apply walletKeysOk_createWithdrawal|].
    intros wd. apply preserves_ret.
Qed.

(** ** Balances through the routes *)

Lemma nonNegative_addWalletTransaction db w b a tx now :
  walletKeysOk db -> balancesNonNegative db ->
  In w (Sql.rows (digitalWallets db)) ->
  Wallet.balance w = Some (dec b) ->
  0 <= b < 10 ^ 15 ->
  hundredthsOf (WalletTx.i_amount tx) = Some a ->
  (inRange15 a -> 0 <= b + signedCall tx a) ->
  balancesNonNegative (snd (DatabaseStorage.addWalletTransaction (Wallet.id w) tx now db)).
Proof.
  intros [_ Hnd] Hpos Hin Hb Hrb Ha Hnew.
  destruct (getWalletBalance_of_row db w b Hnd Hin Hb) as [Hbal Hex].
  assert (Hrb15 : inRange15 b) by (unfold inRange15; lia).
  destruct (addWalletTransaction_cases (Wallet.id w) tx now db)
    as [[e H]|[[E H]|[E (r & H & _ & _ & _ & Ham & Hcast & _)]]]; rewrite H;
    try exact Hpos.
  destruct (numeric_ok_inRange _ _ _ Ha Ham) as [_ Hra].
  assert (Hnum : newBalanceOf (Wallet.id w) tx db = dec (b + signedCall tx a)).
  { unfold newBalanceOf, signedCall. rewrite Hbal.
    destruct (String.eqb (WalletTx.i_transactionType tx) "credit").
    - apply balance_add_exact; assumption.
    - rewrite (balance_sub_exact _ b a Ha Hrb15 Hra). f_equal. }
  rewrite Hnum in Hcast.
  destruct (numeric_ok_inRange _ _ _ (hundredthsOf_dec _) Hcast) as [Hafter Hrn].
  intros x Hx. simpl in Hx. apply in_map_iff in Hx. destruct Hx as (y & <- & Hy).
  destruct (Wallet.id y =? Wallet.id w).
  - exists (b + signedCall tx a). split; [simpl; rewrite Hafter; reflexivity|].
    specialize (Hnew Hra). unfold inRange15 in Hrn. lia.
  - exact (Hpos y Hy).
Qed.

Lemma nonNegative_createWallet userId walletType now db :
  balancesNonNegative db ->
  balancesNonNegative (snd (DatabaseStorage.createWallet userId walletType now db)).
Proof.
  intros Hpos.
  destruct (DatabaseStorage.createWallet userId walletType now db) as [[w|e] db1] eqn:E.
  - simpl. destruct (createWallet_ok _ _ _ _ _ _ E) as (_ & Hbal & Hrows & _).
    intros x Hx. rewrite Hrows in Hx. apply in_app_or in Hx.
    destruct Hx as [Hx|[<-|[]]]; [exact (Hpos x Hx)|].
    exists 0. split; [exact Hbal | lia].
  - simpl. destruct (createWallet_failed _ _ _ _ _ _ E) as [->| ->]; exact Hpos.
Qed.

(** *** A small logic of methods *)

Lemma triple_bind {S A B} (P : S -> Prop) (c : M S A) (Q : A -> S -> Prop)
    (k : A -> M S B) (R : B -> S -> Prop) (I : S -> Prop) :
  triple P c Q I -> (forall a, triple (Q a) (k a) R I) -> triple P (bind c k) R I.
Proof.
  intros Hc Hk s H. unfold bind. specialize (Hc s H).
  destruct (c s) as [[a|e] s1]; [apply Hk; exact Hc | exact Hc].
Qed.

Lemma triple_ret {S A} (P : S -> Prop) (a : A) (Q : A -> S -> Prop) (I : S -> Prop) :
  (forall s, P s -> Q a s) -> triple P (ret a) Q I.
Proof. intros H s Hs. apply H. exact Hs. Qed.

Lemma triple_ret_eq {S A} (P : S -> Prop) (a : A) (I : S -> Prop) :
  triple P (ret a) (fun a' s => P s /\ a' = a) I.
Proof. intros s Hs. split; [exact Hs | reflexivity]. Qed.

Lemma triple_throw {S A} (P : S -> Prop) e (Q : A -> S -> Prop) (I : S -> Prop) :
  (forall s, P s -> I s) -> triple P (throw e) Q I.
Proof. intros H s Hs. apply H. exact Hs. Qed.

Lemma triple_throw_bind {S A B} (P : S -> Prop) e (k : A -> M S B)
    (R : B -> S -> Prop) (I : S -> Prop) :
  (forall s, P s -> I s) -> triple P (bind (throw e) k) R I.
Proof. intros H s Hs. apply H. exact Hs. Qed.

Lemma triple_gets {S A} (P : S -> Prop) (f : S -> A) (Q : A -> S -> Prop)
    (I : S -> Prop) :
  (forall s, P s -> Q (f s) s) -> triple P (gets f) Q I.
Proof. intros H s Hs. apply H. exact Hs. Qed.

Lemma triple_handle {S A} (I : S -> Prop) (failure : string)
    (c : M S (Routes.Reply A)) (s : S) :
  triple I c (fun _ s' => I s') I -> I s -> I (snd (Routes.handle failure c s)).
Proof.
  intros Hc H. unfold Routes.handle. specialize (Hc s H).
  destruct (c s) as [[r|e] s1]; exact Hc.
Qed.

Lemma lookup_triple userId ty :
  triple walletsSound (gets (DatabaseStorage.getUserWallet userId (Some ty)))
    (fun found s => walletsSound s
                    /\ found = DatabaseStorage.getUserWallet userId (Some ty) s)
    walletsSound.
Proof. intros s H. split; [exact H | reflexivity]. Qed.

Lemma lookupOrCreate_triple userId ty now (found : option Wallet.t) :
  triple (fun s => walletsSound s
                   /\ found = DatabaseStorage.getUserWallet userId (Some ty) s)
    (match found with
     | Some w => ret w
     | None => DatabaseStorage.createWallet userId ty now
     end)
    (fun w s => walletsSound s /\ In w (Sql.rows (digitalWallets s)))
    walletsSound.
Proof.
  intros db [[Hk Hpos] Hf]. destruct found as [w|].
  - simpl. split; [split; assumption|].
    symmetry in Hf. apply (getUserWallet_found _ _ _ _ Hf).
  - pose proof (walletKeysOk_createWallet userId ty now db Hk) as Hk1.
    pose proof (nonNegative_createWallet userId ty now db Hpos) as Hp1.
    destruct (DatabaseStorage.createWallet userId ty now db) as [[w|e] d] eqn:Ec;
      simpl in *; [|split; assumption].
    split; [split; assumption|].
    destruct (createWallet_ok _ _ _ _ _ _ Ec) as (_ & _ & Hrows & _).
    rewrite Hrows. apply in_or_app. right. left. reflexivity.
Qed.

Lemma addWalletTransaction_triple w tx now :
  triple (fun s => walletsSound s /\ In w (Sql.rows (digitalWallets s))
                   /\ leavesNonNegative w tx)
    (DatabaseStorage.addWalletTransaction (Wallet.id w) tx now)
    (fun _ s => walletsSound s) walletsSound.
Proof.
  intros db ([Hk Hpos] & Hin & a & Ha & Hnew).
  destruct (Hpos w Hin) as (b & Hb & Hrb).
  pose proof (walletKeysOk_addWalletTransaction (Wallet.id w) tx now db Hk) as Hk1.
  pose proof (nonNegative_addWalletTransaction db w b a tx now Hk Hpos Hin Hb Hrb Ha
                (Hnew b Hb Hrb)) as Hp1.
  destruct (DatabaseStorage.addWalletTransaction (Wallet.id w) tx now db) as [[t|e] d];
    split; assumption.
Qed.

Lemma walletsSound_withdrawals f db :
  walletsSound db -> walletsSound (with_walletWithdrawals f db).
Proof. intros H. exact H. Qed.

Lemma createWithdrawal_triple w ins now :
  triple (fun s => walletsSound s /\ In w (Sql.rows (digitalWallets s))
                   /\ exists a,
                        hundredthsOf (Withdrawal.i_amount ins) = Some a
                        /\ forall b, Wallet.balance w = Some (dec b) ->
                             0 <= b < 10 ^ 15 -> inRange15 a -> a <= b)
    (DatabaseStorage.createWithdrawal (Wallet.id w) ins now)
    (fun _ s => walletsSound s) walletsSound.
Proof.
  intros db (Hs & Hin & a & Ha & Hle).
  unfold DatabaseStorage.createWithdrawal, bind, ret.
  pose proof (preserves_insertWithdrawal
                (fun s => walletsSound s /\ In w (Sql.rows (digitalWallets s)))
                (Wallet.id w) ins
                (toFixed2
                   (JsNumber.sub (parseFloat (Withdrawal.i_amount ins))
                      (parseFloat (textOr (Withdrawal.i_transactionFee ins) (Num 0 0)))))
                now (fun f d H => H) db (conj Hs Hin)) as Hstep.
  destruct (DatabaseStorage.insertWithdrawal _ _ _ _ db) as [[wd|e] d1];
    [|exact (proj1 Hstep)].
  cbn [snd] in Hstep. destruct Hstep as [Hs1 Hin1].
  match goal with
  | |- context [DatabaseStorage.addWalletTransaction ?x ?tx ?n d1] =>
      pose proof (addWalletTransaction_triple w tx n d1) as Htx
  end.
  match type of Htx with
  | ?P -> _ => assert (Hpre : P)
  end.
  { split; [exact Hs1|]. split; [exact Hin1|].
    exists a. split; [exact Ha|].
    intros b Hb Hrb Hra. unfold signedCall. simpl. specialize (Hle b Hb Hrb Hra). lia. }
  specialize (Htx Hpre).
  destruct (DatabaseStorage.addWalletTransaction _ _ _ d1) as [[t|e] d2]; exact Htx.
Qed.

Lemma walletsSound_route op db :
  routeCallOk op -> walletsSound db -> walletsSound (runLedgerOp op db).
Proof.
  intros Hop Hs.
  destruct op as [| | |ty now|ty now|amount description sourceType now
                  |amount method details now]; cbn [runLedgerOp]; try contradiction.
  - unfold Routes.walletCreate. apply triple_handle; [|exact Hs].
    eapply triple_bind; [apply lookup_triple|].
    intros found. eapply triple_bind; [apply lookupOrCreate_triple|].
    intros w. apply triple_ret. intros s H. apply H.
  - unfold Routes.walletGet. apply triple_handle; [|exact Hs].
    eapply triple_bind; [apply lookup_triple|].
    intros found. eapply triple_bind; [apply lookupOrCreate_triple|].
    intros w. apply triple_ret. intros s H. apply H.
  - unfold Routes.addFunds. apply triple_handle; [|exact Hs].
    eapply triple_bind; [apply lookup_triple|].
    intros found. eapply triple_bind; [apply lookupOrCreate_triple|].
    intros w. destruct amount as [amount|].
    + eapply triple_bind; [apply triple_ret_eq|].
      intros a'.
      eapply triple_bind; [|intros t; apply triple_ret; intros s H; exact H].
      intros s [[Hs' Hin] ->]. apply (addWalletTransaction_triple w _ now s).
      split; [exact Hs'|]. split; [exact Hin|].
      simpl in Hop. destruct Hop as (n & Hn & Hn0).
      exists n. split; [exact Hn|].
      intros b Hb Hrb _. unfold signedCall. simpl. lia.
    + apply triple_throw_bind. intros s H. apply H.
  - unfold Routes.withdraw. apply triple_handle; [|exact Hs].
    eapply triple_bind; [apply lookup_triple|].
    intros [w|]; [|apply triple_ret; intros s H; apply H].
    destruct (Routes.insufficient (Wallet.balance w) amount) eqn:Ei;
      [apply triple_ret; intros s H; apply H|].
    destruct amount as [amount|].
    + eapply triple_bind; [apply triple_ret_eq|].
      intros a'.
      eapply triple_bind; [|intros t; apply triple_ret; intros s H; exact H].
      intros s [[Hs' Hf] ->]. apply (createWithdrawal_triple w _ now s).
      split; [exact Hs'|]. symmetry in Hf.
      split; [apply (getUserWallet_found _ _ _ _ Hf)|].
      simpl in Hop. destruct Hop as (n & Hn).
      exists n. split; [exact Hn|].
      intros b Hb Hrb Hrn. unfold Routes.insufficient in Ei.
      rewrite Hb in Ei. cbn [Routes.parseFloatOf] in Ei.
      rewrite (balance_ltb_exact amount b n Hn) in Ei;
        [lia | unfold inRange15; lia | exact Hrn].
    + apply triple_throw_bind. intros s H. apply H.
Qed.

(** X8. Through the wallet routes no balance goes below zero: from a store
    whose wallets all have a balance that is not negative, any sequence of
    calls of the create, get, add-funds and withdraw routes whose amounts
    are numerals with at most two decimals, not negative for a deposit,
    leaves every wallet with a balance that is not negative. *)
Theorem routes_keep_balances_non_negative :
  forall (ops : list LedgerOp) db,
    walletKeysOk db ->
    balancesNonNegative db ->
    Forall routeCallOk ops ->
    balancesNonNegative (runLedgerOps ops db).
Proof.
  intros ops db Hk Hpos Hops.
  assert (Hs : walletsSound db) by (split; assumption).
  clear Hk Hpos. unfold runLedgerOps. revert db Hs.
  induction Hops as [|op ops Hop _ IH]; intros db Hs; simpl; [apply Hs|].
  apply IH. apply walletsSound_route; assumption.
Qed.

Lemma routes_keep_balances_non_negative_witness :
  walletKeysOk demoDb
  /\ balancesNonNegative demoDb
  /\ Forall routeCallOk demoLedgerOps
  /\ balancesNonNegative (runLedgerOps demoLedgerOps demoDb).
Proof.
  assert (Hk : walletKeysOk demoDb).
  { split; [split; intros x []|]. constructor. }
  assert (Hp : balancesNonNegative demoDb) by (intros w []).
  assert (Ho : Forall routeCallOk demoLedgerOps).
  { repeat constructor.
    - exists 10000. split; [reflexivity | lia].
    - exists 4000. reflexivity. }
  split; [exact Hk|]. split; [exact Hp|]. split; [exact Ho|].
  exact (routes_keep_balances_non_negative demoLedgerOps demoDb Hk Hp Ho).
Defined.

(** ** What the chat server sends *)

Lemma isOpen_OPEN r : isOpen r = true -> r = OPEN.
Proof. destruct r; simpl; congruence. Qed.

Lemma send_In conns s m s' m' :
  In (Send s' m') (send conns s m) ->
  s' = s /\ m' = m /\ readyStateOf conns s = OPEN.
Proof.
  unfold send. destruct (isOpen (readyStateOf conns s)) eqn:E; [|intros []].
  intros [H|[]]. injection H as <- <-. repeat split. apply isOpen_OPEN. exact E.
Qed.

Lemma send_no_close conns s m s' : ~ In (CloseSocket s') (send conns s m).
Proof.
  unfold send. destruct (isOpen (readyStateOf conns s)); [|intros []].
  intros [H|[]]. discriminate.
Qed.

Lemma broadcast_In conns users m ex s' m' :
  In (Send s' m') (broadcast conns users m ex) ->
  m' = m /\ readyStateOf conns s' = OPEN
  /\ exists k u, In (k, u) users /\ ws u = s' /\ ex <> Some k.
Proof.
  unfold broadcast, JsMap.entries. intros H. apply in_flat_map in H.
  destruct H as ([k u] & Hin & H).
  destruct (negb match ex with Some x => String.eqb k x | None => false end
            && isOpen (readyStateOf conns (ws u))) eqn:E; [|destruct H].
  destruct H as [H|[]]. injection H as <- <-.
  apply andb_true_iff in E. destruct E as [Ex Eo].
  split; [reflexivity|]. split; [apply isOpen_OPEN; exact Eo|].
  exists k, u. split; [exact Hin|]. split; [reflexivity|].
  intros ->. rewrite String.eqb_refl in Ex. discriminate.
Qed.

Lemma handleJoin_effects s mu mt ml now random st :
  let res := handleJoin s mu mt ml now random st in
  let name := Js.orElse mu ("User" ++ Js.toString random)%string in
  let user := mkUser name name (Js.orElse mt "entrepreneur") ml s in
  snd res
  = (match findByUsername name (connectedUsers st) with
     | Some (_, existingUser) => [CloseSocket (ws existingUser)]
     | None => []
     end)
    ++ (if existsb (String.eqb name) (welcomeMessagesSent st) then []
        else send (connections (fst res)) s
               (community_message (Js.toString now) "System"
                  "Hello. Welcome to FindMyBizName." now "supporter"))
    ++ broadcast (connections (fst res)) (connectedUsers (fst res))
         (user_joined (infoOf user)) (Some name)
    ++ send (connections (fst res)) s
         (users_update (map infoOf (JsMap.values (connectedUsers (fst res))))).
Proof.
  unfold handleJoin.
  destruct (findByUsername _ (connectedUsers st)) as [[k u]|];
    destruct (existsb _ (welcomeMessagesSent st)); reflexivity.
Qed.

Lemma step_sends_open st ev s m :
  In (Send s m) (snd (step st ev)) ->
  readyStateOf (connections (fst (step st ev))) s = OPEN.
Proof.
  destruct ev as [s0|s0 frame now random|s0|s0|n now]; simpl.
  - destruct (JsMap.has Z.eqb s0 (connections st)); intros [].
  - destruct (live s0 st); [|intros []].
    destruct frame as [|mu mt ml|message|]; simpl; try (intros []).
    + rewrite handleJoin_effects. cbv zeta. intros H.
      apply in_app_or in H. destruct H as [H|H].
      { destruct (findByUsername _ _) as [[k u]|]; [|destruct H].
        destruct H as [H|[]]. discriminate. }
      apply in_app_or in H. destruct H as [H|H].
      { destruct (existsb _ _); [destruct H|]. apply send_In in H. 
        destruct H as (-> & _ & H). exact H. }
      apply in_app_or in H. destruct H as [H|H].
      { apply broadcast_In in H. apply H. }
      apply send_In in H. destruct H as (-> & _ & H). exact H.
    + unfold handleChat.
      destruct (userId =<< JsMap.get Z.eqb s0 (connections st)) as [uid|]; [|intros []].
      destruct (Js.truthy uid && JsMap.has String.eqb uid (connectedUsers st)); [|intros []].
      destruct (JsMap.get String.eqb uid (connectedUsers st)); [|intros []].
      simpl. intros H. apply broadcast_In in H. apply H.
  - destruct (live s0 st); [|intros []]. unfold onClose.
    destruct (userId =<< JsMap.get Z.eqb s0 (connections st)) as [uid|]; [|intros []].
    destruct (Js.truthy uid && JsMap.has String.eqb uid (connectedUsers st)); [|intros []].
    destruct (JsMap.get String.eqb uid (connectedUsers st)); [|intros []].
    simpl. intros H. apply broadcast_In in H. apply H.
  - destruct (live s0 st); [|intros []]. unfold onError.
    destruct (userId =<< JsMap.get Z.eqb s0 (connections st)) as [uid|]; [|intros []].
    destruct (Js.truthy uid); intros [].
  - unfold onTimeout. destruct (nth_error (timers st) n) as [[s1|name]|]; simpl;
      try (intros []).
    intros H. apply send_In in H. destruct H as (-> & _ & H). exact H.
Qed.

Lemma closedIn_set_other s0 c conns s :
  s0 <> s -> closedIn conns s -> closedIn (JsMap.set Z.eqb s0 c conns) s.
Proof.
  intros Hne (c0 & Hg & Hc). exists c0. split; [|exact Hc].
  rewrite (get_set Z.eqb Z.eqb_eq).
  destruct (Z.eqb_spec s0 s); [contradiction | exact Hg].
Qed.

Lemma closedIn_setUserId s0 u conns s :
  s0 <> s -> closedIn conns s -> closedIn (setUserId s0 u conns) s.
Proof.
  intros Hne H. unfold setUserId.
  destruct (JsMap.get Z.eqb s0 conns); [apply closedIn_set_other; assumption | exact H].
Qed.

Lemma closedIn_setReadyState s0 r conns s :
  s0 <> s -> closedIn conns s -> closedIn (setReadyState s0 r conns) s.
Proof.
  intros Hne H. unfold setReadyState.
  destruct (JsMap.get Z.eqb s0 conns); [apply closedIn_set_other; assumption | exact H].
Qed.

Lemma closedIn_closeSocket x conns s :
  closedIn conns s -> closedIn (closeSocket x conns) s.
Proof.
  intros H. unfold closeSocket.
  destruct (JsMap.get Z.eqb x conns) as [c|] eqn:E; [|exact H].
  destruct (isOpen (readyState c)) eqn:Eo; [|exact H].
  apply closedIn_set_other; [|exact H].
  intros ->. destruct H as (c0 & Hg & Hc). rewrite Hg in E. injection E as ->.
  rewrite Hc in Eo. discriminate.
Qed.

Lemma live_not_closed st s0 s :
  closedIn (connections st) s -> live s0 st = true -> s0 <> s.
Proof.
  intros (c & Hg & Hc) Hl ->. unfold live in Hl. rewrite Hg, Hc in Hl. discriminate.
Qed.

Lemma step_keeps_closed st ev s :
  closedIn (connections st) s -> closedIn (connections (fst (step st ev))) s.
Proof.
  intros Hc. destruct ev as [s0|s0 frame now random|s0|s0|n now]; simpl.
  - destruct (JsMap.has Z.eqb s0 (connections st)) eqn:Eh; [exact Hc|]. simpl.
    apply closedIn_set_other; [|exact Hc].
    intros ->. destruct Hc as (c & Hg & _). unfold JsMap.has in Eh.
    rewrite Hg in Eh. discriminate.
  - destruct (live s0 st) eqn:El; [|exact Hc].
    pose proof (live_not_closed _ _ _ Hc El) as Hne.
    destruct frame as [|mu mt ml|message|]; simpl; try exact Hc.
    + rewrite handleJoin_connections. cbv zeta.
      destruct (findByUsername _ _) as [[k u]|].
      * apply closedIn_closeSocket, closedIn_setUserId; assumption.
      * apply closedIn_setUserId; assumption.
    + unfold handleChat.
      destruct (userId =<< JsMap.get Z.eqb s0 (connections st)) as [uid|]; [|exact Hc].
      destruct (Js.truthy uid && JsMap.has String.eqb uid (connectedUsers st)); [|exact Hc].
      destruct (JsMap.get String.eqb uid (connectedUsers st)); exact Hc.
  - destruct (live s0 st) eqn:El; [|exact Hc].
    pose proof (live_not_closed _ _ _ Hc El) as Hne.
    pose proof (closedIn_setReadyState s0 CLOSED _ s Hne Hc) as H1.
    unfold onClose.
    destruct (userId =<< JsMap.get Z.eqb s0 (connections st)) as [uid|]; [|exact H1].
    destruct (Js.truthy uid && JsMap.has String.eqb uid (connectedUsers st)); [|exact H1].
    destruct (JsMap.get String.eqb uid (connectedUsers st)); exact H1.
  - destruct (live s0 st) eqn:El; [|exact Hc].
    pose proof (live_not_closed _ _ _ Hc El) as Hne.
    pose proof (closedIn_setReadyState s0 CLOSING _ s Hne Hc) as H1.
    unfold onError.
    destruct (userId =<< JsMap.get Z.eqb s0 (connections st)) as [uid|]; [|exact H1].
    destruct (Js.truthy uid); exact H1.
  - unfold onTimeout. destruct (nth_error (timers st) n) as [[s1|name]|]; exact Hc.
Qed.

Lemma closed_not_open conns s : closedIn conns s -> readyStateOf conns s <> OPEN.
Proof.
  intros (c & Hg & Hc). unfold readyStateOf. rewrite Hg, Hc. discriminate.
Qed.

(** X9. The chat server sends a frame only to a socket that is open when
    the handler has run, and once a socket it holds has reported its close,
    nothing is sent to that socket again, whatever events follow. *)
Theorem chat_sends_only_to_open_sockets :
  (forall st ev s m,
      In (Send s m) (snd (step st ev)) ->
      readyStateOf (connections (fst (step st ev))) s = OPEN)
  /\ (forall evs st s m,
      closedIn (connections st) s -> ~ In (Send s m) (snd (run st evs))).
Proof.
  split; [intros st ev s m; apply step_sends_open|].
  induction evs as [|ev rest IH]; intros st s m Hc; simpl; [intros []|].
  pose proof (step_sends_open st ev s m) as Hopen.
  pose proof (step_keeps_closed st ev s Hc) as Hc1.
  destruct (step st ev) as [st1 eff1]. simpl in *.
  specialize (IH st1 s m Hc1).
  destruct (run st1 rest) as [st2 eff2]. simpl in *.
  intros H. apply in_app_or in H. destruct H as [H|H]; [|exact (IH H)].
  exact (closed_not_open _ _ Hc1 (Hopen H)).
Qed.

Lemma chat_sends_only_to_open_sockets_witness :
  let st := fst (run init (aliceAndBob ++ [Close 1])) in
  closedIn (connections st) 1
  /\ forall m,
       ~ In (Send 1 m)
            (snd (run st [Message 2 (community_message_in "anyone there?") 3000 0;
                          Message 1 (community_message_in "hello") 3001 0])).
Proof.
  intros st.
  assert (Hc : closedIn (connections st) 1).
  { eexists. split; [vm_compute; reflexivity | reflexivity]. }
  split; [exact Hc|]. intros m.
  exact (proj2 chat_sends_only_to_open_sockets _ st 1 m Hc).
Defined.

Lemma registry_usernames users :
  registryOk users -> map username (JsMap.values users) = JsMap.keys users.
Proof.
  intros [_ Hk]. unfold JsMap.values, JsMap.keys. rewrite map_map.
  induction users as [|[k u] l IH]; simpl; [reflexivity|].
  rewrite (Hk k u (or_introl eq_refl)). f_equal. apply IH.
  intros k' u' Hin. apply Hk. right. exact Hin.
Qed.

(** X10. In every reachable state, the [users_update] a join produces goes
    to the joining socket only and is the registry as the join left it: it
    names every username once and names the joiner; it is sent whenever
    the joining socket is still open. *)
Theorem join_snapshot_lists_each_username_once :
  forall (evs : list Event) s mu mt ml now random,
    let st := fst (run init evs) in
    let res := step st (Message s (join_community mu mt ml) now random) in
    let name := Js.orElse mu ("User" ++ Js.toString random)%string in
    let snapshot := map infoOf (JsMap.values (connectedUsers (fst res))) in
    live s st = true ->
    (forall s' l, In (Send s' (users_update l)) (snd res) -> s' = s /\ l = snapshot)
    /\ NoDup (map info_username snapshot)
    /\ In name (map info_username snapshot)
    /\ (readyStateOf (connections (fst res)) s = OPEN ->
        In (Send s (users_update snapshot)) (snd res)).
Proof.
  intros evs s mu mt ml now random st res name snapshot Hlive.
  assert (Hok : registryOk (connectedUsers st))
    by (apply run_registryOk; exact init_registryOk).
  assert (Hok' : registryOk (connectedUsers (fst res)))
    by (apply step_registryOk; exact Hok).
  assert (Hnames : map info_username snapshot = JsMap.keys (connectedUsers (fst res))).
  { unfold snapshot. rewrite map_map. rewrite <- (registry_usernames _ Hok').
    apply map_ext. intros u. reflexivity. }
  assert (Heff : snd res = snd (handleJoin s mu mt ml now random st)).
  { unfold res. simpl. rewrite Hlive. reflexivity. }
  assert (Hst : fst res = fst (handleJoin s mu mt ml now random st)).
  { unfold res. simpl. rewrite Hlive. reflexivity. }
  split; [|split; [|split]].
  - intros s' l H. rewrite Heff, handleJoin_effects in H. cbv zeta in H.
    rewrite <- Hst in H.
    apply in_app_or in H. destruct H as [H|H].
    { destruct (findByUsername _ _) as [[k u]|]; [|destruct H].
      destruct H as [H|[]]. discriminate. }
    apply in_app_or in H. destruct H as [H|H].
    { destruct (existsb _ _); [destruct H|]. apply send_In in H.
      destruct H as (_ & H & _). discriminate. }
    apply in_app_or in H. destruct H as [H|H].
    { apply broadcast_In in H. destruct H as (H & _). discriminate. }
    apply send_In in H. destruct H as (-> & H & _). injection H as ->.
    split; reflexivity.
  - rewrite Hnames. apply Hok'.
  - rewrite Hnames. rewrite Hst, handleJoin_users. cbv zeta.
    fold name.
    set (m := match findByUsername name (connectedUsers st) with
              | Some (existingId, _) => JsMap.delete String.eqb existingId (connectedUsers st)
              | None => connectedUsers st
              end).
    set (u := mkUser name name (Js.orElse mt "entrepreneur") ml s).
    pose proof (get_set_same String.eqb String.eqb_eq name u m) as Hg.
    apply (get_In String.eqb String.eqb_eq) in Hg.
    change name with (fst (name, u)). apply in_map. exact Hg.
  - intros Hopen. rewrite Heff, handleJoin_effects. cbv zeta. rewrite <- Hst.
    apply in_or_app. right. apply in_or_app. right. apply in_or_app. right.
    unfold send. rewrite Hopen. left. reflexivity.
Qed.

Lemma join_snapshot_lists_each_username_once_witness :
  let st := fst (run init aliceConnected) in
  live 2 st = true
  /\ In (Send 2 (users_update [mkInfo "Alice" "Alice" "entrepreneur" None;
                                mkInfo "Bob" "Bob" "premium" None]))
        (snd (step st (Message 2 (join_community (Some "Bob") (Some "premium") None)
                         1500 3))).
Proof.
  intros st. split; [reflexivity|].
  pose proof (join_snapshot_lists_each_username_once aliceConnected 2 (Some "Bob")
                (Some "premium") None 1500 3) as H.
  cbv zeta in H. destruct (H eq_refl) as (_ & _ & _ & H4).
  exact (H4 eq_refl).
Defined.

(** ** Welcome messages *)

Lemma existsb_eqb_In name l : existsb (String.eqb name) l = true <-> In name l.
Proof.
  rewrite existsb_exists. split.
  - intros (x & Hin & He). apply String.eqb_eq in He. subst. exact Hin.
  - intros H. exists name. split; [exact H | apply String.eqb_refl].
Qed.

Lemma handleJoin_welcome s mu mt ml now random st :
  let name := Js.orElse mu ("User" ++ Js.toString random)%string in
  let res := handleJoin s mu mt ml now random st in
  (In name (welcomeMessagesSent st) ->
     welcomeMessagesSent (fst res) = welcomeMessagesSent st
     /\ timers (fst res) = timers st)
  /\ (~ In name (welcomeMessagesSent st) ->
      welcomeMessagesSent (fst res) = welcomeMessagesSent st ++ [name]
      /\ timers (fst res) = timers st ++ [SecondWelcome s]).
Proof.
  intros name res. unfold res, handleJoin. fold name.
  destruct (existsb (String.eqb name) (welcomeMessagesSent st)) eqn:E.
  - apply existsb_eqb_In in E.
    destruct (findByUsername name (connectedUsers st)) as [[k u]|]; simpl;
      (split; [intros _; split; reflexivity | intros H; contradiction]).
  - assert (Hn : ~ In name (welcomeMessagesSent st)).
    { intros H. apply existsb_eqb_In in H. congruence. }
    unfold setAdd. rewrite E.
    destruct (findByUsername name (connectedUsers st)) as [[k u]|]; simpl;
      (split; [intros H; contradiction | intros _; split; reflexivity]).
Qed.

(** X11. A username is welcomed once. A join under a username that is in
    the welcomed set sends no [community_message] and sets no timer. A join
    under a username that is not puts it in the set, sets the timer of the
    second welcome, and sends one [community_message], the hello frame, to
    the joining socket if that is open. A username stays in the set through
    every event that is not a timer. *)
Theorem welcome_once_per_username :
  (forall st s mu mt ml now random,
      let name := Js.orElse mu ("User" ++ Js.toString random)%string in
      let res := step st (Message s (join_community mu mt ml) now random) in
      live s st = true ->
      In name (welcomeMessagesSent (fst res))
      /\ (In name (welcomeMessagesSent st) ->
          timers (fst res) = timers st
          /\ forall s' i u m t ty,
               ~ In (Send s' (community_message i u m t ty)) (snd res))
      /\ (~ In name (welcomeMessagesSent st) ->
          timers (fst res) = timers st ++ [SecondWelcome s]
          /\ (forall s' i u m t ty,
                In (Send s' (community_message i u m t ty)) (snd res) ->
                s' = s /\ community_message i u m t ty = helloFrame now)
          /\ (readyStateOf (connections (fst res)) s = OPEN ->
              In (Send s (helloFrame now)) (snd res))))
  /\ (forall st ev name,
      isTimeout ev = false ->
      In name (welcomeMessagesSent st) ->
      In name (welcomeMessagesSent (fst (step st ev)))).
Proof.
  split.
  - intros st s mu mt ml now random name res Hlive.
    assert (Hst : fst res = fst (handleJoin s mu mt ml now random st))
      by (unfold res; simpl; rewrite Hlive; reflexivity).
    assert (Heff : snd res = snd (handleJoin s mu mt ml now random st))
      by (unfold res; simpl; rewrite Hlive; reflexivity).
    destruct (handleJoin_welcome s mu mt ml now random st) as [Hin Hout].
    fold name in Hin, Hout. rewrite <- Hst in Hin, Hout.
    assert (Hfilter : forall s' i u m t ty,
              In (Send s' (community_message i u m t ty)) (snd res) ->
              existsb (String.eqb name) (welcomeMessagesSent st) = false
              /\ s' = s /\ community_message i u m t ty = helloFrame now).
    { intros s' i u m t ty H. rewrite Heff, handleJoin_effects in H. cbv zeta in H.
      fold name in H.
      apply in_app_or in H. destruct H as [H|H].
      { destruct (findByUsername _ _) as [[k x]|]; [|destruct H].
        destruct H as [H|[]]. discriminate. }
      apply in_app_or in H. destruct H as [H|H].
      { destruct (existsb _ _); [destruct H|]. apply send_In in H.
        destruct H as (-> & H & _). repeat split. exact H. }
      apply in_app_or in H. destruct H as [H|H].
      { apply broadcast_In in H. destruct H as (H & _). discriminate. }
      apply send_In in H. destruct H as (_ & H & _). discriminate. }
    split; [|split].
    + destruct (in_dec string_dec name (welcomeMessagesSent st)) as [H|H].
      * rewrite (proj1 (Hin H)). exact H.
      * rewrite (proj1 (Hout H)). apply in_or_app. right. left. reflexivity.
    + intros H. split; [apply (Hin H)|].
      intros s' i u m t ty Hs. destruct (Hfilter _ _ _ _ _ _ Hs) as [He _].
      apply existsb_eqb_In in H. congruence.
    + intros H. split; [apply (Hout H)|]. split.
      * intros s' i u m t ty Hs. apply (Hfilter _ _ _ _ _ _ Hs).
      * intros Hopen. rewrite Heff, handleJoin_effects. cbv zeta. fold name.
        rewrite <- Hst.
        assert (existsb (String.eqb name) (welcomeMessagesSent st) = false) as ->.
        { destruct (existsb _ _) eqn:E; [|reflexivity].
          apply existsb_eqb_In in E. contradiction. }
        apply in_or_app. right. apply in_or_app. left.
        unfold send. rewrite Hopen. left. reflexivity.
  - intros st ev name Hev H.
    destruct ev as [s0|s0 frame now random|s0|s0|n now]; simpl; try discriminate.
    + destruct (JsMap.has Z.eqb s0 (connections st)); exact H.
    + destruct (live s0 st); [|exact H].
      destruct frame as [|mu mt ml|message|]; simpl; try exact H.
      * destruct (handleJoin_welcome s0 mu mt ml now random st) as [Hin Hout].
        cbv zeta in Hin, Hout.
        destruct (in_dec string_dec
                    (Js.orElse mu ("User" ++ Js.toString random)%string)
                    (welcomeMessagesSent st)) as [Hd|Hd].
        -- rewrite (proj1 (Hin Hd)). exact H.
        -- rewrite (proj1 (Hout Hd)). apply in_or_app. left. exact H.
      * unfold handleChat.
        destruct (userId =<< JsMap.get Z.eqb s0 (connections st)) as [uid|]; [|exact H].
        destruct (Js.truthy uid && JsMap.has String.eqb uid (connectedUsers st)); [|exact H].
        destruct (JsMap.get String.eqb uid (connectedUsers st)); exact H.
    + destruct (live s0 st); [|exact H]. unfold onClose.
      destruct (userId =<< JsMap.get Z.eqb s0 (connections st)) as [uid|]; [|exact H].
      destruct (Js.truthy uid && JsMap.has String.eqb uid (connectedUsers st)); [|exact H].
      destruct (JsMap.get String.eqb uid (connectedUsers st)); exact H.
    + destruct (live s0 st); [|exact H]. unfold onError.
      destruct (userId =<< JsMap.get Z.eqb s0 (connections st)) as [uid|]; [|exact H].
      destruct (Js.truthy uid); exact H.
Qed.

Lemma welcome_once_per_username_witness :
  let st := fst (run init aliceConnected) in
  live 2 st = true
  /\ In "Alice" (welcomeMessagesSent st)
  /\ (forall s' i u m t ty,
        ~ In (Send s' (community_message i u m t ty))
             (snd (step st (Message 2 (join_community (Some "Alice") None None) 2000 0))))
  /\ ~ In "Bob" (welcomeMessagesSent st)
  /\ In (Send 2 (helloFrame 1500))
        (snd (step st (Message 2 (join_community (Some "Bob") None None) 1500 3))).
Proof.
  intros st.
  assert (Ha : In "Alice" (welcomeMessagesSent st)) by (left; reflexivity).
  assert (Hb : ~ In "Bob" (welcomeMessagesSent st)).
  { intros [H|[]]. discriminate. }
  split; [reflexivity|]. split; [exact Ha|]. split; [|split; [exact Hb|]].
  - destruct (proj1 welcome_once_per_username st 2 (Some "Alice") None None 2000 0 eq_refl)
      as (_ & H & _).
    exact (proj2 (H Ha)).
  - destruct (proj1 welcome_once_per_username st 2 (Some "Bob") None None 1500 3 eq_refl)
      as (_ & _ & H).
    destruct (H Hb) as (_ & _ & H3). exact (H3 eq_refl).
Defined.

(** ** Users *)

Lemma existsb_false_forall {A} (f : A -> bool) (l : list A) :
  existsb f l = false <-> forall x, In x l -> f x = false.
Proof.
  split.
  - intros H x Hin. destruct (f x) eqn:E; [|reflexivity].
    rewrite <- H. symmetry. apply existsb_exists. exists x. split; assumption.
  - intros H. destruct (existsb f l) eqn:E; [|reflexivity].
    apply existsb_exists in E. destruct E as (x & Hin & Hx).
    rewrite (H x Hin) in Hx. discriminate.
Qed.

(** X12. [DatabaseStorage.createUser] refuses a username or an email that a
    row already has, with a unique violation: no row is written, and the
    serial value the insert drew is spent. With both free it
    adds one row, with plan "starter" unless one is given and all counters
    at zero; usernames and emails stay unique, and [getUserByEmail] then
    finds the new user. *)
Theorem createUser_unique_and_found :
  forall (insertUser : UserFields.insert) now db,
    ((exists u, In u (Sql.rows (users db))
                /\ (User.username u = UserFields.i_username insertUser
                    \/ User.email u = UserFields.i_email insertUser)) ->
     exists column,
       DatabaseUsers.createUser insertUser now db
       = (Err (UniqueViolation "users" column), with_users Sql.skipId db))
    /\ ((forall u, In u (Sql.rows (users db)) ->
           User.username u <> UserFields.i_username insertUser
           /\ User.email u <> UserFields.i_email insertUser) ->
        exists u db',
          DatabaseUsers.createUser insertUser now db = (Ok u, db')
          /\ Sql.rows (users db') = Sql.rows (users db) ++ [u]
          /\ User.username u = UserFields.i_username insertUser
          /\ User.email u = UserFields.i_email insertUser
          /\ User.plan u = match UserFields.i_plan insertUser with
                           | Some p => p
                           | None => "starter"
                           end
          /\ User.dailyUsage u = 0
          /\ DatabaseUsers.getUserByEmail (UserFields.i_email insertUser) db' = Some u
          /\ (usersUnique db -> usersUnique db')).
Proof.
  intros insertUser now db. unfold DatabaseUsers.createUser. split.
  - intros (u & Hin & Hor).
    destruct (existsb (fun u0 => String.eqb (User.username u0) _) _) eqn:E1;
      [eexists; reflexivity|].
    destruct (existsb (fun u0 => String.eqb (User.email u0) _) _) eqn:E2;
      [eexists; reflexivity|].
    exfalso. destruct Hor as [H|H].
    + pose proof (proj1 (existsb_false_forall _ _) E1 u Hin) as Hf. simpl in Hf.
      rewrite H, String.eqb_refl in Hf. discriminate.
    + pose proof (proj1 (existsb_false_forall _ _) E2 u Hin) as Hf. simpl in Hf.
      rewrite H, String.eqb_refl in Hf. discriminate.
  - intros Hfree.
    assert (E1 : existsb (fun u => String.eqb (User.username u)
                                     (UserFields.i_username insertUser))
                   (Sql.rows (users db)) = false).
    { apply existsb_false_forall. intros u Hin. apply String.eqb_neq.
      apply (Hfree u Hin). }
    assert (E2 : existsb (fun u => String.eqb (User.email u)
                                     (UserFields.i_email insertUser))
                   (Sql.rows (users db)) = false).
    { apply existsb_false_forall. intros u Hin. apply String.eqb_neq.
      apply (Hfree u Hin). }
    rewrite E1, E2. simpl. eexists. eexists. split; [reflexivity|]. simpl.
    split; [reflexivity|]. split; [reflexivity|]. split; [reflexivity|].
    split; [reflexivity|]. split; [reflexivity|]. split.
    + unfold DatabaseUsers.getUserByEmail, Sql.selectWhere. simpl.
      apply first_filter_snoc; [|apply String.eqb_refl].
      apply filter_existsb_false. exact E2.
    + intros [Hu He]. unfold usersUnique. simpl. rewrite !map_app. simpl. split.
      * apply NoDup_app; [exact Hu | constructor; [intros [] | constructor] |].
        intros x Hx [<-|[]]. apply in_map_iff in Hx. destruct Hx as (y & Hy & Hin).
        exact (proj1 (Hfree y Hin) Hy).
      * apply NoDup_app; [exact He | constructor; [intros [] | constructor] |].
        intros x Hx [<-|[]]. apply in_map_iff in Hx. destruct Hx as (y & Hy & Hin).
        exact (proj2 (Hfree y Hin) Hy).
Qed.

Lemma createUser_unique_and_found_witness :
  (exists u, In u (Sql.rows (users demoDb))
             /\ (User.username u = "someone_else" \/ User.email u = "demo@example.com"))
  /\ (exists column,
        DatabaseUsers.createUser
          (UserFields.mkInsert "someone_else" "demo@example.com" None) today demoDb
        = (Err (UniqueViolation "users" column), with_users Sql.skipId demoDb))
  /\ (forall u, In u (Sql.rows (users demoDb)) ->
        User.username u <> "alice" /\ User.email u <> "alice@example.com")
  /\ exists u db',
       DatabaseUsers.createUser
         (UserFields.mkInsert "alice" "alice@example.com" None) today demoDb = (Ok u, db')
       /\ User.plan u = "starter"
       /\ DatabaseUsers.getUserByEmail "alice@example.com" db' = Some u.
Proof.
  assert (H1 : exists u, In u (Sql.rows (users demoDb))
                /\ (User.username u = "someone_else" \/ User.email u = "demo@example.com")).
  { exists demoUser. split; [left; reflexivity | right; reflexivity]. }
  assert (H2 : forall u, In u (Sql.rows (users demoDb)) ->
                 User.username u <> "alice" /\ User.email u <> "alice@example.com").
  { intros u [<-|[]]. split; discriminate. }
  split; [exact H1|].
  split; [exact (proj1 (createUser_unique_and_found
                          (UserFields.mkInsert "someone_else" "demo@example.com" None)
                          today demoDb) H1)|].
  split; [exact H2|].
  destruct (proj2 (createUser_unique_and_found
                     (UserFields.mkInsert "alice" "alice@example.com" None)
                     today demoDb) H2)
    as (u & db' & Hc & _ & _ & _ & Hp & _ & Hg & _).
  exists u, db'. split; [exact Hc|]. split; [exact Hp | exact Hg].
Defined.

(** *** The two backends on the writes to a user *)






(** ** The referral-code route *)

Lemma find_values_set {V} (p : V -> bool) k (v : V) (m : JsMap.t (K := Z) (V := V)) :
  find p (JsMap.values m) = None -> p v = true ->
  find p (JsMap.values (JsMap.set Z.eqb k v m)) = Some v.
Proof.
  unfold JsMap.values. induction m as [|[k' v'] m IH]; simpl; intros Hn Hv.
  - rewrite Hv. reflexivity.
  - destruct (p v') eqn:E; [discriminate|].
    destruct (k' =? k); simpl.
    + rewrite Hv. reflexivity.
    + rewrite E. apply IH; assumption.
Qed.

Lemma first_filter_snoc_none {R} (p : R -> bool) (l : list R) (r : R) :
  Sql.first (filter p l) = None -> p r = true ->
  Sql.first (filter p (l ++ [r])) = Some r.
Proof.
  unfold Sql.first. induction l as [|x l IH]; simpl; intros Hn Hr.
  - rewrite Hr. reflexivity.
  - destruct (p x); [discriminate|]. apply IH; assumption.
Qed.

Lemma createCode_db_idempotent now later db c db' :
  ReferralRoutes.createCode DatabaseUsers.getUserByEmail now db
  = (Routes.reply 200 (Routes.Payload c), db') ->
  ReferralRoutes.createCode DatabaseUsers.getUserByEmail later db'
  = (Routes.reply 200 (Routes.Payload c), db').
Proof.
  unfold ReferralRoutes.createCode, Routes.handle, bind, gets, ret. simpl.
  destruct (DatabaseUsers.getUserByEmail "demo@example.com" db) as [u|] eqn:Eu;
    [|discriminate].
  destruct (DatabaseStorage.getReferralCode (User.id u) db) as [c0|] eqn:Ec.
  - intros H. injection H as <- <-. rewrite Eu, Ec. reflexivity.
  - unfold DatabaseStorage.createReferralCode, bind, gets.
    unfold DatabaseStorage.getReferralCode in Ec. rewrite Ec.
    unfold DatabaseStorage.insertReferralCode, bind, Column.lift.
    destruct (Column.varchar 50 _) as [code|]; [|discriminate].
    destruct (existsb _ _); [discriminate|].
    destruct (negb (DatabaseStorage.userExists (User.id u) db)); [discriminate|].
    unfold Sql.insertRow. simpl. intros H. injection H as <- <-.
    match goal with
    | |- context [DatabaseUsers.getUserByEmail ?e ?d] =>
        change (DatabaseUsers.getUserByEmail e d)
          with (DatabaseUsers.getUserByEmail e db)
    end.
    rewrite Eu.
    unfold DatabaseStorage.getReferralCode, Sql.selectWhere. simpl.
    rewrite first_filter_snoc_none; [reflexivity | exact Ec | simpl; apply Z.eqb_refl].
Qed.

Lemma createCode_mem_idempotent now later m c m' :
  ReferralRoutes.createCode MemUsers.getUserByEmail now m
  = (Routes.reply 200 (Routes.Payload c), m') ->
  ReferralRoutes.createCode MemUsers.getUserByEmail later m'
  = (Routes.reply 200 (Routes.Payload c), m').
Proof.
  unfold ReferralRoutes.createCode, Routes.handle, bind, gets, ret. simpl.
  destruct (MemUsers.getUserByEmail "demo@example.com" m) as [u|] eqn:Eu;
    [|discriminate].
  destruct (MemStorage.getReferralCode (User.id u) m) as [c0|] eqn:Ec.
  - intros H. injection H as <- <-. rewrite Eu, Ec. reflexivity.
  - unfold MemStorage.createReferralCode. simpl. intros H. injection H as <- <-.
    match goal with
    | |- context [MemUsers.getUserByEmail ?e ?d] =>
        change (MemUsers.getUserByEmail e d) with (MemUsers.getUserByEmail e m)
    end.
    rewrite Eu.
    unfold MemStorage.getReferralCode. simpl.
    rewrite find_values_set; [reflexivity | exact Ec |].
    simpl. rewrite Z.eqb_refl. reflexivity.
Qed.

(** X14. The create-code route hands out one code per user on either
    backend: once it has answered 200 with a code, every later call answers
    200 with the same code and leaves the store as it is. On the in-memory
    backend this holds although [createReferralCode] itself makes a new code
    at each call: the route asks [getReferralCode] first. *)
Theorem createCode_route_idempotent :
  (forall now later db c db',
      ReferralRoutes.createCode DatabaseUsers.getUserByEmail now db
      = (Routes.reply 200 (Routes.Payload c), db') ->
      ReferralRoutes.createCode DatabaseUsers.getUserByEmail later db'
      = (Routes.reply 200 (Routes.Payload c), db'))
  /\ (forall now later m c m',
         ReferralRoutes.createCode MemUsers.getUserByEmail now m
         = (Routes.reply 200 (Routes.Payload c), m') ->
         ReferralRoutes.createCode MemUsers.getUserByEmail later m'
         = (Routes.reply 200 (Routes.Payload c), m')).
Proof.
  split.
  - exact createCode_db_idempotent.
  - exact createCode_mem_idempotent.
Qed.

Lemma createCode_route_idempotent_witness :
  exists c db' m',
    ReferralRoutes.createCode DatabaseUsers.getUserByEmail today demoDb
    = (Routes.reply 200 (Routes.Payload c), db')
    /\ ReferralRoutes.createCode MemUsers.getUserByEmail today demoMem
       = (Routes.reply 200 (Routes.Payload c), m')
    /\ ReferralRoutes.createCode DatabaseUsers.getUserByEmail laterToday db'
       = (Routes.reply 200 (Routes.Payload c), db')
    /\ ReferralRoutes.createCode MemUsers.getUserByEmail laterToday m'
       = (Routes.reply 200 (Routes.Payload c), m').
Proof.
  eexists. eexists. eexists.
  assert (Hdb : ReferralRoutes.createCode DatabaseUsers.getUserByEmail today demoDb
                = (Routes.reply 200 (Routes.Payload
                     (ReferralCode.mk 1 1
                        ("REF1" ++ Js.toUpperCase (Js.toStringRadix 36 (getTime today)))%string
                        (Some true) (Some today))),
                   snd (ReferralRoutes.createCode DatabaseUsers.getUserByEmail today demoDb)))
    by (vm_compute; reflexivity).
  assert (Hmem : ReferralRoutes.createCode MemUsers.getUserByEmail today demoMem
                = (Routes.reply 200 (Routes.Payload
                     (ReferralCode.mk 1 1
                        ("REF1" ++ Js.toUpperCase (Js.toStringRadix 36 (getTime today)))%string
                        (Some true) (Some today))),
                   snd (ReferralRoutes.createCode MemUsers.getUserByEmail today demoMem)))
    by (vm_compute; reflexivity).
  split; [exact Hdb|]. split; [exact Hmem|]. split.
  - exact (proj1 createCode_route_idempotent today laterToday demoDb _ _ Hdb).
  - exact (proj2 createCode_route_idempotent today laterToday demoMem _ _ Hmem).
Defined.

(** ** Generated names *)

Lemma set_get_same_id {V} k (v : V) (m : JsMap.t (K := Z) (V := V)) :
  JsMap.get Z.eqb k m = Some v -> JsMap.set Z.eqb k v m = m.
Proof.
  induction m as [|[k' v'] m IH]; simpl; [discriminate|].
  destruct (Z.eqb_spec k' k) as [->|Hne].
  - intros H. injection H as ->. reflexivity.
  - intros H. rewrite (IH H). reflexivity.
Qed.

Lemma set_set {V} k (v v' : V) (m : JsMap.t (K := Z) (V := V)) :
  JsMap.set Z.eqb k v (JsMap.set Z.eqb k v' m) = JsMap.set Z.eqb k v m.
Proof.
  induction m as [|[k0 v0] m IH]; simpl.
  - rewrite Z.eqb_refl. reflexivity.
  - destruct (Z.eqb_spec k0 k) as [->|Hne]; simpl.
    + rewrite Z.eqb_refl. reflexivity.
    + destruct (Z.eqb_spec k0 k) as [Heq|_]; [contradiction|].
      rewrite IH. reflexivity.
Qed.

Lemma keys_set_present {V} k (v v' : V) (m : JsMap.t (K := Z) (V := V)) :
  JsMap.get Z.eqb k m = Some v ->
  JsMap.keys (JsMap.set Z.eqb k v' m) = JsMap.keys m.
Proof.
  unfold JsMap.keys. induction m as [|[k0 v0] m IH]; simpl; [discriminate|].
  destruct (Z.eqb_spec k0 k) as [->|Hne]; simpl; [reflexivity|].
  intros H. rewrite (IH H). reflexivity.
Qed.

Lemma filter_values_set {V} (p : V -> bool) k (v v' : V)
    (m : JsMap.t (K := Z) (V := V)) :
  JsMap.get Z.eqb k m = Some v -> p v = false -> p v' = false ->
  filter p (JsMap.values (JsMap.set Z.eqb k v' m)) = filter p (JsMap.values m).
Proof.
  unfold JsMap.values. intros Hg Hv Hv'.
  induction m as [|[k0 v0] m IH]; simpl in *; [discriminate|].
  destruct (Z.eqb_spec k0 k) as [->|Hne]; simpl.
  - injection Hg as ->. rewrite Hv, Hv'. reflexivity.
  - rewrite (IH Hg). reflexivity.
Qed.

Lemma toggleFavorite_owned userId nameId m g :
  JsMap.get Z.eqb nameId (MemNames.generatedNames m) = Some g ->
  MemNames.ownedBy userId g = true ->
  MemNames.toggleFavorite userId nameId m
  = (Ok tt,
     MemNames.mk
       (JsMap.set Z.eqb nameId
          (GeneratedName.set_isFavorite (negb (GeneratedName.isFavorite g)) g)
          (MemNames.generatedNames m))
       (MemNames.currentNameId m)).
Proof.
  intros Hg Ho. unfold MemNames.toggleFavorite. rewrite Hg, Ho. reflexivity.
Qed.

Lemma toggleFavorite_other userId nameId m :
  (forall g, JsMap.get Z.eqb nameId (MemNames.generatedNames m) = Some g ->
             MemNames.ownedBy userId g = false) ->
  MemNames.toggleFavorite userId nameId m = (Ok tt, m).
Proof.
  intros H. unfold MemNames.toggleFavorite.
  destruct (JsMap.get Z.eqb nameId (MemNames.generatedNames m)) as [g|]; [|reflexivity].
  rewrite (H g eq_refl). reflexivity.
Qed.

Lemma ownedBy_two userId other g :
  other <> userId -> MemNames.ownedBy userId g = true ->
  MemNames.ownedBy other g = false.
Proof.
  unfold MemNames.ownedBy. destruct (GeneratedName.userId g) as [u|]; [|discriminate].
  intros Hne H. apply Z.eqb_eq in H. subst u. apply Z.eqb_neq. congruence.
Qed.

(** X15. [MemStorage.toggleFavorite] is its own inverse: called twice with
    the same arguments it leaves the store as it was, whoever calls. One
    call by the owner of the name negates the flag of that name and keeps
    the order of the map; it changes neither the favourites nor the list of
    names of any other user. A call for a name of another user, or for no
    name, changes nothing. *)
Theorem MemStorage_toggleFavorite_involution :
  forall userId nameId m,
    let m1 := snd (MemNames.toggleFavorite userId nameId m) in
    snd (MemNames.toggleFavorite userId nameId m1) = m
    /\ JsMap.keys (MemNames.generatedNames m1) = JsMap.keys (MemNames.generatedNames m)
    /\ (forall other limit,
          other <> userId ->
          MemNames.getUserFavorites other m1 = MemNames.getUserFavorites other m
          /\ MemNames.getUserGeneratedNames other limit m1
             = MemNames.getUserGeneratedNames other limit m)
    /\ (forall g,
          JsMap.get Z.eqb nameId (MemNames.generatedNames m) = Some g ->
          MemNames.ownedBy userId g = true ->
          JsMap.get Z.eqb nameId (MemNames.generatedNames m1)
          = Some (GeneratedName.set_isFavorite (negb (GeneratedName.isFavorite g)) g))
    /\ ((forall g,
           JsMap.get Z.eqb nameId (MemNames.generatedNames m) = Some g ->
           MemNames.ownedBy userId g = false) ->
        m1 = m).
Proof.
  intros userId nameId m m1.
  destruct (JsMap.get Z.eqb nameId (MemNames.generatedNames m)) as [g|] eqn:Hg.
  - destruct (MemNames.ownedBy userId g) eqn:Ho.
    + assert (Hm1 : m1 = MemNames.mk
                (JsMap.set Z.eqb nameId
                   (GeneratedName.set_isFavorite (negb (GeneratedName.isFavorite g)) g)
                   (MemNames.generatedNames m))
                (MemNames.currentNameId m)).
      { unfold m1. rewrite (toggleFavorite_owned userId nameId m g Hg Ho). reflexivity. }
      rewrite Hm1. split; [|split; [|split; [|split]]].
      * erewrite toggleFavorite_owned;
          [| simpl; apply (get_set_same Z.eqb Z.eqb_eq) | exact Ho].
        simpl. rewrite set_set, negb_involutive.
        replace (GeneratedName.set_isFavorite (GeneratedName.isFavorite g)
                   (GeneratedName.set_isFavorite (negb (GeneratedName.isFavorite g)) g))
          with g by (destruct g; reflexivity).
        rewrite (set_get_same_id _ _ _ Hg). destruct m; reflexivity.
      * simpl. exact (keys_set_present _ _ _ _ Hg).
      * intros other limit Hne.
        pose proof (ownedBy_two userId other g Hne Ho) as Hoth.
        unfold MemNames.getUserFavorites, MemNames.getUserGeneratedNames. simpl.
        set (g' := GeneratedName.set_isFavorite (negb (GeneratedName.isFavorite g)) g).
        assert (Hoth' : MemNames.ownedBy other g' = false) by exact Hoth.
        rewrite (filter_values_set (MemNames.ownedBy other) nameId g g' _ Hg Hoth Hoth').
        rewrite (filter_values_set
                   (fun g0 => MemNames.ownedBy other g0 && GeneratedName.isFavorite g0)
                   nameId g g' _ Hg).
        -- split; reflexivity.
        -- rewrite Hoth. reflexivity.
        -- rewrite Hoth'. reflexivity.
      * intros g0 H0 _. injection H0 as <-. simpl.
        apply (get_set_same Z.eqb Z.eqb_eq).
      * intros H. rewrite (H g eq_refl) in Ho. discriminate.
    + assert (Hm1 : m1 = m).
      { unfold m1. rewrite toggleFavorite_other; [reflexivity|].
        intros g0 H0. rewrite Hg in H0. injection H0 as <-. exact Ho. }
      rewrite Hm1. split; [|split; [|split; [|split]]].
      * rewrite toggleFavorite_other; [reflexivity|].
        intros g0 H0. rewrite Hg in H0. injection H0 as <-. exact Ho.
      * reflexivity.
      * intros; split; reflexivity.
      * intros g0 H0 Ho'. injection H0 as <-. rewrite Ho in Ho'. discriminate.
      * reflexivity.
  - assert (Hm1 : m1 = m).
    { unfold m1. rewrite toggleFavorite_other; [reflexivity|].
      intros g0 H0. rewrite Hg in H0. discriminate. }
    rewrite Hm1. split; [|split; [|split; [|split]]].
    + rewrite toggleFavorite_other; [reflexivity|].
      intros g0 H0. rewrite Hg in H0. discriminate.
    + reflexivity.
    + intros; split; reflexivity.
    + intros g0 H0. discriminate.
    + reflexivity.
Qed.

Lemma MemStorage_toggleFavorite_involution_witness :
  JsMap.get Z.eqb 3 (MemNames.generatedNames demoNames)
  = Some (demoName 3 "Doughly" false today)
  /\ MemNames.ownedBy 1 (demoName 3 "Doughly" false today) = true
  /\ JsMap.get Z.eqb 3
       (MemNames.generatedNames (snd (MemNames.toggleFavorite 1 3 demoNames)))
     = Some (demoName 3 "Doughly" true today)
  /\ 2 <> 1
  /\ MemNames.getUserFavorites 2 (snd (MemNames.toggleFavorite 1 3 demoNames))
     = MemNames.getUserFavorites 2 demoNames
  /\ (forall g,
        JsMap.get Z.eqb 3 (MemNames.generatedNames demoNames) = Some g ->
        MemNames.ownedBy 2 g = false)
  /\ snd (MemNames.toggleFavorite 2 3 demoNames) = demoNames.
Proof.
  assert (Hg : JsMap.get Z.eqb 3 (MemNames.generatedNames demoNames)
               = Some (demoName 3 "Doughly" false today)) by reflexivity.
  assert (Ho : MemNames.ownedBy 1 (demoName 3 "Doughly" false today) = true)
    by reflexivity.
  assert (Hne : 2 <> 1) by lia.
  assert (Hoth : forall g,
             JsMap.get Z.eqb 3 (MemNames.generatedNames demoNames) = Some g ->
             MemNames.ownedBy 2 g = false).
  { intros g H. rewrite Hg in H. injection H as <-. reflexivity. }
  split; [exact Hg|]. split; [exact Ho|]. split.
  { exact (proj1 (proj2 (proj2 (proj2
             (MemStorage_toggleFavorite_involution 1 3 demoNames)))) _ Hg Ho). }
  split; [exact Hne|]. split.
  { exact (proj1 (proj1 (proj2 (proj2
             (MemStorage_toggleFavorite_involution 1 3 demoNames))) 2 None Hne)). }
  split; [exact Hoth|].
  exact (proj2 (proj2 (proj2 (proj2
           (MemStorage_toggleFavorite_involution 2 3 demoNames)))) Hoth).
Defined.

Lemma insertSorted_perm {A} (cmp : A -> A -> Z) (x : A) (l : list A) :
  Permutation (x :: l) (JsArray.insertSorted cmp x l).
Proof.
  induction l as [|y r IH]; simpl; [apply Permutation_refl|].
  destruct (cmp x y <=? 0); [apply Permutation_refl|].
  eapply Permutation_trans; [apply perm_swap|]. apply perm_skip. exact IH.
Qed.

Lemma sort_perm {A} (cmp : A -> A -> Z) (l : list A) :
  Permutation l (JsArray.sort cmp l).
Proof.
  unfold JsArray.sort. induction l as [|x l IH]; simpl; [constructor|].
  eapply Permutation_trans; [apply perm_skip; exact IH | apply insertSorted_perm].
Qed.

Lemma insertSorted_newestFirst {A} (createdAt : A -> Date) (x : A) (l : list A) :
  newestFirstSorted createdAt l ->
  newestFirstSorted createdAt (JsArray.insertSorted (newestFirst createdAt) x l).
Proof.
  unfold newestFirstSorted, newestFirst.
  induction l as [|y r IH]; simpl; intros Hs.
  - constructor; constructor.
  - inversion Hs as [|? ? Hr Hy]; subst.
    destruct (Z.leb_spec (getTime (createdAt y) - getTime (createdAt x)) 0) as [E|E].
    + constructor; [exact Hs|].
      constructor; [lia|].
      apply Forall_forall. intros z Hz.
      pose proof (proj1 (Forall_forall _ _) Hy z Hz) as Hyz. cbv beta in Hyz. lia.
    + constructor; [apply IH; exact Hr|].
      apply Forall_forall. intros z Hz.
      apply (Permutation_in _
               (Permutation_sym (insertSorted_perm (newestFirst createdAt) x r))) in Hz.
      destruct Hz as [<-|Hz]; [lia|].
      exact (proj1 (Forall_forall _ _) Hy z Hz).
Qed.

Lemma sort_newestFirst {A} (createdAt : A -> Date) (l : list A) :
  newestFirstSorted createdAt (JsArray.sort (newestFirst createdAt) l).
Proof.
  unfold JsArray.sort. induction l as [|x l IH]; simpl; [constructor|].
  apply insertSorted_newestFirst. exact IH.
Qed.

Lemma slice0_firstn {A} (end_ : Z) (l : list A) :
  exists n, JsArray.slice0 end_ l = firstn n l.
Proof.
  unfold JsArray.slice0. destruct (end_ <? 0); eexists; reflexivity.
Qed.

Lemma newestFirstSorted_map {A} (createdAt : A -> Date) (f : A -> A) (l : list A) :
  (forall a, createdAt (f a) = createdAt a) ->
  newestFirstSorted createdAt l -> newestFirstSorted createdAt (map f l).
Proof.
  unfold newestFirstSorted. intros Hf. induction l as [|x l IH]; simpl; intros Hs;
    [constructor|].
  inversion Hs as [|? ? Hl Hx]; subst. constructor; [apply IH; exact Hl|].
  apply Forall_forall. intros y Hy. apply in_map_iff in Hy.
  destruct Hy as (z & <- & Hz). rewrite !Hf.
  exact (proj1 (Forall_forall _ _) Hx z Hz).
Qed.

(** X16. [MemStorage.getUserGeneratedNames] returns names of that user
    only, each with its [domains] made an object, the newer first. With no
    limit it returns at most 50 of them, with a limit that is not negative
    at most that many; with a negative limit that many names are left out.
    In every case the names left out are the oldest: none of them is newer
    than a name returned. *)
Theorem MemStorage_getUserGeneratedNames_newest_first :
  forall userId (limit : option Z) m,
    let owned :=
      filter (MemNames.ownedBy userId) (JsMap.values (MemNames.generatedNames m)) in
    let result := MemNames.getUserGeneratedNames userId limit m in
    newestFirstSorted GeneratedName.createdAt result
    /\ (forall r, In r result ->
          exists g, In g owned /\ r = MemNames.withDomains g)
    /\ (limit = None -> List.length result = Nat.min 50 (List.length owned))
    /\ (forall n, limit = Some n -> 0 <= n ->
          List.length result = Nat.min (Z.to_nat n) (List.length owned))
    /\ (forall n, limit = Some n -> n < 0 ->
          List.length result = (List.length owned - Z.to_nat (- n))%nat)
    /\ (forall g r,
          In g owned -> ~ In (MemNames.withDomains g) result -> In r result ->
          getTime (GeneratedName.createdAt g) <= getTime (GeneratedName.createdAt r)).
Proof.
  intros userId limit m owned result.
  assert (Hlen : List.length (JsArray.sort (newestFirst GeneratedName.createdAt) owned)
                 = List.length owned).
  { symmetry. apply Permutation_length. apply sort_perm. }
  split; [|split; [|split; [|split; [|split]]]].
  - unfold result, MemNames.getUserGeneratedNames. fold owned.
    apply newestFirstSorted_map; [intros a; reflexivity|].
    destruct (slice0_firstn (match limit with Some n => n | None => 50 end)
                (JsArray.sort (newestFirst GeneratedName.createdAt) owned)) as [n ->].
    apply StronglySorted_firstn. apply sort_newestFirst.
  - intros r Hr. unfold result, MemNames.getUserGeneratedNames in Hr. fold owned in Hr.
    apply in_map_iff in Hr. destruct Hr as (g & <- & Hg). exists g. split; [|reflexivity].
    destruct (slice0_firstn (match limit with Some n => n | None => 50 end)
                (JsArray.sort (newestFirst GeneratedName.createdAt) owned)) as [n Hn].
    rewrite Hn in Hg. apply In_firstn_In in Hg.
    exact (Permutation_in _ (Permutation_sym (sort_perm _ owned)) Hg).
  - intros ->. unfold result, MemNames.getUserGeneratedNames. fold owned.
    rewrite length_map. unfold JsArray.slice0.
    change (50 <? 0) with false. cbv iota.
    rewrite length_firstn, Hlen. reflexivity.
  - intros n -> Hn. unfold result, MemNames.getUserGeneratedNames. fold owned.
    rewrite length_map. unfold JsArray.slice0.
    destruct (Z.ltb_spec n 0) as [Hneg|_]; [lia|].
    rewrite length_firstn, Hlen. reflexivity.
  - intros n -> Hn. unfold result, MemNames.getUserGeneratedNames. fold owned.
    rewrite length_map. unfold JsArray.slice0.
    destruct (Z.ltb_spec n 0) as [_|Hpos]; [|lia].
    rewrite length_firstn, Hlen. lia.
  - unfold result, MemNames.getUserGeneratedNames. fold owned.
    set (sorted := JsArray.sort (newestFirst GeneratedName.createdAt) owned).
    destruct (slice0_firstn (match limit with Some n => n | None => 50 end) sorted)
      as [n ->].
    intros g r Hg Hnot Hr.
    apply in_map_iff in Hr. destruct Hr as (r' & <- & Hr').
    assert (Hin : In g sorted).
    { exact (Permutation_in _ (sort_perm _ owned) Hg). }
    rewrite <- (firstn_skipn n sorted) in Hin. apply in_app_or in Hin.
    destruct Hin as [Hin|Hin].
    + exfalso. apply Hnot. apply in_map. exact Hin.
    + exact (StronglySorted_firstn_skipn _ n sorted
               (sort_newestFirst GeneratedName.createdAt owned) r' g Hr' Hin).
Qed.

Lemma MemStorage_getUserGeneratedNames_newest_first_witness :
  map GeneratedName.name (MemNames.getUserGeneratedNames 1 None demoNames)
  = ["Crumbly"; "Doughly"; "Bakely"]
  /\ List.length (MemNames.getUserGeneratedNames 1 None demoNames) = 3%nat
  /\ 0 <= 2
  /\ List.length (MemNames.getUserGeneratedNames 1 (Some 2) demoNames) = 2%nat
  /\ -1 < 0
  /\ List.length (MemNames.getUserGeneratedNames 1 (Some (-1)) demoNames) = 2%nat.
Proof.
  pose proof (MemStorage_getUserGeneratedNames_newest_first 1 None demoNames)
    as (_ & _ & Hnone & _ & _ & _).
  pose proof (MemStorage_getUserGeneratedNames_newest_first 1 (Some 2) demoNames)
    as (_ & _ & _ & Hsome & _ & _).
  pose proof (MemStorage_getUserGeneratedNames_newest_first 1 (Some (-1)) demoNames)
    as (_ & _ & _ & _ & Hneg & _).
  assert (H2 : 0 <= 2) by lia.
  assert (H1 : -1 < 0) by lia.
  split; [reflexivity|].
  split; [etransitivity; [exact (Hnone eq_refl) | reflexivity]|].
  split; [exact H2|].
  split; [etransitivity; [exact (Hsome 2 eq_refl H2) | reflexivity]|].
  split; [exact H1|].
  etransitivity; [exact (Hneg (-1) eq_refl H1) | reflexivity].
Defined.

(** ** Buying and downloading a product *)

Lemma first_filter_existsb {R} (f : R -> bool) (l : list R) (x : R) :
  Sql.first (filter f l) = Some x -> existsb f l = true /\ In x l /\ f x = true.
Proof.
  unfold Sql.first. induction l as [|y l IH]; simpl; [discriminate|].
  destruct (f y) eqn:E; simpl.
  - intros H. injection H as <-. split; [reflexivity|]. split; [left; reflexivity|exact E].
  - intros H. destruct (IH H) as (H1 & H2 & H3). split; [exact H1|].
    split; [right; exact H2 | exact H3].
Qed.

(** The purchase route, case by case. *)
Lemma purchase_cases productId paymentMethod paymentId dateNow now s :
  match DatabaseShop.getDigitalProduct productId s with
  | None =>
      ShopRoutes.purchase productId paymentMethod paymentId dateNow now s
      = (Routes.reply 404 (Routes.Message "Product not found"), s)
  | Some product =>
      match DatabaseStorage.getPurchase Routes.demoUserId productId (core s) with
      | Some _ =>
          ShopRoutes.purchase productId paymentMethod paymentId dateNow now s
          = (Routes.reply 400 (Routes.Message "Product already purchased"), s)
      | None =>
          if DatabaseStorage.userExists Routes.demoUserId (core s)
          then
            let row := purchaseRow productId paymentMethod paymentId dateNow now
                         product s in
            ShopRoutes.purchase productId paymentMethod paymentId dateNow now s
            = (Routes.reply 200
                 (Routes.Payload
                    (ShopRoutes.purchased "Purchase successful" row
                       ("/api/digital-products/" ++ Js.toString productId
                        ++ "/download?purchaseId=" ++ Js.toString (Purchase.id row))%string)),
               mkShopDb
                 (with_purchases
                    (fun t => Sql.mkTable (Sql.rows t ++ [row]) (Sql.nextId t + 1))
                    (core s))
                 (digitalProducts s))
          else
            ShopRoutes.purchase productId paymentMethod paymentId dateNow now s
            = (Routes.reply 500 (Routes.Message "Failed to process purchase"),
               mkShopDb (with_purchases Sql.skipId (core s)) (digitalProducts s))
      end
  end.
Proof.
  destruct s as [db products].
  unfold ShopRoutes.purchase, Routes.handle, bind, gets, ret, onCore. simpl.
  destruct (DatabaseShop.getDigitalProduct productId (mkShopDb db products))
    as [product|] eqn:Ep; [|reflexivity].
  cbn [core digitalProducts].
  destruct (DatabaseStorage.getPurchase Routes.demoUserId productId db) as [p0|] eqn:Eg;
    [reflexivity|].
  unfold DatabaseShop.createPurchase. cbn [core digitalProducts PurchaseFields.i_productId].
  destruct (DatabaseStorage.userExists Routes.demoUserId db) eqn:Eu;
    cbn [negb]; [|reflexivity].
  unfold DatabaseShop.getDigitalProduct, Sql.selectWhere in Ep. simpl in Ep.
  destruct (first_filter_existsb _ _ _ Ep) as (Hex & _ & _).
  rewrite Hex. reflexivity.
Qed.




(** The row update of [incrementDownloadCount]. *)
Lemma incrementDownloadCount_rows purchaseId db :
  Sql.rows (digitalProductPurchases
              (snd (DatabaseStorage.incrementDownloadCount purchaseId db)))
  = map (fun q => if Purchase.id q =? purchaseId
                  then Purchase.set_downloadCount (Purchase.downloadCount q + 1) q
                  else q)
        (Sql.rows (digitalProductPurchases db)).
Proof. reflexivity. Qed.

(** The download route, case by case. *)
Lemma download_cases productId purchaseId s :
  match DatabaseStorage.getPurchase Routes.demoUserId productId (core s) with
  | None =>
      ShopRoutes.download productId purchaseId s
      = (Routes.reply 403 (Routes.Message "Access denied - purchase required"), s)
  | Some p =>
      if match purchaseId with
         | Some q => String.eqb (Js.toString (Purchase.id p)) q
         | None => false
         end
      then
        match DatabaseShop.getDigitalProduct productId s with
        | None =>
            ShopRoutes.download productId purchaseId s
            = (Routes.reply 404 (Routes.Message "Product not found"), s)
        | Some product =>
            ShopRoutes.download productId purchaseId s
            = (Routes.reply 200
                 (Routes.Payload
                    (ShopRoutes.download_of (DigitalProduct.fileName product)
                       (DigitalProduct.title product) (DigitalProduct.category product)
                       (DigitalProduct.description product) (Purchase.createdAt p)
                       (Purchase.downloadCount p + 1))),
               mkShopDb
                 (snd (DatabaseStorage.incrementDownloadCount (Purchase.id p) (core s)))
                 (digitalProducts s))
        end
      else
        ShopRoutes.download productId purchaseId s
        = (Routes.reply 403 (Routes.Message "Access denied - purchase required"), s)
  end.
Proof.
  destruct s as [db products].
  unfold ShopRoutes.download, Routes.handle, bind, gets, ret, onCore.
  cbn [core digitalProducts].
  destruct (DatabaseStorage.getPurchase Routes.demoUserId productId db) as [p|] eqn:Eg;
    [|reflexivity].
  destruct (match purchaseId with
            | Some q => String.eqb (Js.toString (Purchase.id p)) q
            | None => false
            end) eqn:Eq; cbn [negb]; [|reflexivity].
  destruct (DatabaseShop.getDigitalProduct productId (mkShopDb db products))
    as [product|] eqn:Ep; reflexivity.
Qed.

Lemma first_filter_map {R} (f : R -> bool) (g : R -> R) (l : list R) :
  (forall x, f (g x) = f x) ->
  Sql.first (filter f (map g l)) = option_map g (Sql.first (filter f l)).
Proof.
  unfold Sql.first. intros Hfg. induction l as [|x l IH]; simpl; [reflexivity|].
  rewrite Hfg. destruct (f x); [reflexivity | exact IH].
Qed.

Lemma filter_map_preserved {R} (f : R -> bool) (g : R -> R) (l : list R) :
  (forall x, f (g x) = f x) ->
  filter f (map g l) = map g (filter f l).
Proof.
  intros Hfg. induction l as [|x l IH]; simpl; [reflexivity|].
  rewrite Hfg. destruct (f x); simpl; rewrite IH; reflexivity.
Qed.

Lemma purchaseOf_counted userId productId purchaseId q :
  purchaseOf userId productId
    (if Purchase.id q =? purchaseId
     then Purchase.set_downloadCount (Purchase.downloadCount q + 1) q
     else q)
  = purchaseOf userId productId q.
Proof. destruct (Purchase.id q =? purchaseId); reflexivity. Qed.





Lemma getPurchase_filter userId productId db :
  DatabaseStorage.getPurchase userId productId db
  = Sql.first (filter (purchaseOf userId productId)
                 (Sql.rows (digitalProductPurchases db))).
Proof. reflexivity. Qed.

Lemma first_none_filter {R} (l : list R) : Sql.first l = None -> l = [].
Proof. destruct l; [reflexivity | discriminate]. Qed.

Lemma first_filter_app {R} (f : R -> bool) (l l' : list R) (x : R) :
  Sql.first (filter f l) = Some x -> Sql.first (filter f (l ++ l')) = Some x.
Proof.
  rewrite filter_app. unfold Sql.first.
  destruct (filter f l); [discriminate | intros H; exact H].
Qed.

(** What one call of the two routes does to the purchases. *)
Lemma runShopCall_step c s :
  (runShopCall s c = s
   \/ runShopCall s c
      = mkShopDb (with_purchases Sql.skipId (core s)) (digitalProducts s))
  \/ (exists productId row,
        DatabaseStorage.getPurchase Routes.demoUserId productId (core s) = None
        /\ Purchase.userId row = Some Routes.demoUserId
        /\ Purchase.productId row = productId
        /\ runShopCall s c
           = mkShopDb
               (with_purchases
                  (fun t => Sql.mkTable (Sql.rows t ++ [row]) (Sql.nextId t + 1))
                  (core s))
               (digitalProducts s))
  \/ (exists purchaseId,
        runShopCall s c
        = mkShopDb (snd (DatabaseStorage.incrementDownloadCount purchaseId (core s)))
            (digitalProducts s)).
Proof.
  destruct c as [productId paymentMethod paymentId dateNow now|productId purchaseId];
    simpl.
  - pose proof (purchase_cases productId paymentMethod paymentId dateNow now s) as H.
    destruct (DatabaseShop.getDigitalProduct productId s) as [product|];
      [|left; left; rewrite H; reflexivity].
    destruct (DatabaseStorage.getPurchase Routes.demoUserId productId (core s)) eqn:Eg;
      [left; left; rewrite H; reflexivity|].
    destruct (DatabaseStorage.userExists Routes.demoUserId (core s));
      [|left; right; rewrite H; reflexivity].
    right. left. cbv zeta in H. rewrite H. simpl.
    exists productId.
    exists (purchaseRow productId paymentMethod paymentId dateNow now product s).
    split; [exact Eg|]. split; [reflexivity|]. split; reflexivity.
  - pose proof (download_cases productId purchaseId s) as H.
    destruct (DatabaseStorage.getPurchase Routes.demoUserId productId (core s)) as [p|];
      [|left; left; rewrite H; reflexivity].
    destruct (match purchaseId with
              | Some q => String.eqb (Js.toString (Purchase.id p)) q
              | None => false
              end); [|left; left; rewrite H; reflexivity].
    destruct (DatabaseShop.getDigitalProduct productId s) as [product|];
      [|left; left; rewrite H; reflexivity].
    right. right. rewrite H. simpl. exists (Purchase.id p). reflexivity.
Qed.

Lemma boughtOnce_step c s : boughtOnce s -> boughtOnce (runShopCall s c).
Proof.
  intros Hb.
  destruct (runShopCall_step c s)
    as [[->| ->]|[(productId & row & Hn & Hu & Hp & ->)|(purchaseId & ->)]];
    [exact Hb|exact Hb| |].
  - intros k. simpl. rewrite filter_app, length_app.
    destruct (Z.eqb_spec k productId) as [->|Hne].
    + rewrite getPurchase_filter in Hn. rewrite (first_none_filter _ Hn). simpl.
      destruct (purchaseOf Routes.demoUserId productId row); simpl; lia.
    + assert (Hrow : purchaseOf Routes.demoUserId k row = false).
      { unfold purchaseOf. rewrite Hu, Hp. apply andb_false_iff. right.
        apply Z.eqb_neq. congruence. }
      simpl. rewrite Hrow. simpl. specialize (Hb k). lia.
  - intros k. cbn [core]. rewrite incrementDownloadCount_rows.
    rewrite filter_map_preserved by (intros x; apply purchaseOf_counted).
    rewrite length_map. exact (Hb k).
Qed.

Lemma getPurchase_step c s productId p :
  DatabaseStorage.getPurchase Routes.demoUserId productId (core s) = Some p ->
  exists p',
    DatabaseStorage.getPurchase Routes.demoUserId productId (core (runShopCall s c))
    = Some p'
    /\ Purchase.id p' = Purchase.id p
    /\ Purchase.purchasePrice p' = Purchase.purchasePrice p
    /\ Purchase.createdAt p' = Purchase.createdAt p
    /\ Purchase.downloadCount p <= Purchase.downloadCount p'.
Proof.
  intros Hg.
  destruct (runShopCall_step c s)
    as [[->| ->]|[(k & row & Hn & Hu & Hp & ->)|(purchaseId & ->)]].
  - exists p. split; [exact Hg|]. repeat split; lia.
  - exists p. split; [exact Hg|]. repeat split; lia.
  - exists p. split; [|repeat split; lia].
    rewrite getPurchase_filter. simpl. apply first_filter_app.
    rewrite <- getPurchase_filter. exact Hg.
  - cbn [core]. rewrite getPurchase_filter, incrementDownloadCount_rows.
    rewrite first_filter_map by (intros x; apply purchaseOf_counted).
    rewrite <- getPurchase_filter, Hg. simpl.
    destruct (Purchase.id p =? purchaseId); eexists; (split; [reflexivity|]);
      simpl; repeat split; lia.
Qed.

Lemma products_step c s : digitalProducts (runShopCall s c) = digitalProducts s.
Proof.
  destruct (runShopCall_step c s)
    as [[->| ->]|[(k & row & _ & _ & _ & ->)|(purchaseId & ->)]]; reflexivity.
Qed.

(** X19. Whatever calls of the purchase and the download route are made,
    in any order: the products are not changed, and from a store where no
    product has two purchases by the demo user, a product never gets a
    second one and a purchase that [getPurchase] finds stays the one it
    finds, with its id, price and date, its download count never lower
    than before. *)
Theorem shop_calls_keep_one_purchase_per_product :
  forall (calls : list ShopCall) s,
    let s' := fold_left runShopCall calls s in
    (boughtOnce s -> boughtOnce s')
    /\ digitalProducts s' = digitalProducts s
    /\ (boughtOnce s ->
        forall productId p,
          DatabaseStorage.getPurchase Routes.demoUserId productId (core s) = Some p ->
          exists p',
            DatabaseStorage.getPurchase Routes.demoUserId productId (core s') = Some p'
            /\ Purchase.id p' = Purchase.id p
            /\ Purchase.purchasePrice p' = Purchase.purchasePrice p
            /\ Purchase.createdAt p' = Purchase.createdAt p
            /\ Purchase.downloadCount p <= Purchase.downloadCount p').
Proof.
  induction calls as [|c calls IH]; intros s; simpl.
  - split; [intros H; exact H|]. split; [reflexivity|].
    intros _ productId p Hg. exists p. split; [exact Hg|]. repeat split; lia.
  - destruct (IH (runShopCall s c)) as (Hb & Hprod & Hkeep).
    split; [intros H; apply Hb; apply boughtOnce_step; exact H|].
    split; [rewrite Hprod; apply products_step|].
    intros Honce productId p Hg.
    destruct (getPurchase_step c s productId p Hg) as (p1 & Hg1 & Hid1 & Hpr1 & Hat1 & Hdc1).
    destruct (Hkeep (boughtOnce_step _ _ Honce) productId p1 Hg1)
      as (p2 & Hg2 & Hid2 & Hpr2 & Hat2 & Hdc2).
    exists p2. split; [exact Hg2|].
    split; [congruence|]. split; [congruence|]. split; [congruence|]. lia.
Qed.

Lemma shop_calls_keep_one_purchase_per_product_witness :
  boughtOnce demoShop
  /\ boughtOnce
       (fold_left runShopCall
          [CallPurchase 8 None None 1736899200000 today;
           CallPurchase 8 (Some "paypal") None 1736899260000 laterToday;
           CallDownload 7 (Some "1")]
          demoShop)
  /\ exists p',
       DatabaseStorage.getPurchase Routes.demoUserId 7
         (core (fold_left runShopCall
                  [CallPurchase 8 None None 1736899200000 today;
                   CallPurchase 8 (Some "paypal") None 1736899260000 laterToday;
                   CallDownload 7 (Some "1")]
                  demoShop))
       = Some p'
       /\ Purchase.id p' = 1.
Proof.
  assert (Hb : boughtOnce demoShop).
  { intros k. simpl. destruct (purchaseOf Routes.demoUserId k demoPurchase); simpl; lia. }
  assert (Hg : DatabaseStorage.getPurchase Routes.demoUserId 7 (core demoShop)
               = Some demoPurchase) by reflexivity.
  pose proof (shop_calls_keep_one_purchase_per_product
                [CallPurchase 8 None None 1736899200000 today;
                 CallPurchase 8 (Some "paypal") None 1736899260000 laterToday;
                 CallDownload 7 (Some "1")]
                demoShop) as (Honce & _ & Hkeep).
  split; [exact Hb|]. split; [exact (Honce Hb)|].
  destruct (Hkeep Hb 7 demoPurchase Hg) as (p' & Hg' & Hid & _).
  exists p'. split; [exact Hg' | exact Hid].
Defined.



